(** * DDPG / MADDPG learning engine of Markov-Pilot

    A shallow embedding of [gym_jsbsim/learn/ddpg_torch_eee.py]: the
    Ornstein-Uhlenbeck noise process, the replay buffer, the actor and critic
    networks, the single- and multi-agent agents with their [learn] steps,
    the soft target update and the checkpoint functions.

    Modelling conventions.
    - numpy and torch floating-point numbers are idealised as real numbers
      ([R]); rounding, infinities and NaN are outside the model.
    - a 1-D array is a [list R]; a 2-D tensor is a [Mat] (a column count and
      a list of rows), so that a tensor without rows still has a width.
      Observation and action shapes are 1-tuples [(d,)], given by [d].
    - Python exceptions are values of [PyError]; a function that can raise
      returns a [Res].  Mutated objects are threaded explicitly; the agents
      reachable from [agents_list] live in a heap (a map from addresses to
      agents), so that [self] and [agents_list[own_idx].agent] may alias.
    - the global numpy / torch random generators are an explicit [RNG].
    - autograd and the Adam optimizer are library code: they are parameters
      of the section that defines the agents.
    - the module is taken as loaded: the annotations [List[Tuple]] of
      [Agent_Multi.__init__], whose names the module never imports, are
      not evaluated. *)

From Stdlib Require Import Reals Lra Lia Psatz List Bool String Arith.
From stdpp Require Import base list.
Import ListNotations.

Open Scope string_scope.
Open Scope R_scope.
Open Scope nat_scope.

(** ** Python exceptions and the result monad *)

Inductive PyError : Type :=
| ZeroDivisionError
| IndexError
| KeyError (key : string)
| ValueError (msg : string)
| TypeError (msg : string)
| NameError (name : string)
| FileNotFoundError (name : string)
| RuntimeError (msg : string).

Inductive Res (A : Type) : Type :=
| Ok (a : A)
| Err (e : PyError).
Arguments Ok {A} a.
Arguments Err {A} e.

Definition bind {A B : Type} (m : Res A) (k : A -> Res B) : Res B :=
  match m with
  | Ok a => k a
  | Err e => Err e
  end.

Notation "'let*' x ':=' m 'in' k" := (bind m (fun x => k))
  (at level 10, x pattern, m at level 100, k at level 200).

Fixpoint mapM {A B : Type} (f : A -> Res B) (l : list A) : Res (list B) :=
  match l with
  | [] => Ok []
  | a :: l' =>
      let* b := f a in
      let* bs := mapM f l' in
      Ok (b :: bs)
  end.

(** ** 1-D numpy arrays *)

Abbreviation Vec := (list R).

Fixpoint map2 {A B C : Type} (f : A -> B -> C) (l1 : list A) (l2 : list B) : list C :=
  match l1, l2 with
  | a :: l1', b :: l2' => f a b :: map2 f l1' l2'
  | _, _ => []
  end.

(** [np.zeros(shape)] and [np.zeros_like(a)] for 1-D shapes. *)
Definition np_zeros (n : nat) : Vec := repeat 0%R n.
Definition np_zeros_like (a : Vec) : Vec := np_zeros (length a).

(** Broadcasting of one dimension: equal sizes, or one of them is 1. *)
Definition bdim (n m : nat) : option nat :=
  if n =? m then Some n
  else if n =? 1 then Some m
  else if m =? 1 then Some n
  else None.

Definition expand_vec (n : nat) (a : Vec) : Vec :=
  if length a =? n then a else repeat (hd 0%R a) n.

(** An elementwise binary operation on two 1-D arrays, with numpy's
    broadcasting; shapes that do not broadcast raise [ValueError]. *)
Definition np_binop (f : R -> R -> R) (a b : Vec) : Res Vec :=
  match bdim (length a) (length b) with
  | Some n => Ok (map2 f (expand_vec n a) (expand_vec n b))
  | None => Err (ValueError "operands could not be broadcast together")
  end.

Definition np_add := np_binop Rplus.
Definition np_sub := np_binop Rminus.
Definition np_mul := np_binop Rmult.

(** A Python float times an array. *)
Definition np_scale (c : R) (a : Vec) : Vec := map (Rmult c) a.
Definition np_rscale (a : Vec) (c : R) : Vec := map (fun x => (x * c)%R) a.

(** ** 2-D arrays and tensors *)

Record Mat : Type := mkMat {
  ncols : nat;
  rows : list Vec
}.

Definition nrows (m : Mat) : nat := length (rows m).

(** [np.zeros((r, c))] *)
Definition zeros2 (r c : nat) : Mat := mkMat c (repeat (np_zeros c) r).

(** A 1-D tensor [(c,)] seen as the 2-D tensor [(1, c)]. *)
Definition row_mat (v : Vec) : Mat := mkMat (length v) [v].

Definition mat_map (f : R -> R) (m : Mat) : Mat :=
  mkMat (ncols m) (map (map f) (rows m)).

Definition expand_mat (r c : nat) (m : Mat) : list Vec :=
  let rs := map (expand_vec c) (rows m) in
  if length rs =? r then rs else repeat (hd [] rs) r.

(** An elementwise binary operation on two 2-D tensors with broadcasting;
    torch raises [RuntimeError] on shapes that do not broadcast. *)
Definition T_binop (f : R -> R -> R) (a b : Mat) : Res Mat :=
  match bdim (nrows a) (nrows b), bdim (ncols a) (ncols b) with
  | Some r, Some c =>
      Ok (mkMat c (map2 (map2 f) (expand_mat r c a) (expand_mat r c b)))
  | _, _ => Err (RuntimeError "The size of tensor a must match the size of tensor b")
  end.

Definition T_add := T_binop Rplus.
Definition T_sub := T_binop Rminus.
Definition T_mul := T_binop Rmult.

(** [tensor.view(b, 1)] of a 1-D tensor. *)
Definition view_col (v : Vec) (b : nat) : Res Mat :=
  if length v =? b then Ok (mkMat 1 (map (fun x => [x]) v))
  else Err (RuntimeError "shape is invalid for input size").

(** [T.cat(tensors, dim=1)] and [T.cat(tensors)] (dim 0) on 2-D tensors. *)
Definition cat_pair1 (a b : Mat) : Res Mat :=
  if nrows a =? nrows b
  then Ok (mkMat (ncols a + ncols b) (map2 (@app R) (rows a) (rows b)))
  else Err (RuntimeError "Sizes of tensors must match except in dimension 1").

Definition cat_pair0 (a b : Mat) : Res Mat :=
  if ncols a =? ncols b
  then Ok (mkMat (ncols a) (rows a ++ rows b))
  else Err (RuntimeError "Sizes of tensors must match except in dimension 0").

Definition T_cat_with (pair : Mat -> Mat -> Res Mat) (ts : list Mat) : Res Mat :=
  match ts with
  | [] => Err (RuntimeError "torch.cat(): expected a non-empty list of Tensors")
  | t :: ts' => fold_left (fun acc x => let* a := acc in pair a x) ts' (Ok t)
  end.

Definition T_cat1 := T_cat_with cat_pair1.
Definition T_cat0 := T_cat_with cat_pair0.

Definition vsum (v : Vec) : R := fold_right Rplus 0%R v.

(** [T.mean(t)]: the mean over all entries. *)
Definition T_mean (m : Mat) : R :=
  (vsum (map vsum (rows m)) / INR (nrows m * ncols m))%R.

(** [list.pop(i)] *)
Definition py_pop {A : Type} (l : list A) (i : nat) : Res (A * list A) :=
  match l !! i with
  | Some x => Ok (x, delete i l)
  | None => Err IndexError
  end.

(** [l[i]] *)
Definition py_index {A : Type} (l : list A) (i : nat) : Res A :=
  match l !! i with
  | Some x => Ok x
  | None => Err IndexError
  end.

(** ** The random generators

    The draws of [np.random.choice], [np.random.normal] and of torch's
    [uniform_] come from three sequences fixed in advance; the generator
    state is the number of draws consumed so far from each. *)

Record RNG : Type := mkRNG {
  choice_seq : nat -> nat;
  normal_seq : nat -> R;
  uniform_seq : nat -> R;
  choice_pos : nat;
  normal_pos : nat;
  uniform_pos : nat
}.

(** [np.random.normal(size=(n,))] *)
Definition np_random_normal (g : RNG) (n : nat) : Vec * RNG :=
  (map (fun k => normal_seq g (normal_pos g + k)) (seq 0 n),
   mkRNG (choice_seq g) (normal_seq g) (uniform_seq g)
         (choice_pos g) (normal_pos g + n) (uniform_pos g)).

(** [np.random.choice(a, size)] for an integer [a]: [size] indices below
    [a], drawn with replacement; an empty population with a non-empty
    request raises [ValueError]. *)
Definition np_random_choice (g : RNG) (a size : nat) : Res (list nat * RNG) :=
  if (a =? 0) && negb (size =? 0) then
    Err (ValueError "a must be greater than 0 unless no samples are taken")
  else
    Ok (map (fun k => choice_seq g (choice_pos g + k) mod a) (seq 0 size),
        mkRNG (choice_seq g) (normal_seq g) (uniform_seq g)
              (choice_pos g + size) (normal_pos g) (uniform_pos g)).

(** ** OUActionNoise *)

Module OUActionNoise.

Record t : Type := mk {
  theta : R;
  mu : Vec;
  sigma : R;
  dt : R;
  x0 : option Vec;
  x_prev : Vec
}.

Definition set_x_prev (self : t) (x : Vec) : t :=
  mk (theta self) (mu self) (sigma self) (dt self) (x0 self) x.

(** [reset]: [x_prev = x0 if x0 is not None else zeros_like(mu)] *)
Definition reset (self : t) : t :=
  set_x_prev self
    (match x0 self with
     | Some v => v
     | None => np_zeros_like (mu self)
     end).

(** [__init__] ends with a call to [reset]. *)
Definition init (mu : Vec) (sigma theta dt : R) (x0 : option Vec) : t :=
  reset (mk theta mu sigma dt x0 []).

(** The deterministic part of [__call__], given the normal draws [xi]:
    [x = x_prev + theta * (mu - x_prev) * dt + sigma * sqrt(dt) * xi]. *)
Definition step (self : t) (xi : Vec) : Res Vec :=
  let* d := np_sub (mu self) (x_prev self) in
  let drift := np_rscale (np_scale (theta self) d) (dt self) in
  let* a := np_add (x_prev self) drift in
  np_add a (np_scale (sigma self * sqrt (dt self)) xi).

(** [__call__]: draws [normal(size=mu.shape)], stores and returns [x]. *)
Definition call (self : t) (g : RNG) : Res (Vec * t * RNG) :=
  let '(xi, g') := np_random_normal g (length (mu self)) in
  let* x := step self xi in
  Ok (x, set_x_prev self x, g').

End OUActionNoise.

(** ** ReplayBuffer *)

Module ReplayBuffer.

Record t : Type := mk {
  mem_size : nat;
  mem_cntr : nat;
  obs_memory : Mat;
  obs_next_memory : Mat;
  action_memory : Mat;
  reward_memory : Vec;
  terminal_memory : Vec
}.

(** [__init__(max_size, input_shape, actions_shape)] with
    [input_shape = (d,)] and [actions_shape = (n,)]. *)
Definition init (max_size input_shape actions_shape : nat) : t :=
  mk max_size 0
     (zeros2 max_size input_shape)
     (zeros2 max_size input_shape)
     (zeros2 max_size actions_shape)
     (np_zeros max_size)
     (np_zeros max_size).

(** [n % m] on Python ints. *)
Definition py_mod (n m : nat) : Res nat :=
  if m =? 0 then Err ZeroDivisionError else Ok (n mod m).

(** [mem[index] = row] on a 2-D array: the index must exist and the value
    must broadcast to the shape of a row. *)
Definition set_row (mem : Mat) (index : nat) (row : Vec) : Res Mat :=
  if index <? nrows mem then
    if (length row =? ncols mem) || (length row =? 1)
    then Ok (mkMat (ncols mem) (<[index := expand_vec (ncols mem) row]> (rows mem)))
    else Err (ValueError "could not broadcast input array")
  else Err IndexError.

(** [mem[index] = x] on a 1-D array. *)
Definition set_item (mem : Vec) (index : nat) (x : R) : Res Vec :=
  if index <? length mem then Ok (<[index := x]> mem) else Err IndexError.

(** A Python bool used as a number. *)
Definition bool_R (b : bool) : R := if b then 1%R else 0%R.

Definition store_transition (self : t) (obs action : Vec) (reward : R)
    (obs_next : Vec) (done : bool) : Res t :=
  let* index := py_mod (mem_cntr self) (mem_size self) in
  let* om := set_row (obs_memory self) index obs in
  let* onm := set_row (obs_next_memory self) index obs_next in
  let* am := set_row (action_memory self) index action in
  let* rm := set_item (reward_memory self) index reward in
  let* tm := set_item (terminal_memory self) index (1 - bool_R done)%R in
  Ok (mk (mem_size self) (mem_cntr self + 1) om onm am rm tm).

Definition get_batch_idxs (self : t) (g : RNG) (batch_size : nat)
    : Res (list nat * RNG) :=
  let max_mem := Nat.min (mem_cntr self) (mem_size self) in
  np_random_choice g max_mem batch_size.

(** [mem[batch_idxs]]: numpy's selection by an index array. *)
Definition take {A : Type} (mem : list A) (batch_idxs : list nat) : Res (list A) :=
  mapM (py_index mem) batch_idxs.

Definition take_rows (mem : Mat) (batch_idxs : list nat) : Res Mat :=
  let* rs := take (rows mem) batch_idxs in
  Ok (mkMat (ncols mem) rs).

Record samples : Type := mk_samples {
  s_obs : Mat;
  s_actions : Mat;
  s_rewards : Vec;
  s_obs_next : Mat;
  s_terminal : Vec
}.

Definition get_samples_from_buffer (self : t) (batch_idxs : list nat) : Res samples :=
  let* obs := take_rows (obs_memory self) batch_idxs in
  let* actions := take_rows (action_memory self) batch_idxs in
  let* rewards := take (reward_memory self) batch_idxs in
  let* obs_next := take_rows (obs_next_memory self) batch_idxs in
  let* terminal := take (terminal_memory self) batch_idxs in
  Ok (mk_samples obs actions rewards obs_next terminal).

End ReplayBuffer.

(** ** Parameter tensors and state dictionaries *)

Inductive Tensor : Type :=
| T1 (v : Vec)
| T2 (m : Mat).

Definition same_shape (a b : Tensor) : bool :=
  match a, b with
  | T1 u, T1 v => length u =? length v
  | T2 m, T2 n => (nrows m =? nrows n) && (ncols m =? ncols n)
  | _, _ => false
  end.

(** [c * t] for a Python float [c]. *)
Definition tensor_scale (c : R) (t : Tensor) : Tensor :=
  match t with
  | T1 v => T1 (np_scale c v)
  | T2 m => T2 (mat_map (Rmult c) m)
  end.

(** [a + b] with broadcasting. *)
Definition tensor_add (a b : Tensor) : Res Tensor :=
  match a, b with
  | T1 u, T1 v =>
      match bdim (length u) (length v) with
      | Some n => Ok (T1 (map2 Rplus (expand_vec n u) (expand_vec n v)))
      | None => Err (RuntimeError "The size of tensor a must match the size of tensor b")
      end
  | T2 m, T2 n => let* r := T_add m n in Ok (T2 r)
  | T1 u, T2 n => let* r := T_add (row_mat u) n in Ok (T2 r)
  | T2 m, T1 v => let* r := T_add m (row_mat v) in Ok (T2 r)
  end.

(** A Python dict from parameter names to tensors, in insertion order. *)
Definition Dict : Type := list (string * Tensor).

Fixpoint dict_get (d : Dict) (k : string) : option Tensor :=
  match d with
  | [] => None
  | (k', v) :: d' => if String.eqb k' k then Some v else dict_get d' k
  end.

(** [d[k]] *)
Definition dict_item (d : Dict) (k : string) : Res Tensor :=
  match dict_get d k with
  | Some v => Ok v
  | None => Err (KeyError k)
  end.

Definition dict_keys (d : Dict) : list string := map fst d.

Definition load_error : PyError := RuntimeError "Error(s) in loading state_dict".

(** One parameter of [load_state_dict]: the key must be present and the
    shapes must agree. *)
Definition load_param (d : Dict) (name : string) (old : Tensor) : Res Tensor :=
  match dict_get d name with
  | Some v => if same_shape v old then Ok v else Err load_error
  | None => Err load_error
  end.

(** No key of [d] outside [names] (strict loading). *)
Definition no_unexpected_keys (d : Dict) (names : list string) : bool :=
  forallb (fun k => existsb (String.eqb k) names) (dict_keys d).

(** ** torch.nn layers *)

Definition draw_uniform (g : RNG) (n : nat) (a b : R) : Vec * RNG :=
  (map (fun k => (a + (b - a) * uniform_seq g (uniform_pos g + k))%R) (seq 0 n),
   mkRNG (choice_seq g) (normal_seq g) (uniform_seq g)
         (choice_pos g) (normal_pos g) (uniform_pos g + n)).

Definition draw_uniform_mat (g : RNG) (r c : nat) (a b : R) : Mat * RNG :=
  (mkMat c (map (fun i =>
                   map (fun k => (a + (b - a) * uniform_seq g (uniform_pos g + i * c + k))%R)
                       (seq 0 c))
                (seq 0 r)),
   mkRNG (choice_seq g) (normal_seq g) (uniform_seq g)
         (choice_pos g) (normal_pos g) (uniform_pos g + r * c)).

Record Linear : Type := mkLinear {
  weight : Mat;   (* out_features x in_features *)
  bias : Vec
}.

(** [nn.Linear(in_features, out_features)] with its default initialisation,
    uniform in [-1/sqrt(in_features), 1/sqrt(in_features)]. *)
Definition nn_Linear (g : RNG) (in_features out_features : nat) : Linear * RNG :=
  let bound := if in_features =? 0 then 0%R else (/ sqrt (INR in_features))%R in
  let '(w, g1) := draw_uniform_mat g out_features in_features (- bound) bound in
  let '(b, g2) := draw_uniform g1 out_features (- bound) bound in
  (mkLinear w b, g2).

(** [T.nn.init.uniform_(l.weight.data, -f, f)] then the same for the bias. *)
Definition init_uniform_ (g : RNG) (l : Linear) (f : R) : Linear * RNG :=
  let '(w, g1) := draw_uniform_mat g (nrows (weight l)) (ncols (weight l)) (- f) f in
  let '(b, g2) := draw_uniform g1 (length (bias l)) (- f) f in
  (mkLinear w b, g2).

Definition dot (w x : Vec) : R := vsum (map2 Rmult w x).

Definition Linear_row (l : Linear) (x : Vec) : Vec :=
  map2 (fun w b => (dot w x + b)%R) (rows (weight l)) (bias l).

Definition Linear_forward (l : Linear) (x : Mat) : Res Mat :=
  if (ncols x =? ncols (weight l)) && (length (bias l) =? nrows (weight l))
  then Ok (mkMat (nrows (weight l)) (map (Linear_row l) (rows x)))
  else Err (RuntimeError "mat1 and mat2 shapes cannot be multiplied").

Record LayerNorm : Type := mkLayerNorm {
  normalized_shape : nat;
  ln_eps : R;
  ln_weight : Vec;
  ln_bias : Vec
}.

(** [nn.LayerNorm(n)]: weight ones, bias zeros, eps 1e-5. *)
Definition nn_LayerNorm (n : nat) : LayerNorm :=
  mkLayerNorm n (1 / 100000)%R (repeat 1%R n) (repeat 0%R n).

Definition LayerNorm_row (l : LayerNorm) (x : Vec) : Vec :=
  let n := INR (length x) in
  let mean := (vsum x / n)%R in
  let var := (vsum (map (fun xi => (xi - mean) * (xi - mean))%R x) / n)%R in
  let normed := map (fun xi => ((xi - mean) / sqrt (var + ln_eps l))%R) x in
  map2 Rplus (map2 Rmult normed (ln_weight l)) (ln_bias l).

Definition LayerNorm_forward (l : LayerNorm) (x : Mat) : Res Mat :=
  if (ncols x =? normalized_shape l)
     && (length (ln_weight l) =? normalized_shape l)
     && (length (ln_bias l) =? normalized_shape l)
  then Ok (mkMat (ncols x) (map (LayerNorm_row l) (rows x)))
  else Err (RuntimeError "Given normalized_shape, expected input with matching shape").

Definition F_relu (x : Mat) : Mat := mat_map (Rmax 0) x.
Definition T_tanh (x : Mat) : Mat := mat_map tanh x.

Definition Linear_params (prefix : string) (l : Linear) : Dict :=
  [(prefix ++ ".weight", T2 (weight l)); (prefix ++ ".bias", T1 (bias l))].

Definition LayerNorm_params (prefix : string) (l : LayerNorm) : Dict :=
  [(prefix ++ ".weight", T1 (ln_weight l)); (prefix ++ ".bias", T1 (ln_bias l))].

Definition Linear_load (d : Dict) (prefix : string) (l : Linear) : Res Linear :=
  let* w := load_param d (prefix ++ ".weight") (T2 (weight l)) in
  let* b := load_param d (prefix ++ ".bias") (T1 (bias l)) in
  match w, b with
  | T2 w', T1 b' => Ok (mkLinear w' b')
  | _, _ => Err load_error
  end.

Definition LayerNorm_load (d : Dict) (prefix : string) (l : LayerNorm) : Res LayerNorm :=
  let* w := load_param d (prefix ++ ".weight") (T1 (ln_weight l)) in
  let* b := load_param d (prefix ++ ".bias") (T1 (ln_bias l)) in
  match w, b with
  | T1 w', T1 b' => Ok (mkLayerNorm (normalized_shape l) (ln_eps l) w' b')
  | _, _ => Err load_error
  end.

(** ** The optimizer, part of the torch library

    [Optimizer] is the state of an [optim.Adam] object (what its
    [state_dict()] returns); [optim_Adam lr] is a fresh one. *)

Class TorchOptim : Type := {
  Optimizer : Type;
  optim_Adam : R -> Optimizer
}.

Section Networks.
Context `{TorchOptim}.

(** ** ActorNetwork *)

Record ActorNetwork : Type := mkActor {
  a_fc1 : Linear;
  a_bn1 : LayerNorm;
  a_fc2 : Linear;
  a_bn2 : LayerNorm;
  a_mu : Linear;
  a_optimizer : Optimizer;
  a_training : bool
}.

Definition ActorNetwork_init (g : RNG) (alpha : R)
    (n_inputs fc1_dims fc2_dims n_actions : nat) : ActorNetwork * RNG :=
  let '(fc1, g) := nn_Linear g n_inputs fc1_dims in
  let f1 := (1 / sqrt (INR (nrows (weight fc1))))%R in
  let '(fc1, g) := init_uniform_ g fc1 f1 in
  let bn1 := nn_LayerNorm fc1_dims in
  let '(fc2, g) := nn_Linear g fc1_dims fc2_dims in
  let f2 := (1 / sqrt (INR (nrows (weight fc2))))%R in
  let '(fc2, g) := init_uniform_ g fc2 f2 in
  let bn2 := nn_LayerNorm fc2_dims in
  let f3 := (3 / 1000)%R in
  let '(mu, g) := nn_Linear g fc2_dims n_actions in
  let '(mu, g) := init_uniform_ g mu f3 in
  (mkActor fc1 bn1 fc2 bn2 mu (optim_Adam alpha) true, g).

Definition ActorNetwork_forward (self : ActorNetwork) (state : Mat) : Res Mat :=
  let* x := Linear_forward (a_fc1 self) state in
  let* x := LayerNorm_forward (a_bn1 self) x in
  let x := F_relu x in
  let* x := Linear_forward (a_fc2 self) x in
  let* x := LayerNorm_forward (a_bn2 self) x in
  let x := F_relu x in
  let* x := Linear_forward (a_mu self) x in
  Ok (T_tanh x).

(** [forward] on a 1-D observation. *)
Definition ActorNetwork_forward_1d (self : ActorNetwork) (obs : Vec) : Res Vec :=
  let* m := ActorNetwork_forward self (row_mat obs) in
  Ok (hd [] (rows m)).

Definition ActorNetwork_set_training (self : ActorNetwork) (b : bool) : ActorNetwork :=
  mkActor (a_fc1 self) (a_bn1 self) (a_fc2 self) (a_bn2 self) (a_mu self)
          (a_optimizer self) b.

Definition ActorNetwork_set_optimizer (self : ActorNetwork) (o : Optimizer) : ActorNetwork :=
  mkActor (a_fc1 self) (a_bn1 self) (a_fc2 self) (a_bn2 self) (a_mu self)
          o (a_training self).

(** [named_parameters()], which is also [state_dict()]: the layers have
    no buffers. *)
Definition ActorNetwork_named_parameters (self : ActorNetwork) : Dict :=
  (Linear_params "fc1" (a_fc1 self) ++ LayerNorm_params "bn1" (a_bn1 self) ++
   Linear_params "fc2" (a_fc2 self) ++ LayerNorm_params "bn2" (a_bn2 self) ++
   Linear_params "mu" (a_mu self))%list.

Definition ActorNetwork_load_state_dict (self : ActorNetwork) (d : Dict)
    : Res ActorNetwork :=
  if no_unexpected_keys d (dict_keys (ActorNetwork_named_parameters self)) then
    let* fc1 := Linear_load d "fc1" (a_fc1 self) in
    let* bn1 := LayerNorm_load d "bn1" (a_bn1 self) in
    let* fc2 := Linear_load d "fc2" (a_fc2 self) in
    let* bn2 := LayerNorm_load d "bn2" (a_bn2 self) in
    let* mu := Linear_load d "mu" (a_mu self) in
    Ok (mkActor fc1 bn1 fc2 bn2 mu (a_optimizer self) (a_training self))
  else Err load_error.

(** ** CriticNetwork *)

Record CriticNetwork : Type := mkCritic {
  c_fc1 : Linear;
  c_bn1 : LayerNorm;
  c_fc2 : Linear;
  c_bn2 : LayerNorm;
  c_action_value : Linear;
  c_q : Linear;
  c_optimizer : Optimizer;
  c_training : bool
}.

Definition CriticNetwork_init (g : RNG) (beta : R)
    (n_inputs fc1_dims fc2_dims action_shape : nat) : CriticNetwork * RNG :=
  let '(fc1, g) := nn_Linear g n_inputs fc1_dims in
  let f1 := (1 / sqrt (INR (nrows (weight fc1))))%R in
  let '(fc1, g) := init_uniform_ g fc1 f1 in
  let bn1 := nn_LayerNorm fc1_dims in
  let '(fc2, g) := nn_Linear g fc1_dims fc2_dims in
  let f2 := (1 / sqrt (INR (nrows (weight fc2))))%R in
  let '(fc2, g) := init_uniform_ g fc2 f2 in
  let bn2 := nn_LayerNorm fc2_dims in
  let '(action_value, g) := nn_Linear g action_shape fc2_dims in
  let f3 := (3 / 1000)%R in
  let '(q, g) := nn_Linear g fc2_dims 1 in
  let '(q, g) := init_uniform_ g q f3 in
  (mkCritic fc1 bn1 fc2 bn2 action_value q (optim_Adam beta) true, g).

Definition CriticNetwork_forward (self : CriticNetwork) (state action : Mat)
    : Res Mat :=
  let* state_value := Linear_forward (c_fc1 self) state in
  let* state_value := LayerNorm_forward (c_bn1 self) state_value in
  let state_value := F_relu state_value in
  let* state_value := Linear_forward (c_fc2 self) state_value in
  let* state_value := LayerNorm_forward (c_bn2 self) state_value in
  let* action_value := Linear_forward (c_action_value self) action in
  let action_value := F_relu action_value in
  let* sum := T_add state_value action_value in
  let state_action_value := F_relu sum in
  Linear_forward (c_q self) state_action_value.

Definition CriticNetwork_set_training (self : CriticNetwork) (b : bool) : CriticNetwork :=
  mkCritic (c_fc1 self) (c_bn1 self) (c_fc2 self) (c_bn2 self)
           (c_action_value self) (c_q self) (c_optimizer self) b.

Definition CriticNetwork_set_optimizer (self : CriticNetwork) (o : Optimizer) : CriticNetwork :=
  mkCritic (c_fc1 self) (c_bn1 self) (c_fc2 self) (c_bn2 self)
           (c_action_value self) (c_q self) o (c_training self).

Definition CriticNetwork_named_parameters (self : CriticNetwork) : Dict :=
  (Linear_params "fc1" (c_fc1 self) ++ LayerNorm_params "bn1" (c_bn1 self) ++
   Linear_params "fc2" (c_fc2 self) ++ LayerNorm_params "bn2" (c_bn2 self) ++
   Linear_params "action_value" (c_action_value self) ++
   Linear_params "q" (c_q self))%list.

Definition CriticNetwork_load_state_dict (self : CriticNetwork) (d : Dict)
    : Res CriticNetwork :=
  if no_unexpected_keys d (dict_keys (CriticNetwork_named_parameters self)) then
    let* fc1 := Linear_load d "fc1" (c_fc1 self) in
    let* bn1 := LayerNorm_load d "bn1" (c_bn1 self) in
    let* fc2 := Linear_load d "fc2" (c_fc2 self) in
    let* bn2 := LayerNorm_load d "bn2" (c_bn2 self) in
    let* av := Linear_load d "action_value" (c_action_value self) in
    let* q := Linear_load d "q" (c_q self) in
    Ok (mkCritic fc1 bn1 fc2 bn2 av q (c_optimizer self) (c_training self))
  else Err load_error.

(** ** Autograd and the optimizer step, part of the torch library

    [critic_optimizer_step c input action target] is the critic after
    [c.optimizer.zero_grad()], [F.mse_loss(target, c.forward(input,
    action)).backward()] and [c.optimizer.step()];
    [actor_optimizer_step a c input obs] is the actor after
    [a.optimizer.zero_grad()], the backward pass of
    [T.mean(-c.forward(input, a.forward(obs)))] and [a.optimizer.step()].
    The gradients that these backward passes leave on other networks are
    never read and are not part of the model. *)

Class Autograd : Type := {
  critic_optimizer_step : CriticNetwork -> Mat -> Mat -> Mat -> CriticNetwork;
  actor_optimizer_step : ActorNetwork -> CriticNetwork -> Mat -> Mat -> ActorNetwork;
  (* mean of the l2 means and maximum of the maxima of the critic's
     gradients after the backward pass of the critic loss *)
  critic_grad_norms : CriticNetwork -> Mat -> Mat -> Mat -> R * R
}.

End Networks.

(** ** Agents *)

(** [gym.spaces.Box] with a 1-D shape. *)
Record Box : Type := mkBox {
  box_shape : nat;
  low : Vec;
  high : Vec
}.

(** The keyword arguments of the constructors, kept as [init_dict];
    [Agent_Single] has no [other_*] entries. *)
Record InitDict : Type := mkInitDict {
  i_lr_actor : R;
  i_lr_critic : R;
  i_own_input_shape : nat;
  i_action_space : Box;
  i_tau : R;
  i_other_input_shapes : option (list nat);
  i_other_actions_shapes : option (list nat);
  i_gamma : R;
  i_max_size : nat;
  i_layer1_size : nat;
  i_layer2_size : nat;
  i_batch_size : nat;
  i_noise_sigma : R;
  i_noise_theta : R
}.

(** An entry of the tensorboard writer: tag, value, global step. *)
Definition Scalar : Type := (string * R * nat)%type.

Section Agents.
Context `{AG : Autograd}.

Record Agent : Type := mkAgent {
  init_dict : InitDict;
  noise_sigma : R;
  noise_theta : R;
  calculate_grad_norms : bool;
  agent_type : string;
  action_space : Box;
  scale : Vec;
  shift : Vec;
  gamma : R;
  tau : R;
  memory : ReplayBuffer.t;
  batch_size : nat;
  actor : ActorNetwork;
  critic : CriticNetwork;
  target_actor : ActorNetwork;
  target_critic : CriticNetwork;
  noise : OUActionNoise.t;
  writer : list Scalar;
  global_step : nat;
  episode_counter : nat
}.

Definition set_memory (a : Agent) (m : ReplayBuffer.t) : Agent :=
  mkAgent (init_dict a) (noise_sigma a) (noise_theta a) (calculate_grad_norms a)
    (agent_type a) (action_space a) (scale a) (shift a) (gamma a) (tau a)
    m (batch_size a) (actor a) (critic a) (target_actor a) (target_critic a)
    (noise a) (writer a) (global_step a) (episode_counter a).

Definition set_actor (a : Agent) (x : ActorNetwork) : Agent :=
  mkAgent (init_dict a) (noise_sigma a) (noise_theta a) (calculate_grad_norms a)
    (agent_type a) (action_space a) (scale a) (shift a) (gamma a) (tau a)
    (memory a) (batch_size a) x (critic a) (target_actor a) (target_critic a)
    (noise a) (writer a) (global_step a) (episode_counter a).

Definition set_critic (a : Agent) (x : CriticNetwork) : Agent :=
  mkAgent (init_dict a) (noise_sigma a) (noise_theta a) (calculate_grad_norms a)
    (agent_type a) (action_space a) (scale a) (shift a) (gamma a) (tau a)
    (memory a) (batch_size a) (actor a) x (target_actor a) (target_critic a)
    (noise a) (writer a) (global_step a) (episode_counter a).

Definition set_target_actor (a : Agent) (x : ActorNetwork) : Agent :=
  mkAgent (init_dict a) (noise_sigma a) (noise_theta a) (calculate_grad_norms a)
    (agent_type a) (action_space a) (scale a) (shift a) (gamma a) (tau a)
    (memory a) (batch_size a) (actor a) (critic a) x (target_critic a)
    (noise a) (writer a) (global_step a) (episode_counter a).

Definition set_target_critic (a : Agent) (x : CriticNetwork) : Agent :=
  mkAgent (init_dict a) (noise_sigma a) (noise_theta a) (calculate_grad_norms a)
    (agent_type a) (action_space a) (scale a) (shift a) (gamma a) (tau a)
    (memory a) (batch_size a) (actor a) (critic a) (target_actor a) x
    (noise a) (writer a) (global_step a) (episode_counter a).

Definition set_noise (a : Agent) (x : OUActionNoise.t) : Agent :=
  mkAgent (init_dict a) (noise_sigma a) (noise_theta a) (calculate_grad_norms a)
    (agent_type a) (action_space a) (scale a) (shift a) (gamma a) (tau a)
    (memory a) (batch_size a) (actor a) (critic a) (target_actor a) (target_critic a)
    x (writer a) (global_step a) (episode_counter a).

Definition set_counters (a : Agent) (gs ec : nat) : Agent :=
  mkAgent (init_dict a) (noise_sigma a) (noise_theta a) (calculate_grad_norms a)
    (agent_type a) (action_space a) (scale a) (shift a) (gamma a) (tau a)
    (memory a) (batch_size a) (actor a) (critic a) (target_actor a) (target_critic a)
    (noise a) (writer a) gs ec.

(** [self.writer.add_scalar(tag, value, global_step=self.global_step)] *)
Definition add_scalar (a : Agent) (tag : string) (value : R) : Agent :=
  mkAgent (init_dict a) (noise_sigma a) (noise_theta a) (calculate_grad_norms a)
    (agent_type a) (action_space a) (scale a) (shift a) (gamma a) (tau a)
    (memory a) (batch_size a) (actor a) (critic a) (target_actor a) (target_critic a)
    (noise a) (writer a ++ [(tag, value, global_step a)])%list
    (global_step a) (episode_counter a).

(** *** _update_network_parameters *)

(** The loop [for name in d: d[name] = tau*d[name].clone() +
    (1-tau)*target_dict[name].clone()], over the keys of [d] in order. *)
Definition blend (tau : R) (online target : Tensor) : Res Tensor :=
  tensor_add (tensor_scale tau online) (tensor_scale (1 - tau) target).

Definition blend_dict (tau : R) (d target_dict : Dict) : Res Dict :=
  mapM (fun '(name, p) =>
          let* t := dict_item target_dict name in
          let* b := blend tau p t in
          Ok (name, b)) d.

Definition _update_network_parameters (self : Agent) (tau_arg : option R)
    : Res Agent :=
  let tau := match tau_arg with Some t => t | None => tau self end in
  let critic_state_dict := CriticNetwork_named_parameters (critic self) in
  let actor_state_dict := ActorNetwork_named_parameters (actor self) in
  let target_critic_dict := CriticNetwork_named_parameters (target_critic self) in
  let target_actor_dict := ActorNetwork_named_parameters (target_actor self) in
  let* critic_state_dict := blend_dict tau critic_state_dict target_critic_dict in
  let* tc := CriticNetwork_load_state_dict (target_critic self) critic_state_dict in
  let self := set_target_critic self tc in
  let* actor_state_dict := blend_dict tau actor_state_dict target_actor_dict in
  let* ta := ActorNetwork_load_state_dict (target_actor self) actor_state_dict in
  Ok (set_target_actor self ta).

(** *** Constructors

    Left out: the writer's file name, the prints and, for [Agent_Single],
    the checkpoint directory that is created on disk. *)

Definition half (v : Vec) : Vec := map (fun x => (x / 2)%R) v.

Definition list_sum_nat (l : list nat) : nat := fold_right Nat.add 0 l.

Definition Agent_Multi_init (g : RNG) (lr_actor lr_critic : R)
    (own_input_shape : nat) (action_space : Box) (tau : R)
    (other_input_shapes other_actions_shapes : list nat)
    (gamma : R) (max_size layer1_size layer2_size batch_size : nat)
    (noise_sigma noise_theta : R) : Res (Agent * RNG) :=
  let init_dict := mkInitDict lr_actor lr_critic own_input_shape action_space tau
      (Some other_input_shapes) (Some other_actions_shapes) gamma max_size
      layer1_size layer2_size batch_size noise_sigma noise_theta in
  let agent_type :=
    if decide (other_input_shapes = [0]) then "DDPD" else "MADDPG" in
  let* d := np_sub (high action_space) (low action_space) in
  let scale := half d in
  let* s := np_add (high action_space) (low action_space) in
  let shift := half s in
  let memory := ReplayBuffer.init max_size own_input_shape (box_shape action_space) in
  let n_critic := own_input_shape + list_sum_nat other_input_shapes
                  + list_sum_nat other_actions_shapes in
  let '(actor, g) := ActorNetwork_init g lr_actor own_input_shape layer1_size
                       layer2_size (box_shape action_space) in
  let '(critic, g) := CriticNetwork_init g lr_critic n_critic layer1_size
                        layer2_size (box_shape action_space) in
  let '(target_actor, g) := ActorNetwork_init g lr_actor own_input_shape layer1_size
                              layer2_size (box_shape action_space) in
  let '(target_critic, g) := CriticNetwork_init g lr_critic n_critic layer1_size
                               layer2_size (box_shape action_space) in
  let noise := OUActionNoise.init (np_zeros (box_shape action_space))
                 noise_sigma noise_theta (1 / 5)%R None in
  let self := mkAgent init_dict noise_sigma noise_theta false agent_type
                action_space scale shift gamma tau memory batch_size
                actor critic target_actor target_critic noise [] 0 0 in
  let* self := _update_network_parameters self (Some 1%R) in
  Ok (self, g).

Definition Agent_Single_init (g : RNG) (lr_actor lr_critic : R)
    (own_input_shape : nat) (action_space : Box) (tau : R)
    (gamma : R) (max_size layer1_size layer2_size batch_size : nat)
    (noise_sigma noise_theta : R) : Res (Agent * RNG) :=
  let init_dict := mkInitDict lr_actor lr_critic own_input_shape action_space tau
      None None gamma max_size
      layer1_size layer2_size batch_size noise_sigma noise_theta in
  let* d := np_sub (high action_space) (low action_space) in
  let scale := half d in
  let* s := np_add (high action_space) (low action_space) in
  let shift := half s in
  let memory := ReplayBuffer.init max_size own_input_shape (box_shape action_space) in
  let '(actor, g) := ActorNetwork_init g lr_actor own_input_shape layer1_size
                       layer2_size (box_shape action_space) in
  let '(critic, g) := CriticNetwork_init g lr_critic own_input_shape layer1_size
                        layer2_size (box_shape action_space) in
  let '(target_actor, g) := ActorNetwork_init g lr_actor own_input_shape layer1_size
                              layer2_size (box_shape action_space) in
  let '(target_critic, g) := CriticNetwork_init g lr_critic own_input_shape layer1_size
                               layer2_size (box_shape action_space) in
  let noise := OUActionNoise.init (np_zeros (box_shape action_space))
                 noise_sigma noise_theta (1 / 5)%R None in
  let self := mkAgent init_dict noise_sigma noise_theta false "DDPD"
                action_space scale shift gamma tau memory batch_size
                actor critic target_actor target_critic noise [] 0 0 in
  let* self := _update_network_parameters self (Some 1%R) in
  Ok (self, g).

(** *** choose_action and remember *)

Definition choose_action (self : Agent) (g : RNG) (observation : Vec)
    (add_exploration_noise : bool) : Res (Vec * Agent * RNG) :=
  let self := set_actor self (ActorNetwork_set_training (actor self) false) in
  let* mu := ActorNetwork_forward_1d (actor self) observation in
  let self := set_actor self (ActorNetwork_set_training (actor self) true) in
  let mu_np := mu in
  let* (mu_np, self, g) :=
    if add_exploration_noise then
      let* (n, noise', g') := OUActionNoise.call (noise self) g in
      let self := set_noise self noise' in
      let* r := np_add mu_np n in
      Ok (r, self, g')
    else Ok (mu_np, self, g) in
  let* scaled := np_mul mu_np (scale self) in
  let* mu_np := np_add scaled (shift self) in
  Ok (mu_np, self, g).

Definition remember (self : Agent) (obs action : Vec) (reward : R)
    (new_obs : Vec) (done : bool) : Res Agent :=
  let self := add_scalar self "reward" reward in
  let* m := ReplayBuffer.store_transition (memory self) obs action reward new_obs done in
  let self := set_memory self m in
  let ec := if done then episode_counter self + 1 else episode_counter self in
  Ok (set_counters self (global_step self + 1) ec).

(** *** learn *)

(** [reward.view(batch_size, 1) + gamma * target_critic_next_value *
    done.view(batch_size, 1)]; [bootstrap] is its second summand. *)
Definition bootstrap (batch_size : nat) (gamma : R)
    (target_critic_next_value : Mat) (done : Vec) : Res Mat :=
  let gq := mat_map (Rmult gamma) target_critic_next_value in
  let* d := view_col done batch_size in
  T_mul gq d.

Definition td_target (batch_size : nat) (gamma : R) (reward : Vec)
    (target_critic_next_value : Mat) (done : Vec) : Res Mat :=
  let* r := view_col reward batch_size in
  let* b := bootstrap batch_size gamma target_critic_next_value done in
  T_add r b.

(** [F.mse_loss(input, target)] *)
Definition F_mse_loss (input target : Mat) : Res R :=
  let* d := T_sub input target in
  Ok (T_mean (mat_map (fun x => (x * x)%R) d)).

(** The part common to both [learn] methods, from the critic loss to the
    soft update; [input_value_fn] and [own_actual_action] feed the critic,
    [own_obs] feeds the actor. *)
Definition update_networks (self : Agent) (target_value critic_value : Mat)
    (input_value_fn own_actual_action own_obs : Mat) : Res Agent :=
  let self := set_critic self (CriticNetwork_set_training (critic self) true) in
  let* critic_loss := F_mse_loss target_value critic_value in
  let self := add_scalar self "critic_loss" critic_loss in
  let self :=
    if calculate_grad_norms self then
      let '(grad_means, grad_max) :=
        critic_grad_norms (critic self) input_value_fn own_actual_action target_value in
      add_scalar (add_scalar self "critic grad_l2" grad_means)
                 "critic grad_max" grad_max
    else self in
  let self := set_critic self
      (critic_optimizer_step (critic self) input_value_fn own_actual_action target_value) in
  let self := set_critic self (CriticNetwork_set_training (critic self) false) in
  let* mu := ActorNetwork_forward (actor self) own_obs in
  let self := set_actor self (ActorNetwork_set_training (actor self) true) in
  let* q := CriticNetwork_forward (critic self) input_value_fn mu in
  let actor_performance := T_mean (mat_map Ropp q) in
  let self := add_scalar self "actor_performance" (- actor_performance)%R in
  let self := set_actor self
      (actor_optimizer_step (actor self) (critic self) input_value_fn own_obs) in
  _update_network_parameters self None.

(** [target_actor.eval(); target_critic.eval(); critic.eval()] *)
Definition eval_mode (a : Agent) : Agent :=
  let a := set_target_actor a (ActorNetwork_set_training (target_actor a) false) in
  let a := set_target_critic a (CriticNetwork_set_training (target_critic a) false) in
  set_critic a (CriticNetwork_set_training (critic a) false).

(** The TD target and the critic value of [Agent_Single.learn] for the
    sampled transitions [s]. *)
Definition single_values (self : Agent) (s : ReplayBuffer.samples)
    : Res (Mat * Mat) :=
  let reward := ReplayBuffer.s_rewards s in
  let done := ReplayBuffer.s_terminal s in
  let new_state := ReplayBuffer.s_obs_next s in
  let actual_action := ReplayBuffer.s_actions s in
  let state := ReplayBuffer.s_obs s in
  let* target_next_actions := ActorNetwork_forward (target_actor self) new_state in
  let* target_critic_next_value :=
    CriticNetwork_forward (target_critic self) new_state target_next_actions in
  let* critic_value := CriticNetwork_forward (critic self) state actual_action in
  let* target_value :=
    td_target (batch_size self) (gamma self) reward target_critic_next_value done in
  Ok (target_value, critic_value).

(** [Agent_Single.learn(agents_list, own_idx)]; both arguments are unused. *)
Definition Agent_Single_learn (self : Agent) (g : RNG) : Res (Agent * RNG) :=
  if ReplayBuffer.mem_cntr (memory self) <? batch_size self then Ok (self, g)
  else
    let* (batch_idxs, g) :=
      ReplayBuffer.get_batch_idxs (memory self) g (batch_size self) in
    let* s := ReplayBuffer.get_samples_from_buffer (memory self) batch_idxs in
    let self := eval_mode self in
    let* (target_value, critic_value) := single_values self s in
    let* self := update_networks self target_value critic_value
                   (ReplayBuffer.s_obs s) (ReplayBuffer.s_actions s)
                   (ReplayBuffer.s_obs s) in
    Ok (self, g).

(** The agents are objects shared between the caller's [agents_list] and
    [self]: a heap maps addresses to agents. *)
Definition Heap : Type := nat -> Agent.

Definition heap_set (h : Heap) (a : nat) (x : Agent) : Heap :=
  fun b => if b =? a then x else h b.

(** [for ag in agents_list: ag.agent.target_actor.eval(); ...] *)
Definition eval_mode_all (h : Heap) (agents_list : list nat) : Heap :=
  fold_left (fun h a => heap_set h a (eval_mode (h a))) agents_list h.

(** What [Agent_Multi.learn] has computed when it reaches the
    concatenation of the joint next state with the other agents' target
    actions: the batches of all agents, the joint states, the own target
    action and [T.cat(target_next_action_n)] of the others. *)
Record MultiInputs : Type := mkMultiInputs {
  mi_rwd_n_t : list Vec;
  mi_done_n_t : list Vec;
  mi_actual_action_n_t : list Mat;
  mi_obs_n_t : list Mat;
  mi_state_t : Mat;
  mi_new_state_t : Mat;
  mi_own_next_action : Mat;
  mi_others_next_action : Mat
}.

Definition multi_inputs (h : Heap) (agents_list : list nat) (own_idx : nat)
    (batch_idxs : list nat) : Res (MultiInputs * Heap) :=
  let* samples_n :=
    mapM (fun a => ReplayBuffer.get_samples_from_buffer (memory (h a)) batch_idxs)
         agents_list in
  match samples_n with
  | [] => Err (ValueError "not enough values to unpack (expected 5, got 0)")
  | _ =>
    let rwd_n_t := map ReplayBuffer.s_rewards samples_n in
    let done_n_t := map ReplayBuffer.s_terminal samples_n in
    let new_obs_n_t := map ReplayBuffer.s_obs_next samples_n in
    let actual_action_n_t := map ReplayBuffer.s_actions samples_n in
    let obs_n_t := map ReplayBuffer.s_obs samples_n in
    let* state_t := T_cat1 obs_n_t in
    let* new_state_t := T_cat1 new_obs_n_t in
    let h := eval_mode_all h agents_list in
    let* target_next_action_n :=
      mapM (fun '(a, new_obs) => ActorNetwork_forward (target_actor (h a)) new_obs)
           (combine agents_list new_obs_n_t) in
    let* (own_next_action, target_next_action_n) :=
      py_pop target_next_action_n own_idx in
    let* others := T_cat0 target_next_action_n in
    Ok (mkMultiInputs rwd_n_t done_n_t actual_action_n_t obs_n_t state_t
          new_state_t own_next_action others, h)
  end.

(** The TD target of [Agent_Multi.learn] for the sampled indices. *)
Definition multi_target_value (h : Heap) (self : nat) (agents_list : list nat)
    (own_idx : nat) (batch_idxs : list nat) : Res (MultiInputs * Mat * Heap) :=
  let* (mi, h) := multi_inputs h agents_list own_idx batch_idxs in
  let* input_target_value_fn :=
    T_cat1 [mi_new_state_t mi; mi_others_next_action mi] in
  let* target_critic_next_value :=
    CriticNetwork_forward (target_critic (h self)) input_target_value_fn
                          (mi_own_next_action mi) in
  let* rwd := py_index (mi_rwd_n_t mi) own_idx in
  let* done := py_index (mi_done_n_t mi) own_idx in
  let* target_value :=
    td_target (batch_size (h self)) (gamma (h self)) rwd
              target_critic_next_value done in
  Ok (mi, target_value, h).

(** [Agent_Multi.learn(agents_list, own_idx)] for the agent at [self]. *)
Definition Agent_Multi_learn (h : Heap) (g : RNG) (self : nat)
    (agents_list : list nat) (own_idx : nat) : Res (Heap * RNG) :=
  if ReplayBuffer.mem_cntr (memory (h self)) <? batch_size (h self) then Ok (h, g)
  else
    let* (batch_idxs, g) :=
      ReplayBuffer.get_batch_idxs (memory (h self)) g (batch_size (h self)) in
    let* (mi, target_value, h) :=
      multi_target_value h self agents_list own_idx batch_idxs in
    let* (own_actual_action, actual_action_n_t) :=
      py_pop (mi_actual_action_n_t mi) own_idx in
    let* others := T_cat0 actual_action_n_t in
    let* input_value_fn := T_cat1 [mi_state_t mi; others] in
    let* critic_value :=
      CriticNetwork_forward (critic (h self)) input_value_fn own_actual_action in
    let* own_obs := py_index (mi_obs_n_t mi) own_idx in
    let* me := update_networks (h self) target_value critic_value
                 input_value_fn own_actual_action own_obs in
    Ok (heap_set h self me, g).

(** *** save_models and init_from_save *)

Inductive CkValue : Type :=
| CkInit (d : InitDict)
| CkParams (d : Dict)
| CkOptim (o : Optimizer).

Definition Checkpoint : Type := list (string * CkValue).

(** Files written by [T.save], by name. *)
Definition FileSystem : Type := list (string * Checkpoint).

(** [T.save(obj, f)]: [f] is a required positional argument; [None]
    stands for a call that does not pass it. *)
Definition T_save (fs : FileSystem) (obj : Checkpoint) (f : option string)
    : Res FileSystem :=
  match f with
  | Some name => Ok ((name, obj) :: fs)
  | None => Err (TypeError "save() missing 1 required positional argument: 'f'")
  end.

Definition T_load (fs : FileSystem) (f : string) : Res Checkpoint :=
  match List.find (fun '(n, _) => String.eqb n f) fs with
  | Some (_, c) => Ok c
  | None => Err (FileNotFoundError f)
  end.

Definition agent_networks_state_dict (self : Agent) : Checkpoint :=
  [("init_dict", CkInit (init_dict self));
   ("actor", CkParams (ActorNetwork_named_parameters (actor self)));
   ("critic", CkParams (CriticNetwork_named_parameters (critic self)));
   ("target_actor", CkParams (ActorNetwork_named_parameters (target_actor self)));
   ("target_critic", CkParams (CriticNetwork_named_parameters (target_critic self)));
   ("actor_optimizer", CkOptim (a_optimizer (actor self)));
   ("critic_optimizer", CkOptim (c_optimizer (critic self)))].

(** [save_models(filename)]: the call is [T.save(agent_networks_state_dict)],
    without the file name. *)
Definition save_models (self : Agent) (fs : FileSystem) (filename : string)
    : Res FileSystem :=
  T_save fs (agent_networks_state_dict self) None.

(** The names bound at module level: the imports and the classes. *)
Definition module_globals : list string :=
  ["os"; "Path"; "Box"; "T"; "nn"; "F"; "optim"; "np"; "SummaryWriter";
   "OUActionNoise"; "ReplayBuffer"; "CriticNetwork"; "ActorNetwork";
   "Agent_Multi"; "Agent_Single"].

Definition global_name (name : string) : Res unit :=
  if existsb (String.eqb name) module_globals then Ok tt
  else Err (NameError name).

Fixpoint ck_get (c : Checkpoint) (k : string) : Res CkValue :=
  match c with
  | [] => Err (KeyError k)
  | (k', v) :: c' => if String.eqb k' k then Ok v else ck_get c' k
  end.

Definition ck_params (c : Checkpoint) (k : string) : Res Dict :=
  let* v := ck_get c k in
  match v with
  | CkParams d => Ok d
  | _ => Err (TypeError "expected a state dict")
  end.

Definition ck_optim (c : Checkpoint) (k : string) : Res Optimizer :=
  let* v := ck_get c k in
  match v with
  | CkOptim o => Ok o
  | _ => Err (TypeError "expected an optimizer state dict")
  end.

(** [cls] called with the entries of [init_dict] as keyword arguments,
    for [cls = Agent_Multi]. *)
Definition Agent_Multi_of_init_dict (g : RNG) (d : InitDict) : Res (Agent * RNG) :=
  match i_other_input_shapes d, i_other_actions_shapes d with
  | Some ois, Some oas =>
      Agent_Multi_init g (i_lr_actor d) (i_lr_critic d) (i_own_input_shape d)
        (i_action_space d) (i_tau d) ois oas (i_gamma d) (i_max_size d)
        (i_layer1_size d) (i_layer2_size d) (i_batch_size d)
        (i_noise_sigma d) (i_noise_theta d)
  | None, None =>
      Agent_Multi_init g (i_lr_actor d) (i_lr_critic d) (i_own_input_shape d)
        (i_action_space d) (i_tau d) [0] [0] (i_gamma d) (i_max_size d)
        (i_layer1_size d) (i_layer2_size d) (i_batch_size d)
        (i_noise_sigma d) (i_noise_theta d)
  | _, _ => Err (TypeError "unexpected keyword arguments")
  end.

(** [init_from_save(filename)] on [Agent_Multi]: its first statement
    reads the global [torch], while the module imports torch as [T]. *)
Definition init_from_save (fs : FileSystem) (g : RNG) (filename : string)
    : Res (Agent * RNG) :=
  let* _ := global_name "torch" in
  let* save_dict := T_load fs filename in
  let* v := ck_get save_dict "init_dict" in
  match v with
  | CkInit d =>
      let* (instance, g) := Agent_Multi_of_init_dict g d in
      let* a := ck_params save_dict "actor" in
      let* actor' := ActorNetwork_load_state_dict (actor instance) a in
      let instance := set_actor instance actor' in
      let* c := ck_params save_dict "critic" in
      let* critic' := CriticNetwork_load_state_dict (critic instance) c in
      let instance := set_critic instance critic' in
      let* ta := ck_params save_dict "target_actor" in
      let* ta' := ActorNetwork_load_state_dict (target_actor instance) ta in
      let instance := set_target_actor instance ta' in
      let* tc := ck_params save_dict "target_critic" in
      let* tc' := CriticNetwork_load_state_dict (target_critic instance) tc in
      let instance := set_target_critic instance tc' in
      let* ao := ck_optim save_dict "actor_optimizer" in
      let instance := set_actor instance (ActorNetwork_set_optimizer (actor instance) ao) in
      let* co := ck_optim save_dict "critic_optimizer" in
      let instance := set_critic instance (CriticNetwork_set_optimizer (critic instance) co) in
      Ok (instance, g)
  | _ => Err (TypeError "argument after ** must be a mapping")
  end.

End Agents.

(** * Vocabulary of the statements *)

(** A generator whose draws are all zero. *)
Definition rng0 : RNG := mkRNG (fun _ => 0) (fun _ => 0%R) (fun _ => 0%R) 0 0 0.

(** ** Noise *)

(** The value [reset] gives to [x_prev]. *)
Definition ou_start (self : OUActionNoise.t) : Vec :=
  match OUActionNoise.x0 self with
  | Some v => v
  | None => np_zeros_like (OUActionNoise.mu self)
  end.

(** [start + theta * (mu - start) * dt], componentwise. *)
Definition ou_mean_step (theta dt : R) (mu start : Vec) : Vec :=
  map2 (fun m s => (s + theta * (m - s) * dt)%R) mu start.

(** [mu + theta * (mu - start) * dt], componentwise. *)
Definition ou_mean_step_from_mu (theta dt : R) (mu start : Vec) : Vec :=
  map2 (fun m s => (m + theta * (m - s) * dt)%R) mu start.

Definition ou_example : OUActionNoise.t :=
  OUActionNoise.mk (1 / 5) [0%R] 0 (1 / 5) (Some [1%R]) [].

(** ** Replay buffer *)

Record Transition : Type := mkTransition {
  t_obs : Vec;
  t_action : Vec;
  t_reward : R;
  t_obs_next : Vec;
  t_done : bool
}.

Definition store (b : ReplayBuffer.t) (tr : Transition) : Res ReplayBuffer.t :=
  ReplayBuffer.store_transition b (t_obs tr) (t_action tr) (t_reward tr)
    (t_obs_next tr) (t_done tr).

(** A sequence of [store_transition] calls. *)
Fixpoint store_all (b : ReplayBuffer.t) (trs : list Transition) : Res ReplayBuffer.t :=
  match trs with
  | [] => Ok b
  | tr :: trs' => let* b' := store b tr in store_all b' trs'
  end.

(** The five fields held at slot [i]. *)
Definition slot (b : ReplayBuffer.t) (i : nat) : option (Vec * Vec * R * Vec * R) :=
  match rows (ReplayBuffer.obs_memory b) !! i,
        rows (ReplayBuffer.action_memory b) !! i,
        ReplayBuffer.reward_memory b !! i,
        rows (ReplayBuffer.obs_next_memory b) !! i,
        ReplayBuffer.terminal_memory b !! i with
  | Some o, Some a, Some r, Some o', Some m => Some (o, a, r, o', m)
  | _, _, _, _, _ => None
  end.

(** A transition as the buffer holds it: the terminal flag becomes the
    continuation mask. *)
Definition stored (tr : Transition) : Vec * Vec * R * Vec * R :=
  (t_obs tr, t_action tr, t_reward tr, t_obs_next tr,
   if t_done tr then 0%R else 1%R).

(** The five arrays have [mem_size] entries and [mem_size] is positive. *)
Definition buffer_wf (b : ReplayBuffer.t) : Prop :=
  0 < ReplayBuffer.mem_size b /\
  nrows (ReplayBuffer.obs_memory b) = ReplayBuffer.mem_size b /\
  nrows (ReplayBuffer.obs_next_memory b) = ReplayBuffer.mem_size b /\
  nrows (ReplayBuffer.action_memory b) = ReplayBuffer.mem_size b /\
  length (ReplayBuffer.reward_memory b) = ReplayBuffer.mem_size b /\
  length (ReplayBuffer.terminal_memory b) = ReplayBuffer.mem_size b.

(** The transition has the observation and action sizes of the buffer. *)
Definition fits (b : ReplayBuffer.t) (tr : Transition) : Prop :=
  length (t_obs tr) = ncols (ReplayBuffer.obs_memory b) /\
  length (t_obs_next tr) = ncols (ReplayBuffer.obs_next_memory b) /\
  length (t_action tr) = ncols (ReplayBuffer.action_memory b).

(** Three transitions for a buffer of capacity 2; the last one is terminal. *)
Definition c2_transitions : list Transition :=
  [mkTransition [1%R] [0%R] 1 [2%R] false;
   mkTransition [2%R] [0%R] 2 [3%R] false;
   mkTransition [3%R] [0%R] 3 [4%R] true].

(** ** Soft update *)

(** The blend of one scalar component. *)
Definition blend_scalar (tau online target : R) : R :=
  (tau * online + (1 - tau) * target)%R.

(** All entries of a tensor, row by row. *)
Definition tensor_entries (t : Tensor) : list R :=
  match t with
  | T1 v => v
  | T2 m => concat (rows m)
  end.

(** Every row of a 2-D tensor has [ncols] entries. *)
Definition mat_wf (m : Mat) : Prop :=
  Forall (fun r => length r = ncols m) (rows m).

Definition tensor_wf (t : Tensor) : Prop :=
  match t with
  | T1 _ => True
  | T2 m => mat_wf m
  end.

(** The blend of two tensors of one shape, entry by entry. *)
Definition blend_value (tau : R) (online target : Tensor) : Tensor :=
  match online, target with
  | T1 u, T1 v => T1 (map2 (blend_scalar tau) u v)
  | T2 m, T2 n => T2 (mkMat (ncols m) (map2 (map2 (blend_scalar tau)) (rows m) (rows n)))
  | _, _ => online
  end.

(** ** Shapes of the networks *)

(** A linear layer from [i] inputs to [o] outputs. *)
Definition Linear_dims (l : Linear) (i o : nat) : Prop :=
  mat_wf (weight l) /\ ncols (weight l) = i /\ nrows (weight l) = o /\
  length (bias l) = o.

Definition LayerNorm_dims (l : LayerNorm) (n : nat) : Prop :=
  normalized_shape l = n /\ length (ln_weight l) = n /\ length (ln_bias l) = n.

Definition blend_Linear (tau : R) (online target : Linear) : Linear :=
  mkLinear
    (mkMat (ncols (weight online))
       (map2 (map2 (blend_scalar tau)) (rows (weight online)) (rows (weight target))))
    (map2 (blend_scalar tau) (bias online) (bias target)).

Definition blend_LayerNorm (tau : R) (online target : LayerNorm) : LayerNorm :=
  mkLayerNorm (normalized_shape target) (ln_eps target)
    (map2 (blend_scalar tau) (ln_weight online) (ln_weight target))
    (map2 (blend_scalar tau) (ln_bias online) (ln_bias target)).

(** The target dictionary after the loop of [_update_network_parameters]:
    every entry of [d] blended with the entry of the same name. *)
Definition blend_dict_value (tau : R) (d target_dict : Dict) : Dict :=
  map (fun '(name, p) =>
         (name, match dict_get target_dict name with
                | Some t => blend_value tau p t
                | None => p
                end)) d.

(** Two dictionaries blended position by position. *)
Definition blend_zip (tau : R) (d target_dict : Dict) : Dict :=
  map2 (fun a b => (fst a, blend_value tau (snd a) (snd b))) d target_dict.

Section NetworkShapes.
Context `{AG : Autograd}.

Definition actor_dims (a : ActorNetwork) (n_inputs fc1_dims fc2_dims n_actions : nat)
    : Prop :=
  Linear_dims (a_fc1 a) n_inputs fc1_dims /\ LayerNorm_dims (a_bn1 a) fc1_dims /\
  Linear_dims (a_fc2 a) fc1_dims fc2_dims /\ LayerNorm_dims (a_bn2 a) fc2_dims /\
  Linear_dims (a_mu a) fc2_dims n_actions.

Definition critic_dims (c : CriticNetwork) (n_inputs fc1_dims fc2_dims n_actions : nat)
    : Prop :=
  Linear_dims (c_fc1 c) n_inputs fc1_dims /\ LayerNorm_dims (c_bn1 c) fc1_dims /\
  Linear_dims (c_fc2 c) fc1_dims fc2_dims /\ LayerNorm_dims (c_bn2 c) fc2_dims /\
  Linear_dims (c_action_value c) n_actions fc2_dims /\
  Linear_dims (c_q c) fc2_dims 1.

(** The four networks of an agent have the shapes its constructor gives
    them: observations of size [n_obs], a critic input of size [n_crit]. *)
Definition agent_dims (self : Agent) (n_obs n_crit fc1_dims fc2_dims n_actions : nat)
    : Prop :=
  actor_dims (actor self) n_obs fc1_dims fc2_dims n_actions /\
  actor_dims (target_actor self) n_obs fc1_dims fc2_dims n_actions /\
  critic_dims (critic self) n_crit fc1_dims fc2_dims n_actions /\
  critic_dims (target_critic self) n_crit fc1_dims fc2_dims n_actions.

(** The target networks after a soft update: blended parameters, their
    own optimizer and mode. *)
Definition blend_actor (tau : R) (online target : ActorNetwork) : ActorNetwork :=
  mkActor (blend_Linear tau (a_fc1 online) (a_fc1 target))
          (blend_LayerNorm tau (a_bn1 online) (a_bn1 target))
          (blend_Linear tau (a_fc2 online) (a_fc2 target))
          (blend_LayerNorm tau (a_bn2 online) (a_bn2 target))
          (blend_Linear tau (a_mu online) (a_mu target))
          (a_optimizer target) (a_training target).

Definition blend_critic (tau : R) (online target : CriticNetwork) : CriticNetwork :=
  mkCritic (blend_Linear tau (c_fc1 online) (c_fc1 target))
           (blend_LayerNorm tau (c_bn1 online) (c_bn1 target))
           (blend_Linear tau (c_fc2 online) (c_fc2 target))
           (blend_LayerNorm tau (c_bn2 online) (c_bn2 target))
           (blend_Linear tau (c_action_value online) (c_action_value target))
           (blend_Linear tau (c_q online) (c_q target))
           (c_optimizer target) (c_training target).

End NetworkShapes.

(** ** A torch library for examples

    An optimizer without state whose steps leave the networks as they are. *)

Definition toy_optim : TorchOptim :=
  {| Optimizer := unit; optim_Adam := fun _ => tt |}.

Definition toy_autograd : @Autograd toy_optim :=
  {| critic_optimizer_step := fun c _ _ _ => c;
     actor_optimizer_step := fun a _ _ _ => a;
     critic_grad_norms := fun _ _ _ _ => (0%R, 0%R) |}.

(** The action space [[-1, 1]] of dimension 1. *)
Definition unit_box : Box := mkBox 1 [(-1)%R] [1%R].

(** ** The networks row by row *)

Definition relu_row (x : Vec) : Vec := map (Rmax 0) x.

(** The actor on one observation. *)
Definition ActorNetwork_row `{TorchOptim} (a : ActorNetwork) (x : Vec) : Vec :=
  map tanh
    (Linear_row (a_mu a)
       (relu_row (LayerNorm_row (a_bn2 a)
          (Linear_row (a_fc2 a)
             (relu_row (LayerNorm_row (a_bn1 a) (Linear_row (a_fc1 a) x))))))).

(** The critic on one state and one action; the result has one entry. *)
Definition CriticNetwork_row `{TorchOptim} (c : CriticNetwork) (s a : Vec) : Vec :=
  Linear_row (c_q c)
    (relu_row
       (map2 Rplus
          (LayerNorm_row (c_bn2 c)
             (Linear_row (c_fc2 c)
                (relu_row (LayerNorm_row (c_bn1 c) (Linear_row (c_fc1 c) s)))))
          (relu_row (Linear_row (c_action_value c) a)))).

(** The value [Q'(s', mu'(s'))] of the target networks at a next state. *)
Definition target_q `{TorchOptim} (ta : ActorNetwork) (tc : CriticNetwork) (s' : Vec) : R :=
  hd 0%R (CriticNetwork_row tc s' (ActorNetwork_row ta s')).

Fixpoint map3 {A B C D : Type} (f : A -> B -> C -> D)
    (l1 : list A) (l2 : list B) (l3 : list C) : list D :=
  match l1, l2, l3 with
  | a :: l1', b :: l2', c :: l3' => f a b c :: map3 f l1' l2' l3'
  | _, _, _ => []
  end.

(** The rows of a list of tensors, counted together. *)
Definition sum_nrows (ts : list Mat) : nat := fold_right Nat.add 0 (map nrows ts).

(** ** Well-formed agents *)

Section AgentShapes.
Context `{AG : Autograd}.

(** The buffer of [self] has positive capacity and rows of the sizes
    [n_obs] and [n_actions]. *)
Definition memory_ok (self : Agent) (n_obs n_actions : nat) : Prop :=
  buffer_wf (memory self) /\
  ncols (ReplayBuffer.obs_memory (memory self)) = n_obs /\
  ncols (ReplayBuffer.obs_next_memory (memory self)) = n_obs /\
  ncols (ReplayBuffer.action_memory (memory self)) = n_actions.

(** An [Agent_Single] as its constructor builds it: the critic reads the
    agent's own observation. *)
Definition single_agent_ok (self : Agent) (n_obs fc1_dims fc2_dims n_actions : nat)
    : Prop :=
  agent_dims self n_obs n_obs fc1_dims fc2_dims n_actions /\
  memory_ok self n_obs n_actions.

End AgentShapes.

Section PeerShapes.
Context `{AG : Autograd}.

(** An agent as a peer in a joint update: a target actor from [n_obs]
    observations to [n_actions] actions and a buffer of these sizes. *)
Definition peer_ok (x : Agent) (n_obs n_actions : nat) : Prop :=
  (exists fc1_dims fc2_dims,
     actor_dims (target_actor x) n_obs fc1_dims fc2_dims n_actions) /\
  memory_ok x n_obs n_actions.

(** The agents of [agents_list] are peers with observation sizes [n_of]
    and one action size, and their buffers hold every sampled index. *)
Definition peers_ok (h : Heap) (agents_list : list nat) (n_of : nat -> nat)
    (n_actions : nat) (batch_idxs : list nat) : Prop :=
  Forall (fun a =>
            peer_ok (h a) (n_of a) n_actions /\
            Forall (fun i => i < ReplayBuffer.mem_size (memory (h a))) batch_idxs)
         agents_list.

(** The batch [s] that a well-formed peer [a] returns for the sampled
    indices. *)
Definition batch_of (h : Heap) (n_of : nat -> nat) (na : nat) (batch_idxs : list nat)
    (a : nat) (s : ReplayBuffer.samples) : Prop :=
  ReplayBuffer.get_samples_from_buffer (memory (h a)) batch_idxs = Ok s /\
  ncols (ReplayBuffer.s_obs s) = n_of a /\
  ncols (ReplayBuffer.s_actions s) = na /\
  ncols (ReplayBuffer.s_obs_next s) = n_of a /\
  nrows (ReplayBuffer.s_obs s) = length batch_idxs /\
  nrows (ReplayBuffer.s_actions s) = length batch_idxs /\
  nrows (ReplayBuffer.s_obs_next s) = length batch_idxs /\
  length (ReplayBuffer.s_rewards s) = length batch_idxs /\
  length (ReplayBuffer.s_terminal s) = length batch_idxs.

End PeerShapes.

Definition sum_ncols (ts : list Mat) : nat := fold_right Nat.add 0 (map ncols ts).

Section JointUpdate.
Context `{AG : Autograd}.

(** The peers of a joint update by the agent at [self]: well-formed, and
    with buffers at least as large as the buffer that is sampled. *)
Definition lockstep_peers (h : Heap) (self : nat) (agents_list : list nat)
    (n_of : nat -> nat) (n_actions : nat) : Prop :=
  buffer_wf (memory (h self)) /\
  Forall (fun a =>
            peer_ok (h a) (n_of a) n_actions /\
            ReplayBuffer.mem_size (memory (h self))
            <= ReplayBuffer.mem_size (memory (h a)))
         agents_list.

End JointUpdate.

Definition cat1_error : PyError :=
  RuntimeError "Sizes of tensors must match except in dimension 1".

(** ** Example agents *)

(** A linear layer with all weights [w] and all biases [b]. *)
Definition const_Linear (i o : nat) (w b : R) : Linear :=
  mkLinear (mkMat i (repeat (repeat w i) o)) (repeat b o).

Definition toy_actor (n f1 f2 na : nat) : ActorNetwork (H := toy_optim) :=
  mkActor (H := toy_optim)
    (const_Linear n f1 (1 / 10) 0) (nn_LayerNorm f1)
    (const_Linear f1 f2 (1 / 10) 0) (nn_LayerNorm f2)
    (const_Linear f2 na (1 / 10) 0) tt true.

Definition toy_critic (n f1 f2 na : nat) : CriticNetwork (H := toy_optim) :=
  mkCritic (H := toy_optim)
    (const_Linear n f1 (1 / 10) 0) (nn_LayerNorm f1)
    (const_Linear f1 f2 (1 / 10) 0) (nn_LayerNorm f2)
    (const_Linear na f2 (1 / 10) 0) (const_Linear f2 1 (1 / 10) 0) tt true.

(** A buffer of capacity 10 for observations of size 3 and actions of size
    1 after five transitions with rewards 1..5, the third one terminal. *)
Definition toy_memory : ReplayBuffer.t :=
  ReplayBuffer.mk 10 5 (zeros2 10 3) (zeros2 10 3) (zeros2 10 1)
    [1; 2; 3; 4; 5; 0; 0; 0; 0; 0]%R
    [1; 1; 0; 1; 1; 0; 0; 0; 0; 0]%R.

(** An agent on [unit_box] with hidden layers of size 2, a critic input of
    size [n_crit], the given buffer and batch size. *)
Definition toy_agent (n_crit : nat) (mem : ReplayBuffer.t) (batch : nat)
    : Agent (H := toy_optim) :=
  mkAgent (H := toy_optim)
    (mkInitDict (1 / 10000) (1 / 1000) 3 unit_box (1 / 1000) None None
                (99 / 100) 10 2 2 batch (3 / 20) (1 / 5))
    (3 / 20) (1 / 5) false "DDPD" unit_box [1%R] [0%R] (99 / 100) (1 / 1000)
    mem batch
    (toy_actor 3 2 2 1) (toy_critic n_crit 2 2 1)
    (toy_actor 3 2 2 1) (toy_critic n_crit 2 2 1)
    (OUActionNoise.init [0%R] (3 / 20) (1 / 5) (1 / 5) None)
    [] 0 0.

(** A heap in which every address holds the same agent. *)
Definition toy_heap (n_crit batch : nat) : Heap (H := toy_optim) :=
  fun _ => toy_agent n_crit toy_memory batch.

(** ** Two runs of a joint update *)

(** Two results that are the same error, or two values related by [P]. *)
Definition res_rel {A : Type} (P : A -> A -> Prop) (r1 r2 : Res A) : Prop :=
  match r1, r2 with
  | Ok a, Ok b => P a b
  | Err e1, Err e2 => e1 = e2
  | _, _ => False
  end.

Section TwoRuns.
Context `{AG : Autograd}.

(** [y] is [x] with other rewards and other terminal flags in its buffer:
    observations, actions, networks and hyperparameters are those of [x]. *)
Definition differ_in_rewards_only (x y : Agent) : Prop :=
  exists rewards terminals,
    length rewards = length (ReplayBuffer.reward_memory (memory x)) /\
    length terminals = length (ReplayBuffer.terminal_memory (memory x)) /\
    y = set_memory x
          (ReplayBuffer.mk (ReplayBuffer.mem_size (memory x))
             (ReplayBuffer.mem_cntr (memory x))
             (ReplayBuffer.obs_memory (memory x))
             (ReplayBuffer.obs_next_memory (memory x))
             (ReplayBuffer.action_memory (memory x))
             rewards terminals).

(** The TD target in the result of [multi_target_value]. *)
Definition td_of (r : Res (MultiInputs * Mat * Heap)) : Res Mat :=
  let* (_, target_value, _) := r in Ok target_value.

(** Batches that agree on observations and actions. *)
Definition same_obs_actions (s1 s2 : ReplayBuffer.samples) : Prop :=
  ReplayBuffer.s_obs s1 = ReplayBuffer.s_obs s2 /\
  ReplayBuffer.s_actions s1 = ReplayBuffer.s_actions s2 /\
  ReplayBuffer.s_obs_next s1 = ReplayBuffer.s_obs_next s2.

(** The inputs of two runs agree but for the rewards and masks of the
    agents other than the one at [own_idx]. *)
Definition same_inputs (own_idx : nat) (m1 m2 : MultiInputs) : Prop :=
  mi_rwd_n_t m1 !! own_idx = mi_rwd_n_t m2 !! own_idx /\
  mi_done_n_t m1 !! own_idx = mi_done_n_t m2 !! own_idx /\
  mi_actual_action_n_t m1 = mi_actual_action_n_t m2 /\
  mi_obs_n_t m1 = mi_obs_n_t m2 /\
  mi_state_t m1 = mi_state_t m2 /\
  mi_new_state_t m1 = mi_new_state_t m2 /\
  mi_own_next_action m1 = mi_own_next_action m2 /\
  mi_others_next_action m1 = mi_others_next_action m2.

End TwoRuns.

(** The buffer of [toy_memory] with other rewards and terminal flags. *)
Definition toy_memory' : ReplayBuffer.t :=
  ReplayBuffer.mk 10 5 (zeros2 10 3) (zeros2 10 3) (zeros2 10 1)
    [7; 7; 7; 7; 7; 0; 0; 0; 0; 0]%R
    [0; 0; 1; 0; 0; 0; 0; 0; 0; 0]%R.

(** [toy_heap] with the other buffer at address 1. *)
Definition toy_heap' (n_crit batch : nat) : Heap (H := toy_optim) :=
  fun a => if a =? 1 then toy_agent n_crit toy_memory' batch
           else toy_agent n_crit toy_memory batch.

(** ** Actions *)

(** [v * scale + shift], componentwise. *)
Definition affine_action (v scale shift : Vec) : Vec :=
  map2 Rplus (map2 Rmult v scale) shift.

(** The sample of the noise process for the normal draws [xi]. *)
Definition ou_sample (n : OUActionNoise.t) (xi : Vec) : Vec :=
  map3 (fun m x z =>
          (x + OUActionNoise.theta n * (m - x) * OUActionNoise.dt n
           + OUActionNoise.sigma n * sqrt (OUActionNoise.dt n) * z)%R)
       (OUActionNoise.mu n) (OUActionNoise.x_prev n) xi.

(** A generator whose normal draws are the entries of [xi], then zero. *)
Definition rng_of_normals (xi : Vec) : RNG :=
  mkRNG (fun _ => 0) (fun k => nth k xi 0%R) (fun _ => 0%R) 0 0 0.

Section ActionShapes.
Context `{AG : Autograd}.

(** The actor, the bounds and the noise of [self] as the constructors
    set them up, for [n_actions] actions. *)
Definition action_ok (self : Agent) (n_obs fc1_dims fc2_dims n_actions : nat) : Prop :=
  actor_dims (actor self) n_obs fc1_dims fc2_dims n_actions /\
  length (low (action_space self)) = n_actions /\
  length (high (action_space self)) = n_actions /\
  scale self = half (map2 Rminus (high (action_space self)) (low (action_space self))) /\
  shift self = half (map2 Rplus (high (action_space self)) (low (action_space self))) /\
  length (OUActionNoise.mu (noise self)) = n_actions /\
  length (OUActionNoise.x_prev (noise self)) = n_actions.

End ActionShapes.

(** Normal draws for which the next sample of [n] is [target] in every
    component (when [sigma * sqrt dt] is not zero). *)
Definition draws_reaching (n : OUActionNoise.t) (target : R) : Vec :=
  map2 (fun m x =>
          ((target - (x + OUActionNoise.theta n * (m - x) * OUActionNoise.dt n))
           / (OUActionNoise.sigma n * sqrt (OUActionNoise.dt n)))%R)
       (OUActionNoise.mu n) (OUActionNoise.x_prev n).

(** A buffer of capacity 10 after three transitions with reward 1, none
    of them terminal. *)
Definition toy_memory3 : ReplayBuffer.t :=
  ReplayBuffer.mk 10 3 (zeros2 10 3) (zeros2 10 3) (zeros2 10 1)
    [1; 1; 1; 0; 0; 0; 0; 0; 0; 0]%R
    [1; 1; 1; 0; 0; 0; 0; 0; 0; 0]%R.

(** * Further methods and vocabulary *)

(** ** Noise: successive samples *)

(** [k] successive calls [noise()]; the samples in the order drawn. *)
Fixpoint ou_calls (self : OUActionNoise.t) (g : RNG) (k : nat)
    : Res (list Vec * OUActionNoise.t * RNG) :=
  match k with
  | 0 => Ok ([], self, g)
  | S k' =>
      let* (x, self', g') := OUActionNoise.call self g in
      let* (xs, self'', g'') := ou_calls self' g' k' in
      Ok (x :: xs, self'', g'')
  end.

(** [mu + (1 - theta * dt)^k * (start - mu)], componentwise. *)
Definition ou_mean_after (theta dt : R) (mu start : Vec) (k : nat) : Vec :=
  map2 (fun m s => (m + (1 - theta * dt) ^ k * (s - m))%R) mu start.

(** ** Replay buffer *)

(** The five fields of row [k] of a batch. *)
Definition batch_row (s : ReplayBuffer.samples) (k : nat)
    : option (Vec * Vec * R * Vec * R) :=
  match rows (ReplayBuffer.s_obs s) !! k,
        rows (ReplayBuffer.s_actions s) !! k,
        ReplayBuffer.s_rewards s !! k,
        rows (ReplayBuffer.s_obs_next s) !! k,
        ReplayBuffer.s_terminal s !! k with
  | Some o, Some a, Some r, Some o', Some m => Some (o, a, r, o', m)
  | _, _, _, _, _ => None
  end.

(** The shape of [row] broadcasts to a row of [n] entries. *)
Definition broadcasts_to (row : Vec) (n : nat) : Prop :=
  length row = n \/ length row = 1.

(** ** Networks *)

Definition matmul_error : PyError :=
  RuntimeError "mat1 and mat2 shapes cannot be multiplied".

(** ** Initial parameters *)

(** Every uniform draw of the generator lies in [[0, 1)]. *)
Definition uniform_ok (g : RNG) : Prop :=
  forall k, (0 <= uniform_seq g k < 1)%R.

(** Every weight and bias of the layer lies in [[-f, f]]. *)
Definition Linear_within (l : Linear) (f : R) : Prop :=
  Forall (Forall (fun w => (- f <= w <= f)%R)) (rows (weight l)) /\
  Forall (fun b => (- f <= b <= f)%R) (bias l).

(** ** Agents: the remaining methods *)

(** [AttributeError]: the object has no attribute of this name. *)
Inductive AttributeError : Type :=
| mkAttributeError (name : string).

Section AgentMethods.
Context `{AG : Autograd}.

Definition set_init_dict (a : Agent) (d : InitDict) : Agent :=
  mkAgent d (noise_sigma a) (noise_theta a) (calculate_grad_norms a)
    (agent_type a) (action_space a) (scale a) (shift a) (gamma a) (tau a)
    (memory a) (batch_size a) (actor a) (critic a) (target_actor a) (target_critic a)
    (noise a) (writer a) (global_step a) (episode_counter a).

Definition set_noise_params (a : Agent) (sigma theta : R) : Agent :=
  mkAgent (init_dict a) sigma theta (calculate_grad_norms a)
    (agent_type a) (action_space a) (scale a) (shift a) (gamma a) (tau a)
    (memory a) (batch_size a) (actor a) (critic a) (target_actor a) (target_critic a)
    (noise a) (writer a) (global_step a) (episode_counter a).

(** [reset_noise_source]: [self.noise.reset()] *)
Definition reset_noise_source (self : Agent) : Agent :=
  set_noise self (OUActionNoise.reset (noise self)).

(** [reduce_noise_sigma(sigma_factor, theta_factor)].  The method reads
    [self.own_actions], an attribute that neither constructor sets and no
    method assigns: [own_actions] is its value if the caller has put one on
    the instance, [None] otherwise.  The result is the agent as the call
    leaves it and the exception raised, if any; the print is left out. *)
Definition reduce_noise_sigma (self : Agent) (own_actions : option nat)
    (sigma_factor theta_factor : R) : Agent * option AttributeError :=
  let self := set_noise_params self (noise_sigma self * sigma_factor)%R
                (noise_theta self) in
  let self := set_noise_params self (noise_sigma self)
                (noise_theta self * theta_factor)%R in
  match own_actions with
  | None => (self, Some (mkAttributeError "own_actions"))
  | Some n =>
      let self := set_noise self
          (OUActionNoise.init (np_zeros n) (noise_sigma self) (noise_theta self)
             (1 / 5)%R None) in
      (reset_noise_source self, None)
  end.

(** A sequence of [remember] calls. *)
Fixpoint remember_all (self : Agent) (trs : list Transition) : Res Agent :=
  match trs with
  | [] => Ok self
  | tr :: trs' =>
      let* self' := remember self (t_obs tr) (t_action tr) (t_reward tr)
                      (t_obs_next tr) (t_done tr) in
      remember_all self' trs'
  end.

(** [k] calls of [_update_network_parameters(tau)] in a row. *)
Fixpoint soft_updates (self : Agent) (tau_arg : option R) (k : nat) : Res Agent :=
  match k with
  | 0 => Ok self
  | S k' =>
      let* self' := _update_network_parameters self tau_arg in
      soft_updates self' tau_arg k'
  end.

(** The scalars that [remember] logs for [trs], the first at step [step]. *)
Fixpoint reward_log (step : nat) (trs : list Transition) : list Scalar :=
  match trs with
  | [] => []
  | tr :: trs' => ("reward", t_reward tr, step) :: reward_log (step + 1) trs'
  end.


End AgentMethods.

(** [toy_agent] with a noise process of [sigma = 0]. *)
Definition quiet_toy_agent : Agent (H := toy_optim) :=
  set_noise (toy_agent 3 toy_memory 4)
    (OUActionNoise.init [0%R] 0 (1 / 5) (1 / 5) None).

(** The number of terminal transitions among [trs]. *)
Definition episodes_ended (trs : list Transition) : nat :=
  length (List.filter t_done trs).

(** * Properties *)

(** ** The result monad and arrays *)

Lemma bdim_same (n : nat) : bdim n n = Some n.
Proof. unfold bdim. now rewrite Nat.eqb_refl. Qed.

Lemma expand_vec_same (n : nat) (a : Vec) : length a = n -> expand_vec n a = a.
Proof. intros E. unfold expand_vec. apply Nat.eqb_eq in E. now rewrite E. Qed.

Lemma np_binop_same (f : R -> R -> R) (a b : Vec) :
  length a = length b -> np_binop f a b = Ok (map2 f a b).
Proof.
  intros E. unfold np_binop. rewrite E, bdim_same.
  now rewrite (expand_vec_same (length b) a E), (expand_vec_same (length b) b eq_refl).
Qed.

Lemma map2_length {A B C : Type} (f : A -> B -> C) (l1 : list A) (l2 : list B) :
  length l1 = length l2 -> length (map2 f l1 l2) = length l1.
Proof.
  revert l2. induction l1 as [|a l1 IH]; intros [|b l2]; simpl; intros E; try easy.
  f_equal. apply IH. lia.
Qed.

(** ** Noise *)

Lemma ou_step_sigma0 (theta dt c : R) (mu start xi : Vec) :
  length start = length mu -> length xi = length mu ->
  map2 Rplus
    (map2 Rplus start (np_rscale (np_scale theta (map2 Rminus mu start)) dt))
    (np_scale (0 * c) xi)
  = ou_mean_step theta dt mu start.
Proof.
  unfold ou_mean_step. revert start xi.
  induction mu as [|m mu IH]; intros [|s start] [|x xi]; simpl; intros E1 E2;
    try discriminate; try reflexivity.
  f_equal.
  - ring.
  - apply IH; lia.
Qed.

Lemma ou_mean_step_fixpoint (theta dt : R) (mu : Vec) :
  ou_mean_step theta dt mu mu = mu.
Proof.
  unfold ou_mean_step.
  induction mu as [|m mu IH]; simpl; [reflexivity|].
  f_equal; [ring | exact IH].
Qed.

Lemma ou_call_after_reset (self : OUActionNoise.t) (g : RNG) :
  OUActionNoise.sigma self = 0%R ->
  length (ou_start self) = length (OUActionNoise.mu self) ->
  let x := ou_mean_step (OUActionNoise.theta self) (OUActionNoise.dt self)
             (OUActionNoise.mu self) (ou_start self) in
  OUActionNoise.call (OUActionNoise.reset self) g
  = Ok (x, OUActionNoise.set_x_prev (OUActionNoise.reset self) x,
        snd (np_random_normal g (length (OUActionNoise.mu self)))).
Proof.
  intros Hs Hl x.
  unfold OUActionNoise.call, np_random_normal.
  unfold OUActionNoise.step, OUActionNoise.reset. simpl.
  fold (ou_start self).
  assert (Hxi : length (map (fun k => normal_seq g (normal_pos g + k))
                          (seq 0 (length (OUActionNoise.mu self))))
                = length (OUActionNoise.mu self))
    by now rewrite length_map, length_seq.
  set (xi := map _ (seq 0 _)) in *.
  unfold np_sub, np_add.
  rewrite np_binop_same by now rewrite Hl.
  simpl.
  rewrite np_binop_same
    by (unfold np_rscale, np_scale; rewrite !length_map, map2_length; lia).
  simpl.
  rewrite np_binop_same
    by (unfold np_rscale, np_scale; rewrite !length_map, !map2_length;
        rewrite ?length_map, ?map2_length; lia).
  rewrite Hs, ou_step_sigma0 by assumption.
  reflexivity.
Qed.

(** C6 (as amended): after [reset], one sample with [sigma = 0] is
    [start + theta * (mu - start) * dt] componentwise, where [start] is the
    configured [x0] or the zero vector; it is stored as the new [x_prev];
    with [x0 = mu] the sample is [mu]. *)
Theorem C6_first_sample_sigma0 (self : OUActionNoise.t) (g : RNG) :
  OUActionNoise.sigma self = 0%R ->
  length (ou_start self) = length (OUActionNoise.mu self) ->
  let x := ou_mean_step (OUActionNoise.theta self) (OUActionNoise.dt self)
             (OUActionNoise.mu self) (ou_start self) in
  (exists self' g',
     OUActionNoise.call (OUActionNoise.reset self) g = Ok (x, self', g') /\
     OUActionNoise.x_prev self' = x) /\
  (OUActionNoise.x0 self = Some (OUActionNoise.mu self) -> x = OUActionNoise.mu self).
Proof.
  intros Hs Hl x. split.
  - eexists _, _. split; [apply ou_call_after_reset; assumption | reflexivity].
  - intros E. subst x. unfold ou_start. rewrite E. apply ou_mean_step_fixpoint.
Qed.

Lemma C6_first_sample_sigma0_witness :
  exists self' g',
    OUActionNoise.call (OUActionNoise.reset ou_example) rng0
    = Ok (ou_mean_step (1 / 5) (1 / 5) [0%R] [1%R], self', g') /\
    OUActionNoise.x_prev self' = ou_mean_step (1 / 5) (1 / 5) [0%R] [1%R].
Proof.
  exact (proj1 (C6_first_sample_sigma0 ou_example rng0 eq_refl eq_refl)).
Defined.

(** C6, the claim as stated fails: with [mu = 0], [x0 = 1], [theta = dt =
    1/5] and [sigma = 0] the first sample after [reset] is [24/25], while
    [mu + theta * (mu - x0) * dt] is [-1/25]. *)
Lemma C6_counterexample :
  exists x self' g',
    OUActionNoise.call (OUActionNoise.reset ou_example) rng0 = Ok (x, self', g') /\
    x = [(24 / 25)%R] /\
    ou_mean_step_from_mu (1 / 5) (1 / 5) [0%R] [1%R] = [(- 1 / 25)%R] /\
    x <> ou_mean_step_from_mu (1 / 5) (1 / 5) [0%R] [1%R].
Proof.
  eexists _, _, _. split.
  - apply (ou_call_after_reset ou_example rng0); reflexivity.
  - unfold ou_mean_step, ou_mean_step_from_mu. simpl.
    repeat split.
    + f_equal. lra.
    + f_equal. lra.
    + intros E. injection E as E. lra.
Qed.

(** ** Replay buffer *)

Lemma set_row_ok (mem : Mat) (index : nat) (row : Vec) :
  index < nrows mem -> length row = ncols mem ->
  ReplayBuffer.set_row mem index row
  = Ok (mkMat (ncols mem) (<[index := row]> (rows mem))).
Proof.
  intros Hi Hl. unfold ReplayBuffer.set_row.
  apply Nat.ltb_lt in Hi. rewrite Hi.
  rewrite (expand_vec_same _ _ Hl).
  apply Nat.eqb_eq in Hl. now rewrite Hl.
Qed.

Lemma set_item_ok (mem : Vec) (index : nat) (x : R) :
  index < length mem ->
  ReplayBuffer.set_item mem index x = Ok (<[index := x]> mem).
Proof.
  intros Hi. unfold ReplayBuffer.set_item.
  apply Nat.ltb_lt in Hi. now rewrite Hi.
Qed.

Lemma mask_value (done : bool) :
  (1 - ReplayBuffer.bool_R done)%R = if done then 0%R else 1%R.
Proof. destruct done; simpl; lra. Qed.

(** One call: where it writes and what it leaves alone. *)
Lemma store_spec (b : ReplayBuffer.t) (tr : Transition) :
  buffer_wf b -> fits b tr ->
  exists b',
    store b tr = Ok b' /\
    buffer_wf b' /\
    (forall tr', fits b tr' -> fits b' tr') /\
    ReplayBuffer.mem_size b' = ReplayBuffer.mem_size b /\
    ReplayBuffer.mem_cntr b' = ReplayBuffer.mem_cntr b + 1 /\
    slot b' (ReplayBuffer.mem_cntr b mod ReplayBuffer.mem_size b) = Some (stored tr) /\
    (forall j, j <> ReplayBuffer.mem_cntr b mod ReplayBuffer.mem_size b ->
               slot b' j = slot b j).
Proof.
  intros (Hpos & Ho & Hn & Ha & Hr & Ht) (Fo & Fn & Fa).
  set (i := ReplayBuffer.mem_cntr b mod ReplayBuffer.mem_size b).
  assert (Hi : i < ReplayBuffer.mem_size b) by (apply Nat.mod_upper_bound; lia).
  unfold store, ReplayBuffer.store_transition, ReplayBuffer.py_mod.
  destruct (ReplayBuffer.mem_size b =? 0) eqn:E0;
    [apply Nat.eqb_eq in E0; lia|].
  simpl. fold i.
  rewrite set_row_ok by (try assumption; lia). simpl.
  rewrite set_row_ok by (try assumption; lia). simpl.
  rewrite set_row_ok by (try assumption; lia). simpl.
  rewrite set_item_ok by lia. simpl.
  rewrite set_item_ok by lia. simpl.
  eexists. split; [reflexivity|].
  unfold nrows in *.
  split; [|split; [|split; [|split; [|split]]]].
  - unfold buffer_wf, nrows; simpl. repeat split; rewrite ?length_insert; assumption.
  - intros tr' (Fo' & Fn' & Fa'). repeat split; simpl; assumption.
  - reflexivity.
  - reflexivity.
  - unfold slot; simpl.
    rewrite !list_lookup_insert_eq by lia.
    unfold stored. now rewrite mask_value.
  - intros j Hj. unfold slot; simpl.
    now rewrite !list_lookup_insert_ne by congruence.
Qed.

Lemma mod_shift_neq (c j cap : nat) :
  0 < j -> j < cap -> (c + j) mod cap <> c mod cap.
Proof.
  intros Hj Hc E.
  pose proof (Nat.div_mod_eq c cap) as Dc.
  pose proof (Nat.mod_upper_bound c cap ltac:(lia)) as Bc.
  assert (Ej : (c + j) mod cap = (c mod cap + j) mod cap).
  { rewrite (Nat.Div0.add_mod c j cap), (Nat.Div0.add_mod (c mod cap) j cap).
    now rewrite Nat.Div0.mod_mod. }
  rewrite Ej in E. clear Ej.
  destruct (Nat.lt_ge_cases (c mod cap + j) cap) as [L|G].
  - rewrite Nat.mod_small in E by assumption. lia.
  - assert (E2 : (c mod cap + j) mod cap = c mod cap + j - cap).
    { symmetry. apply (Nat.mod_unique _ cap 1); lia. }
    lia.
Qed.

(** A sequence of calls from any well-formed buffer. *)
Lemma store_all_spec (trs : list Transition) :
  forall b, buffer_wf b -> Forall (fits b) trs ->
  exists b',
    store_all b trs = Ok b' /\
    buffer_wf b' /\
    (forall tr', fits b tr' -> fits b' tr') /\
    ReplayBuffer.mem_size b' = ReplayBuffer.mem_size b /\
    ReplayBuffer.mem_cntr b' = ReplayBuffer.mem_cntr b + length trs /\
    (forall i tr, trs !! i = Some tr ->
       length trs <= i + ReplayBuffer.mem_size b ->
       slot b' ((ReplayBuffer.mem_cntr b + i) mod ReplayBuffer.mem_size b)
       = Some (stored tr)) /\
    (forall s, (forall j, j < length trs ->
                  (ReplayBuffer.mem_cntr b + j) mod ReplayBuffer.mem_size b <> s) ->
               slot b' s = slot b s).
Proof.
  induction trs as [|tr trs IH]; intros b Hwf Hfit.
  - exists b. simpl.
    split; [reflexivity|]. split; [assumption|]. split; [tauto|].
    split; [reflexivity|]. split; [lia|]. split; [|reflexivity].
    intros i tr' H. rewrite lookup_nil in H. discriminate.
  - inversion Hfit as [|? ? Hf Hfs]; subst.
    destruct (store_spec b tr Hwf Hf)
      as (b1 & E1 & Hwf1 & Hfit1 & Hsz1 & Hc1 & Hs1 & Hfr1).
    destruct (IH b1 Hwf1) as (b' & E' & Hwf' & Hfit' & Hsz' & Hc' & Hs' & Hfr').
    { eapply Forall_impl; [exact Hfs | exact Hfit1]. }
    exists b'. simpl. rewrite E1. simpl.
    split; [exact E'|]. split; [exact Hwf'|].
    split; [intros tr' Ht; apply Hfit', Hfit1, Ht|].
    split; [congruence|]. split; [lia|].
    rewrite Hsz1, Hc1 in *.
    destruct Hwf as (Hpos & _).
    split.
    + intros [|i] tr' Hl Hlen; simpl in *.
      * injection Hl as <-. rewrite Nat.add_0_r.
        rewrite Hfr'; [exact Hs1|].
        intros j Hj.
        replace (ReplayBuffer.mem_cntr b + 1 + j)
          with (ReplayBuffer.mem_cntr b + (1 + j)) by lia.
        apply mod_shift_neq; lia.
      * replace (ReplayBuffer.mem_cntr b + S i)
          with (ReplayBuffer.mem_cntr b + 1 + i) by lia.
        apply (Hs' i tr' Hl). lia.
    + intros s Hs.
      rewrite Hfr'.
      * apply Hfr1. specialize (Hs 0 ltac:(lia)). rewrite Nat.add_0_r in Hs. congruence.
      * intros j Hj.
        replace (ReplayBuffer.mem_cntr b + 1 + j)
          with (ReplayBuffer.mem_cntr b + S j) by lia.
        apply Hs. lia.
Qed.

Lemma init_wf (cap d n : nat) : 0 < cap -> buffer_wf (ReplayBuffer.init cap d n).
Proof.
  intros Hc. unfold buffer_wf, ReplayBuffer.init, zeros2, np_zeros, nrows; simpl.
  rewrite !repeat_length. repeat split; lia.
Qed.

Lemma window_residue (a cap s : nat) :
  s < cap -> exists i, a <= i /\ i < a + cap /\ i mod cap = s.
Proof.
  intros Hs.
  pose proof (Nat.div_mod_eq a cap) as Da.
  pose proof (Nat.mod_upper_bound a cap ltac:(lia)) as Ba.
  destruct (Nat.le_gt_cases (a mod cap) s) as [L|G].
  - exists (a + (s - a mod cap)). repeat split; try lia.
    symmetry. apply (Nat.mod_unique _ cap (a / cap)); lia.
  - exists (a + (cap - a mod cap + s)). repeat split; try lia.
    symmetry. apply (Nat.mod_unique _ cap (a / cap + 1)); lia.
Qed.

(** C2: from a fresh buffer of positive capacity, every sequence of
    [store_transition] calls with transitions of the buffer's sizes succeeds;
    the call at cursor value [i] writes the five fields, the terminal flag
    as the mask [1] or [0], at slot [i mod capacity], leaves the other
    slots alone and increments the cursor; after the whole sequence each of
    the last [capacity] transitions is at its slot, and once the sequence
    is at least [capacity] long every slot holds one of them. *)
Theorem C2_circular_buffer (cap d n : nat) (trs : list Transition) :
  0 < cap ->
  Forall (fits (ReplayBuffer.init cap d n)) trs ->
  exists b,
    store_all (ReplayBuffer.init cap d n) trs = Ok b /\
    ReplayBuffer.mem_cntr b = length trs /\
    (forall i tr, trs !! i = Some tr ->
       exists bi bi',
         store_all (ReplayBuffer.init cap d n) (take i trs) = Ok bi /\
         ReplayBuffer.mem_cntr bi = i /\
         store bi tr = Ok bi' /\
         ReplayBuffer.mem_cntr bi' = i + 1 /\
         slot bi' (i mod cap) = Some (stored tr) /\
         (forall j, j <> i mod cap -> slot bi' j = slot bi j)) /\
    (forall i tr, trs !! i = Some tr -> length trs <= i + cap ->
       slot b (i mod cap) = Some (stored tr)) /\
    (cap <= length trs ->
     forall s, s < cap ->
       exists i tr, length trs - cap <= i /\ i < length trs /\ i mod cap = s /\
                    trs !! i = Some tr /\ slot b s = Some (stored tr)).
Proof.
  intros Hc Hfit.
  pose proof (init_wf cap d n Hc) as Hwf.
  destruct (store_all_spec trs _ Hwf Hfit) as (b & E & Hwfb & _ & Hsz & Hcn & Hs & _).
  simpl in Hcn, Hs.
  exists b. split; [exact E|]. split; [exact Hcn|].
  assert (Hlast : forall i tr, trs !! i = Some tr -> length trs <= i + cap ->
                    slot b (i mod cap) = Some (stored tr)).
  { intros i tr Hl Hlen. exact (Hs i tr Hl Hlen). }
  split; [|split; [exact Hlast|]].
  - intros i tr Hl.
    assert (Hi : i < length trs) by (eapply lookup_lt_Some; exact Hl).
    destruct (store_all_spec (take i trs) _ Hwf)
      as (bi & Ei & Hwfi & Hfiti & Hszi & Hci & _ & _).
    { apply Forall_take. exact Hfit. }
    rewrite length_take in Hci. simpl in Hci, Hszi.
    assert (Hfi : fits bi tr).
    { apply Hfiti. eapply Forall_lookup_1; eassumption. }
    destruct (store_spec bi tr Hwfi Hfi) as (bi' & E1 & _ & _ & _ & Hc1 & Hs1 & Hfr1).
    exists bi, bi'. rewrite Hszi in *.
    replace (ReplayBuffer.mem_cntr bi) with i in * by lia.
    repeat split; try assumption; lia.
  - intros Hge s Hs'.
    destruct (window_residue (length trs - cap) cap s Hs') as (i & Hi1 & Hi2 & Hi3).
    assert (Hi : i < length trs) by lia.
    destruct (lookup_lt_is_Some_2 trs i Hi) as (tr & Hl).
    exists i, tr. repeat split; try assumption.
    rewrite <- Hi3. apply Hlast; [exact Hl | lia].
Qed.

Lemma C2_circular_buffer_witness :
  exists b,
    store_all (ReplayBuffer.init 2 1 1) c2_transitions = Ok b /\
    ReplayBuffer.mem_cntr b = 3 /\
    slot b 0 = Some ([3%R], [0%R], 3%R, [4%R], 0%R) /\
    slot b 1 = Some ([2%R], [0%R], 2%R, [3%R], 1%R).
Proof.
  destruct (C2_circular_buffer 2 1 1 c2_transitions ltac:(lia))
    as (b & E & Hc & _ & Hlast & _).
  { unfold c2_transitions, fits. repeat constructor. }
  exists b. split; [exact E|]. split; [exact Hc|]. split.
  - exact (Hlast 2 _ eq_refl ltac:(simpl; lia)).
  - exact (Hlast 1 _ eq_refl ltac:(simpl; lia)).
Defined.

(** ** Tensors *)

Lemma expand_mat_same (r c : nat) (m : Mat) :
  mat_wf m -> nrows m = r -> ncols m = c -> expand_mat r c m = rows m.
Proof.
  intros Hwf Hr Hc. unfold expand_mat.
  assert (E : map (expand_vec c) (rows m) = rows m).
  { unfold mat_wf in Hwf. rewrite Hc in Hwf.
    induction Hwf as [|x l Hx _ IH]; simpl; [reflexivity|].
    now rewrite (expand_vec_same c x Hx), IH. }
  rewrite E. unfold nrows in Hr. apply Nat.eqb_eq in Hr. now rewrite Hr.
Qed.

Lemma T_binop_same (f : R -> R -> R) (a b : Mat) :
  mat_wf a -> mat_wf b -> nrows a = nrows b -> ncols a = ncols b ->
  T_binop f a b = Ok (mkMat (ncols a) (map2 (map2 f) (rows a) (rows b))).
Proof.
  intros Ha Hb Hr Hc. unfold T_binop.
  rewrite Hr, Hc, !bdim_same.
  rewrite (expand_mat_same _ _ a Ha Hr Hc).
  now rewrite (expand_mat_same _ _ b Hb eq_refl eq_refl).
Qed.

Lemma map2_map_l {A A' B C : Type} (f : A' -> B -> C) (g : A -> A') l1 l2 :
  map2 f (map g l1) l2 = map2 (fun x y => f (g x) y) l1 l2.
Proof.
  revert l2. induction l1 as [|a l1 IH]; intros [|b l2]; simpl; try reflexivity.
  now rewrite IH.
Qed.

Lemma map2_map_r {A B B' C : Type} (f : A -> B' -> C) (g : B -> B') l1 l2 :
  map2 f l1 (map g l2) = map2 (fun x y => f x (g y)) l1 l2.
Proof.
  revert l2. induction l1 as [|a l1 IH]; intros [|b l2]; simpl; try reflexivity.
  now rewrite IH.
Qed.

Lemma map2_ext {A B C : Type} (f g : A -> B -> C) l1 l2 :
  (forall a b, f a b = g a b) -> map2 f l1 l2 = map2 g l1 l2.
Proof.
  intros E. revert l2. induction l1 as [|a l1 IH]; intros [|b l2]; simpl; try reflexivity.
  now rewrite E, IH.
Qed.

Lemma mat_map_wf (f : R -> R) (m : Mat) : mat_wf m -> mat_wf (mat_map f m).
Proof.
  unfold mat_wf, mat_map; simpl. intros Hwf.
  induction Hwf; constructor; [now rewrite length_map | assumption].
Qed.

(** ** Soft update *)

Lemma blend_ok (tau : R) (p t : Tensor) :
  tensor_wf p -> tensor_wf t -> same_shape p t = true ->
  blend tau p t = Ok (blend_value tau p t).
Proof.
  intros Hp Ht Hs. unfold blend.
  destruct p as [u|m], t as [v|n]; simpl in *; try discriminate.
  - apply Nat.eqb_eq in Hs.
    unfold np_scale. rewrite !length_map, Hs, bdim_same.
    rewrite !expand_vec_same by now rewrite length_map.
    rewrite map2_map_l, map2_map_r. reflexivity.
  - apply andb_true_iff in Hs as [Hr Hc].
    apply Nat.eqb_eq in Hr, Hc.
    unfold T_add. rewrite T_binop_same.
    + simpl. do 2 f_equal.
      rewrite map2_map_l, map2_map_r. f_equal.
      apply map2_ext. intros a b. now rewrite map2_map_l, map2_map_r.
    + now apply mat_map_wf.
    + now apply mat_map_wf.
    + unfold nrows, mat_map; simpl. now rewrite !length_map.
    + exact Hc.
Qed.

Lemma blend_scalar_closer (tau o t : R) :
  (0 < tau < 1)%R -> (Rabs (blend_scalar tau o t - o) <= Rabs (t - o))%R.
Proof.
  intros [H0 H1]. unfold blend_scalar.
  replace (tau * o + (1 - tau) * t - o)%R with ((1 - tau) * (t - o))%R by ring.
  rewrite Rabs_mult, (Rabs_pos_eq (1 - tau)) by lra.
  pose proof (Rabs_pos (t - o)). nra.
Qed.

Lemma blend_scalar_fixed (tau o t : R) :
  (0 < tau)%R -> (blend_scalar tau o t = t <-> t = o).
Proof.
  intros H0. unfold blend_scalar. split; intros E.
  - assert (tau * (o - t) = 0)%R by lra. nra.
  - subst. ring.
Qed.

Lemma blend_value_entries (tau : R) (p t : Tensor) :
  tensor_wf p -> tensor_wf t -> same_shape p t = true ->
  tensor_entries (blend_value tau p t)
  = map2 (blend_scalar tau) (tensor_entries p) (tensor_entries t).
Proof.
  intros Hp Ht Hs.
  destruct p as [u|m], t as [v|n]; simpl in *; try discriminate; [reflexivity|].
  apply andb_true_iff in Hs as [Hr Hc]. apply Nat.eqb_eq in Hr, Hc.
  unfold mat_wf in *. rewrite <- Hc in Ht. unfold nrows in Hr.
  destruct m as [c rm], n as [c' rn]; simpl in *. clear Hc c'.
  revert rn Hr Ht. induction Hp as [|x l Hx Hl IH]; intros [|y rn] Hr Ht;
    simpl in *; try discriminate; [reflexivity|].
  inversion Ht as [|? ? Hy Hrn]; subst.
  rewrite IH by (try assumption; lia).
  clear -Hy. revert y Hy.
  generalize (concat l) (concat rn). intros L1 L2.
  induction x as [|a x IHx]; intros [|b y] Hy; simpl in *; try discriminate;
    [reflexivity|].
  f_equal. apply IHx. lia.
Qed.

(** C8 (as amended): for [0 < tau < 1], the blend of an online and a target
    tensor of one shape succeeds, its entries are [tau * online + (1 - tau) *
    target], and every entry is at least as close to the online entry as
    the target entry was; a further blend with an online value leaves a
    target entry unchanged exactly when the entry already equals that
    value. *)
Theorem C8_soft_update_monotone (tau : R) (online target : Tensor) :
  (0 < tau < 1)%R ->
  tensor_wf online -> tensor_wf target -> same_shape online target = true ->
  exists new,
    blend tau online target = Ok new /\
    tensor_entries new
    = map2 (blend_scalar tau) (tensor_entries online) (tensor_entries target) /\
    (forall k o t n,
       tensor_entries online !! k = Some o ->
       tensor_entries target !! k = Some t ->
       tensor_entries new !! k = Some n ->
       (Rabs (n - o) <= Rabs (t - o))%R /\
       (forall o2, blend_scalar tau o2 n = n <-> n = o2)).
Proof.
  intros Htau Hp Ht Hs.
  exists (blend_value tau online target).
  split; [now apply blend_ok|].
  rewrite blend_value_entries by assumption.
  split; [reflexivity|].
  generalize (tensor_entries online) (tensor_entries target). clear - Htau.
  intros l1. induction l1 as [|a l1 IH]; intros [|b l2] k o t n Ho Htg Hn;
    try (rewrite lookup_nil in Ho; discriminate);
    try (rewrite lookup_nil in Htg; discriminate).
  destruct k as [|k]; simpl in *.
  - injection Ho as <-. injection Htg as <-. injection Hn as <-.
    split; [now apply blend_scalar_closer|].
    intros o2. apply blend_scalar_fixed. lra.
  - eapply IH; eassumption.
Qed.

Lemma C8_soft_update_monotone_witness :
  exists new,
    blend (1 / 2) (T1 [0%R]) (T1 [2%R]) = Ok new /\
    tensor_entries new = map2 (blend_scalar (1 / 2)) [0%R] [2%R].
Proof.
  destruct (C8_soft_update_monotone (1 / 2) (T1 [0%R]) (T1 [2%R])
              ltac:(lra) I I eq_refl) as (new & E & He & _).
  exists new. split; [exact E | exact He].
Defined.

(** C8, the claim as stated fails: with [tau = 1/2], online value [0] and
    target [2], one application gives the target [1]; if the online value
    then moves to [1], a second application leaves the target unchanged
    although the online parameter was not frozen, and if the online value
    stays [0], the second application changes the target to [1/2]. *)
Lemma C8_counterexample :
  exists t1 t2 t3,
    blend (1 / 2) (T1 [0%R]) (T1 [2%R]) = Ok t1 /\
    tensor_entries t1 = [1%R] /\
    blend (1 / 2) (T1 [1%R]) t1 = Ok t2 /\
    tensor_entries t2 = tensor_entries t1 /\
    blend (1 / 2) (T1 [0%R]) t1 = Ok t3 /\
    tensor_entries t3 = [(1 / 2)%R] /\
    tensor_entries t3 <> tensor_entries t1.
Proof.
  exists (blend_value (1 / 2) (T1 [0%R]) (T1 [2%R])).
  exists (blend_value (1 / 2) (T1 [1%R]) (blend_value (1 / 2) (T1 [0%R]) (T1 [2%R]))).
  exists (blend_value (1 / 2) (T1 [0%R]) (blend_value (1 / 2) (T1 [0%R]) (T1 [2%R]))).
  split; [apply blend_ok; simpl; auto|].
  split; [simpl; unfold blend_scalar; f_equal; lra|].
  split; [apply blend_ok; simpl; auto|].
  split; [simpl; unfold blend_scalar; f_equal; lra|].
  split; [apply blend_ok; simpl; auto|].
  split; [simpl; unfold blend_scalar; f_equal; lra|].
  simpl. unfold blend_scalar. intros E. injection E as E. lra.
Qed.

(** ** Loading state dictionaries *)

Lemma load_param_hit (d : Dict) (name : string) (old v : Tensor) :
  dict_get d name = Some v -> same_shape v old = true ->
  load_param d name old = Ok v.
Proof. intros E S. unfold load_param. now rewrite E, S. Qed.

Lemma Linear_load_hit (d : Dict) (prefix : string) (l : Linear) (w : Mat) (b : Vec) :
  dict_get d (prefix ++ ".weight") = Some (T2 w) ->
  dict_get d (prefix ++ ".bias") = Some (T1 b) ->
  nrows w = nrows (weight l) -> ncols w = ncols (weight l) ->
  length b = length (bias l) ->
  Linear_load d prefix l = Ok (mkLinear w b).
Proof.
  intros Ew Eb Hr Hc Hb. unfold Linear_load.
  rewrite (load_param_hit _ _ _ _ Ew), (load_param_hit _ _ _ _ Eb); simpl;
    rewrite ?Hr, ?Hc, ?Hb, ?Nat.eqb_refl; reflexivity.
Qed.

Lemma LayerNorm_load_hit (d : Dict) (prefix : string) (l : LayerNorm) (w b : Vec) :
  dict_get d (prefix ++ ".weight") = Some (T1 w) ->
  dict_get d (prefix ++ ".bias") = Some (T1 b) ->
  length w = length (ln_weight l) -> length b = length (ln_bias l) ->
  LayerNorm_load d prefix l = Ok (mkLayerNorm (normalized_shape l) (ln_eps l) w b).
Proof.
  intros Ew Eb Hw Hb. unfold LayerNorm_load.
  rewrite (load_param_hit _ _ _ _ Ew), (load_param_hit _ _ _ _ Eb); simpl;
    rewrite ?Hw, ?Hb, ?Nat.eqb_refl; reflexivity.
Qed.

Lemma blend_Linear_shape (tau : R) (l l' : Linear) (i o : nat) :
  Linear_dims l i o -> Linear_dims l' i o ->
  nrows (weight (blend_Linear tau l l')) = nrows (weight l') /\
  ncols (weight (blend_Linear tau l l')) = ncols (weight l') /\
  length (bias (blend_Linear tau l l')) = length (bias l').
Proof.
  intros (_ & Hc & Hr & Hb) (_ & Hc' & Hr' & Hb').
  unfold blend_Linear, nrows in *; simpl.
  rewrite !map2_length by congruence. repeat split; congruence.
Qed.

Lemma blend_LayerNorm_shape (tau : R) (l l' : LayerNorm) (n : nat) :
  LayerNorm_dims l n -> LayerNorm_dims l' n ->
  length (ln_weight (blend_LayerNorm tau l l')) = length (ln_weight l') /\
  length (ln_bias (blend_LayerNorm tau l l')) = length (ln_bias l').
Proof.
  intros (_ & Hw & Hb) (_ & Hw' & Hb').
  unfold blend_LayerNorm; simpl.
  rewrite !map2_length by congruence. split; congruence.
Qed.

Lemma blend_Linear_tensors (tau : R) (l l' : Linear) (i o : nat) :
  Linear_dims l i o -> Linear_dims l' i o ->
  blend tau (T2 (weight l)) (T2 (weight l')) = Ok (T2 (weight (blend_Linear tau l l'))) /\
  blend tau (T1 (bias l)) (T1 (bias l')) = Ok (T1 (bias (blend_Linear tau l l'))).
Proof.
  intros (Hwf & Hc & Hr & Hb) (Hwf' & Hc' & Hr' & Hb').
  split; rewrite blend_ok; simpl; try reflexivity; try assumption; try exact I.
  - rewrite Hr, Hr', Hc, Hc', !Nat.eqb_refl. reflexivity.
  - rewrite Hb, Hb', Nat.eqb_refl. reflexivity.
Qed.

Lemma blend_LayerNorm_tensors (tau : R) (l l' : LayerNorm) (n : nat) :
  LayerNorm_dims l n -> LayerNorm_dims l' n ->
  blend tau (T1 (ln_weight l)) (T1 (ln_weight l'))
  = Ok (T1 (ln_weight (blend_LayerNorm tau l l'))) /\
  blend tau (T1 (ln_bias l)) (T1 (ln_bias l'))
  = Ok (T1 (ln_bias (blend_LayerNorm tau l l'))).
Proof.
  intros (_ & Hw & Hb) (_ & Hw' & Hb').
  split; rewrite blend_ok; simpl; try reflexivity; try exact I.
  - rewrite Hw, Hw', Nat.eqb_refl. reflexivity.
  - rewrite Hb, Hb', Nat.eqb_refl. reflexivity.
Qed.

Section SoftUpdate.
Context `{AG : Autograd}.

Lemma blend_dict_critic (tau : R) (c tc : CriticNetwork) (n f1 f2 na : nat) :
  critic_dims c n f1 f2 na -> critic_dims tc n f1 f2 na ->
  blend_dict tau (CriticNetwork_named_parameters c) (CriticNetwork_named_parameters tc)
  = Ok (CriticNetwork_named_parameters (blend_critic tau c tc)).
Proof.
  intros (H1 & H2 & H3 & H4 & H5 & H6) (H1' & H2' & H3' & H4' & H5' & H6').
  destruct (blend_Linear_tensors tau _ _ _ _ H1 H1') as [E1 E2].
  destruct (blend_LayerNorm_tensors tau _ _ _ H2 H2') as [E3 E4].
  destruct (blend_Linear_tensors tau _ _ _ _ H3 H3') as [E5 E6].
  destruct (blend_LayerNorm_tensors tau _ _ _ H4 H4') as [E7 E8].
  destruct (blend_Linear_tensors tau _ _ _ _ H5 H5') as [E9 E10].
  destruct (blend_Linear_tensors tau _ _ _ _ H6 H6') as [E11 E12].
  unfold blend_dict, CriticNetwork_named_parameters. simpl.
  rewrite E1; simpl. rewrite E2; simpl. rewrite E3; simpl. rewrite E4; simpl.
  rewrite E5; simpl. rewrite E6; simpl. rewrite E7; simpl. rewrite E8; simpl.
  rewrite E9; simpl. rewrite E10; simpl. rewrite E11; simpl. rewrite E12; simpl.
  reflexivity.
Qed.

Lemma blend_dict_actor (tau : R) (a ta : ActorNetwork) (n f1 f2 na : nat) :
  actor_dims a n f1 f2 na -> actor_dims ta n f1 f2 na ->
  blend_dict tau (ActorNetwork_named_parameters a) (ActorNetwork_named_parameters ta)
  = Ok (ActorNetwork_named_parameters (blend_actor tau a ta)).
Proof.
  intros (H1 & H2 & H3 & H4 & H5) (H1' & H2' & H3' & H4' & H5').
  destruct (blend_Linear_tensors tau _ _ _ _ H1 H1') as [E1 E2].
  destruct (blend_LayerNorm_tensors tau _ _ _ H2 H2') as [E3 E4].
  destruct (blend_Linear_tensors tau _ _ _ _ H3 H3') as [E5 E6].
  destruct (blend_LayerNorm_tensors tau _ _ _ H4 H4') as [E7 E8].
  destruct (blend_Linear_tensors tau _ _ _ _ H5 H5') as [E9 E10].
  unfold blend_dict, ActorNetwork_named_parameters. simpl.
  rewrite E1; simpl. rewrite E2; simpl. rewrite E3; simpl. rewrite E4; simpl.
  rewrite E5; simpl. rewrite E6; simpl. rewrite E7; simpl. rewrite E8; simpl.
  rewrite E9; simpl. rewrite E10; simpl.
  reflexivity.
Qed.

Lemma load_blend_critic (tau : R) (c tc : CriticNetwork) (n f1 f2 na : nat) :
  critic_dims c n f1 f2 na -> critic_dims tc n f1 f2 na ->
  CriticNetwork_load_state_dict tc (CriticNetwork_named_parameters (blend_critic tau c tc))
  = Ok (blend_critic tau c tc).
Proof.
  intros (H1 & H2 & H3 & H4 & H5 & H6) (H1' & H2' & H3' & H4' & H5' & H6').
  destruct (blend_Linear_shape tau _ _ _ _ H1 H1') as (A1 & A2 & A3).
  destruct (blend_LayerNorm_shape tau _ _ _ H2 H2') as (B1 & B2).
  destruct (blend_Linear_shape tau _ _ _ _ H3 H3') as (C1 & C2 & C3).
  destruct (blend_LayerNorm_shape tau _ _ _ H4 H4') as (D1 & D2).
  destruct (blend_Linear_shape tau _ _ _ _ H5 H5') as (E1 & E2 & E3).
  destruct (blend_Linear_shape tau _ _ _ _ H6 H6') as (F1 & F2 & F3).
  unfold CriticNetwork_load_state_dict.
  replace (no_unexpected_keys _ _) with true by reflexivity.
  set (d := CriticNetwork_named_parameters (blend_critic tau c tc)).
  rewrite (Linear_load_hit d "fc1" _ _ _ eq_refl eq_refl A1 A2 A3). simpl.
  rewrite (LayerNorm_load_hit d "bn1" _ _ _ eq_refl eq_refl B1 B2). simpl.
  rewrite (Linear_load_hit d "fc2" _ _ _ eq_refl eq_refl C1 C2 C3). simpl.
  rewrite (LayerNorm_load_hit d "bn2" _ _ _ eq_refl eq_refl D1 D2). simpl.
  rewrite (Linear_load_hit d "action_value" _ _ _ eq_refl eq_refl E1 E2 E3). simpl.
  rewrite (Linear_load_hit d "q" _ _ _ eq_refl eq_refl F1 F2 F3). simpl.
  reflexivity.
Qed.

Lemma load_blend_actor (tau : R) (a ta : ActorNetwork) (n f1 f2 na : nat) :
  actor_dims a n f1 f2 na -> actor_dims ta n f1 f2 na ->
  ActorNetwork_load_state_dict ta (ActorNetwork_named_parameters (blend_actor tau a ta))
  = Ok (blend_actor tau a ta).
Proof.
  intros (H1 & H2 & H3 & H4 & H5) (H1' & H2' & H3' & H4' & H5').
  destruct (blend_Linear_shape tau _ _ _ _ H1 H1') as (A1 & A2 & A3).
  destruct (blend_LayerNorm_shape tau _ _ _ H2 H2') as (B1 & B2).
  destruct (blend_Linear_shape tau _ _ _ _ H3 H3') as (C1 & C2 & C3).
  destruct (blend_LayerNorm_shape tau _ _ _ H4 H4') as (D1 & D2).
  destruct (blend_Linear_shape tau _ _ _ _ H5 H5') as (E1 & E2 & E3).
  unfold ActorNetwork_load_state_dict.
  replace (no_unexpected_keys _ _) with true by reflexivity.
  set (d := ActorNetwork_named_parameters (blend_actor tau a ta)).
  rewrite (Linear_load_hit d "fc1" _ _ _ eq_refl eq_refl A1 A2 A3). simpl.
  rewrite (LayerNorm_load_hit d "bn1" _ _ _ eq_refl eq_refl B1 B2). simpl.
  rewrite (Linear_load_hit d "fc2" _ _ _ eq_refl eq_refl C1 C2 C3). simpl.
  rewrite (LayerNorm_load_hit d "bn2" _ _ _ eq_refl eq_refl D1 D2). simpl.
  rewrite (Linear_load_hit d "mu" _ _ _ eq_refl eq_refl E1 E2 E3). simpl.
  reflexivity.
Qed.

(** The soft update on an agent whose networks have matching shapes. *)
Lemma update_network_parameters_ok (self : Agent) (tau_arg : option R)
    (n_obs n_crit f1 f2 na : nat) :
  agent_dims self n_obs n_crit f1 f2 na ->
  let tau' := match tau_arg with Some t => t | None => tau self end in
  _update_network_parameters self tau_arg
  = Ok (set_target_actor
          (set_target_critic self (blend_critic tau' (critic self) (target_critic self)))
          (blend_actor tau' (actor self) (target_actor self))).
Proof.
  intros (Ha & Hta & Hc & Htc) tau'.
  unfold _update_network_parameters. fold tau'.
  rewrite (blend_dict_critic tau' _ _ _ _ _ _ Hc Htc). simpl.
  rewrite (load_blend_critic tau' _ _ _ _ _ _ Hc Htc). simpl.
  rewrite (blend_dict_actor tau' _ _ _ _ _ _ Ha Hta). simpl.
  rewrite (load_blend_actor tau' _ _ _ _ _ _ Ha Hta). simpl.
  reflexivity.
Qed.

End SoftUpdate.

Lemma blend_scalar_one (o t : R) : blend_scalar 1 o t = o.
Proof. unfold blend_scalar. ring. Qed.

Lemma map2_blend_one (u v : Vec) :
  length u = length v -> map2 (blend_scalar 1) u v = u.
Proof.
  revert v. induction u as [|a u IH]; intros [|b v] E; simpl in *; try discriminate;
    [reflexivity|].
  rewrite blend_scalar_one, IH by lia. reflexivity.
Qed.

Lemma blend_Linear_one (l l' : Linear) (i o : nat) :
  Linear_dims l i o -> Linear_dims l' i o -> blend_Linear 1 l l' = l.
Proof.
  intros (Hwf & Hc & Hr & Hb) (Hwf' & Hc' & Hr' & Hb').
  unfold blend_Linear. destruct l as [[c rs] b], l' as [[c' rs'] b'].
  unfold mat_wf, nrows in *; simpl in *. subst c c'.
  rewrite map2_blend_one by congruence.
  f_equal. f_equal.
  assert (El : length rs = length rs') by congruence. clear - Hwf Hwf' El.
  revert rs' Hwf' El. induction Hwf as [|r rs Hr _ IH]; intros [|r' rs'] Hwf' El;
    simpl in *; try discriminate; [reflexivity|].
  inversion Hwf' as [|? ? Hr' Hrs']; subst.
  rewrite map2_blend_one by congruence. f_equal. apply IH; [assumption | lia].
Qed.

Lemma blend_LayerNorm_one_params (prefix : string) (l l' : LayerNorm) (n : nat) :
  LayerNorm_dims l n -> LayerNorm_dims l' n ->
  LayerNorm_params prefix (blend_LayerNorm 1 l l') = LayerNorm_params prefix l.
Proof.
  intros (_ & Hw & Hb) (_ & Hw' & Hb').
  unfold LayerNorm_params, blend_LayerNorm; simpl.
  rewrite !map2_blend_one by congruence. reflexivity.
Qed.

Lemma draw_uniform_mat_dims (g : RNG) (r c : nat) (a b : R) :
  mat_wf (fst (draw_uniform_mat g r c a b)) /\
  nrows (fst (draw_uniform_mat g r c a b)) = r /\
  ncols (fst (draw_uniform_mat g r c a b)) = c.
Proof.
  unfold draw_uniform_mat, mat_wf, nrows; simpl.
  rewrite length_map, length_seq. repeat split.
  apply Forall_forall. intros x Hx. apply list_elem_of_In, in_map_iff in Hx.
  destruct Hx as (i & <- & _). now rewrite length_map, length_seq.
Qed.

Lemma nn_Linear_dims (g g' : RNG) (i o : nat) (l : Linear) :
  nn_Linear g i o = (l, g') -> Linear_dims l i o.
Proof.
  unfold nn_Linear.
  set (bound := if i =? 0 then _ else _).
  pose proof (draw_uniform_mat_dims g o i (- bound) bound) as (Hwf & Hr & Hc).
  destruct (draw_uniform_mat g o i (- bound) bound) as [w g1]; simpl in *.
  destruct (draw_uniform g1 o (- bound) bound) as [b g2] eqn:Eb.
  intros E. injection E as <- <-.
  unfold Linear_dims; simpl. repeat split; try assumption.
  unfold draw_uniform in Eb. injection Eb as <- _.
  now rewrite length_map, length_seq.
Qed.

Lemma init_uniform_dims (g g' : RNG) (l l' : Linear) (f : R) (i o : nat) :
  Linear_dims l i o -> init_uniform_ g l f = (l', g') -> Linear_dims l' i o.
Proof.
  intros (_ & Hc & Hr & Hb). unfold init_uniform_.
  pose proof (draw_uniform_mat_dims g (nrows (weight l)) (ncols (weight l)) (- f) f)
    as (Hwf' & Hr' & Hc').
  destruct (draw_uniform_mat g _ _ (- f) f) as [w g1]; simpl in *.
  destruct (draw_uniform g1 (length (bias l)) (- f) f) as [b g2] eqn:Eb.
  intros E. injection E as <- <-.
  unfold Linear_dims; simpl. repeat split; try congruence.
  unfold draw_uniform in Eb. injection Eb as <- _.
  rewrite length_map, length_seq. exact Hb.
Qed.

Lemma nn_LayerNorm_dims (n : nat) : LayerNorm_dims (nn_LayerNorm n) n.
Proof. unfold LayerNorm_dims, nn_LayerNorm; simpl. now rewrite !repeat_length. Qed.

(** Two dictionaries with the same keys, blended entry by entry. *)
Lemma dict_get_blend_zip (tau : R) (d td : Dict) (name : string) (p t : Tensor) :
  dict_keys d = dict_keys td ->
  dict_get d name = Some p ->
  dict_get td name = Some t ->
  dict_get (blend_zip tau d td) name = Some (blend_value tau p t).
Proof.
  revert td. induction d as [|[k v] d IH]; intros [|[k' v'] td] Hk; simpl in *;
    try discriminate.
  injection Hk as <- Hk.
  destruct (String.eqb k name).
  - intros Hp Ht. injection Hp as <-. injection Ht as <-. reflexivity.
  - apply IH. exact Hk.
Qed.

Section Construction.
Context `{AG : Autograd}.

Lemma ActorNetwork_init_dims (g g' : RNG) (alpha : R) (n f1 f2 na : nat)
    (a : ActorNetwork) :
  ActorNetwork_init g alpha n f1 f2 na = (a, g') -> actor_dims a n f1 f2 na.
Proof.
  unfold ActorNetwork_init.
  destruct (nn_Linear g n f1) as [l1 g1] eqn:E1.
  destruct (init_uniform_ g1 l1 _) as [l1' g1'] eqn:E1'.
  destruct (nn_Linear g1' f1 f2) as [l2 g2] eqn:E2.
  destruct (init_uniform_ g2 l2 _) as [l2' g2'] eqn:E2'.
  destruct (nn_Linear g2' f2 na) as [l3 g3] eqn:E3.
  destruct (init_uniform_ g3 l3 _) as [l3' g3'] eqn:E3'.
  intros E. injection E as <- <-.
  unfold actor_dims; simpl.
  repeat split;
    eauto using nn_Linear_dims, init_uniform_dims, nn_LayerNorm_dims;
    try apply nn_LayerNorm_dims.
  all: eapply init_uniform_dims; [|eassumption]; eapply nn_Linear_dims; eassumption.
Qed.

Lemma CriticNetwork_init_dims (g g' : RNG) (beta : R) (n f1 f2 na : nat)
    (c : CriticNetwork) :
  CriticNetwork_init g beta n f1 f2 na = (c, g') -> critic_dims c n f1 f2 na.
Proof.
  unfold CriticNetwork_init.
  destruct (nn_Linear g n f1) as [l1 g1] eqn:E1.
  destruct (init_uniform_ g1 l1 _) as [l1' g1'] eqn:E1'.
  destruct (nn_Linear g1' f1 f2) as [l2 g2] eqn:E2.
  destruct (init_uniform_ g2 l2 _) as [l2' g2'] eqn:E2'.
  destruct (nn_Linear g2' na f2) as [l3 g3] eqn:E3.
  destruct (nn_Linear g3 f2 1) as [l4 g4] eqn:E4.
  destruct (init_uniform_ g4 l4 _) as [l4' g4'] eqn:E4'.
  intros E. injection E as <- <-.
  unfold critic_dims; simpl.
  split; [eapply init_uniform_dims; [|eassumption]; eapply nn_Linear_dims; eassumption|].
  split; [apply nn_LayerNorm_dims|].
  split; [eapply init_uniform_dims; [|eassumption]; eapply nn_Linear_dims; eassumption|].
  split; [apply nn_LayerNorm_dims|].
  split; [eapply nn_Linear_dims; eassumption|].
  eapply init_uniform_dims; [|eassumption]; eapply nn_Linear_dims; eassumption.
Qed.

Lemma blend_critic_one_params (c tc : CriticNetwork) (n f1 f2 na : nat) :
  critic_dims c n f1 f2 na -> critic_dims tc n f1 f2 na ->
  CriticNetwork_named_parameters (blend_critic 1 c tc)
  = CriticNetwork_named_parameters c.
Proof.
  intros (H1 & H2 & H3 & H4 & H5 & H6) (H1' & H2' & H3' & H4' & H5' & H6').
  unfold CriticNetwork_named_parameters, blend_critic.
  cbn [c_fc1 c_bn1 c_fc2 c_bn2 c_action_value c_q].
  rewrite (blend_Linear_one _ _ _ _ H1 H1'), (blend_Linear_one _ _ _ _ H3 H3'),
    (blend_Linear_one _ _ _ _ H5 H5'), (blend_Linear_one _ _ _ _ H6 H6').
  rewrite (blend_LayerNorm_one_params "bn1" _ _ _ H2 H2').
  rewrite (blend_LayerNorm_one_params "bn2" _ _ _ H4 H4').
  reflexivity.
Qed.

Lemma blend_actor_one_params (a ta : ActorNetwork) (n f1 f2 na : nat) :
  actor_dims a n f1 f2 na -> actor_dims ta n f1 f2 na ->
  ActorNetwork_named_parameters (blend_actor 1 a ta)
  = ActorNetwork_named_parameters a.
Proof.
  intros (H1 & H2 & H3 & H4 & H5) (H1' & H2' & H3' & H4' & H5').
  unfold ActorNetwork_named_parameters, blend_actor.
  cbn [a_fc1 a_bn1 a_fc2 a_bn2 a_mu].
  rewrite (blend_Linear_one _ _ _ _ H1 H1'), (blend_Linear_one _ _ _ _ H3 H3'),
    (blend_Linear_one _ _ _ _ H5 H5').
  rewrite (blend_LayerNorm_one_params "bn1" _ _ _ H2 H2').
  rewrite (blend_LayerNorm_one_params "bn2" _ _ _ H4 H4').
  reflexivity.
Qed.

Lemma blend_critic_by_name (tau : R) (c tc : CriticNetwork) (name : string)
    (p t : Tensor) :
  dict_get (CriticNetwork_named_parameters c) name = Some p ->
  dict_get (CriticNetwork_named_parameters tc) name = Some t ->
  dict_get (CriticNetwork_named_parameters (blend_critic tau c tc)) name
  = Some (blend_value tau p t).
Proof.
  change (CriticNetwork_named_parameters (blend_critic tau c tc))
    with (blend_zip tau (CriticNetwork_named_parameters c)
                    (CriticNetwork_named_parameters tc)).
  apply dict_get_blend_zip. reflexivity.
Qed.

Lemma blend_actor_by_name (tau : R) (a ta : ActorNetwork) (name : string)
    (p t : Tensor) :
  dict_get (ActorNetwork_named_parameters a) name = Some p ->
  dict_get (ActorNetwork_named_parameters ta) name = Some t ->
  dict_get (ActorNetwork_named_parameters (blend_actor tau a ta)) name
  = Some (blend_value tau p t).
Proof.
  change (ActorNetwork_named_parameters (blend_actor tau a ta))
    with (blend_zip tau (ActorNetwork_named_parameters a)
                    (ActorNetwork_named_parameters ta)).
  apply dict_get_blend_zip. reflexivity.
Qed.

End Construction.

Lemma blend_Linear_dims (tau : R) (l l' : Linear) (i o : nat) :
  Linear_dims l i o -> Linear_dims l' i o -> Linear_dims (blend_Linear tau l l') i o.
Proof.
  intros (Hwf & Hc & Hr & Hb) (Hwf' & Hc' & Hr' & Hb').
  unfold Linear_dims, blend_Linear, mat_wf, nrows in *; simpl.
  rewrite !map2_length by congruence.
  repeat split; try assumption.
  rewrite Hc. rewrite Hc in Hwf. rewrite Hc' in Hwf'.
  assert (El : length (rows (weight l)) = length (rows (weight l'))) by congruence.
  clear - Hwf Hwf' El.
  revert Hwf' El. generalize (rows (weight l')).
  induction Hwf as [|r rs Hr _ IH]; intros [|r' rs'] Hwf' El; simpl in *;
    try discriminate; constructor.
  - apply Forall_cons in Hwf' as [Hr' _].
    rewrite map2_length by congruence. exact Hr.
  - apply Forall_cons in Hwf' as [_ Hrs']. apply IH; [assumption | lia].
Qed.

Lemma blend_LayerNorm_dims (tau : R) (l l' : LayerNorm) (n : nat) :
  LayerNorm_dims l n -> LayerNorm_dims l' n ->
  LayerNorm_dims (blend_LayerNorm tau l l') n.
Proof.
  intros (Hn & Hw & Hb) (Hn' & Hw' & Hb').
  unfold LayerNorm_dims, blend_LayerNorm; simpl.
  rewrite !map2_length by congruence. repeat split; assumption.
Qed.

Section AgentConstruction.
Context `{AG : Autograd}.
Lemma blend_actor_dims (tau : R) (a ta : ActorNetwork) (n f1 f2 na : nat) :
  actor_dims a n f1 f2 na -> actor_dims ta n f1 f2 na ->
  actor_dims (blend_actor tau a ta) n f1 f2 na.
Proof.
  intros (H1 & H2 & H3 & H4 & H5) (H1' & H2' & H3' & H4' & H5').
  unfold actor_dims, blend_actor; cbn [a_fc1 a_bn1 a_fc2 a_bn2 a_mu].
  split; [apply blend_Linear_dims; assumption|].
  split; [apply blend_LayerNorm_dims; assumption|].
  split; [apply blend_Linear_dims; assumption|].
  split; [apply blend_LayerNorm_dims; assumption|].
  apply blend_Linear_dims; assumption.
Qed.

Lemma blend_critic_dims (tau : R) (c tc : CriticNetwork) (n f1 f2 na : nat) :
  critic_dims c n f1 f2 na -> critic_dims tc n f1 f2 na ->
  critic_dims (blend_critic tau c tc) n f1 f2 na.
Proof.
  intros (H1 & H2 & H3 & H4 & H5 & H6) (H1' & H2' & H3' & H4' & H5' & H6').
  unfold critic_dims, blend_critic;
    cbn [c_fc1 c_bn1 c_fc2 c_bn2 c_action_value c_q].
  split; [apply blend_Linear_dims; assumption|].
  split; [apply blend_LayerNorm_dims; assumption|].
  split; [apply blend_Linear_dims; assumption|].
  split; [apply blend_LayerNorm_dims; assumption|].
  split; apply blend_Linear_dims; assumption.
Qed.

Lemma Agent_Multi_init_ok (g : RNG) (lr_actor lr_critic : R)
    (own_input_shape : nat) (space : Box) (tau0 : R)
    (other_input_shapes other_actions_shapes : list nat)
    (gamma0 : R) (max_size layer1_size layer2_size batch : nat)
    (sigma0 theta0 : R) :
  length (low space) = length (high space) ->
  exists self g',
    Agent_Multi_init g lr_actor lr_critic own_input_shape space tau0
      other_input_shapes other_actions_shapes gamma0 max_size layer1_size
      layer2_size batch sigma0 theta0 = Ok (self, g') /\
    agent_dims self own_input_shape
      (own_input_shape + list_sum_nat other_input_shapes
       + list_sum_nat other_actions_shapes)
      layer1_size layer2_size (box_shape space) /\
    ActorNetwork_named_parameters (target_actor self)
    = ActorNetwork_named_parameters (actor self) /\
    CriticNetwork_named_parameters (target_critic self)
    = CriticNetwork_named_parameters (critic self) /\
    scale self = half (map2 Rminus (high space) (low space)) /\
    shift self = half (map2 Rplus (high space) (low space)) /\
    action_space self = space /\
    batch_size self = batch /\
    memory self = ReplayBuffer.init max_size own_input_shape (box_shape space).
Proof.
  intros Hl. unfold Agent_Multi_init.
  unfold np_sub, np_add. rewrite !np_binop_same by congruence.
  cbn [bind].
  destruct (ActorNetwork_init g _ _ _ _ _) as [a g1] eqn:Ea.
  destruct (CriticNetwork_init g1 _ _ _ _ _) as [c g2] eqn:Ec.
  destruct (ActorNetwork_init g2 _ _ _ _ _) as [ta g3] eqn:Eta.
  destruct (CriticNetwork_init g3 _ _ _ _ _) as [tc g4] eqn:Etc.
  apply ActorNetwork_init_dims in Ea, Eta.
  apply CriticNetwork_init_dims in Ec, Etc.
  match goal with
  | |- context [_update_network_parameters ?s ?t] =>
      assert (Hd : agent_dims s own_input_shape
                (own_input_shape + list_sum_nat other_input_shapes
                 + list_sum_nat other_actions_shapes)
                layer1_size layer2_size (box_shape space))
        by (unfold agent_dims; cbn [actor target_actor critic target_critic]; tauto);
      rewrite (update_network_parameters_ok s t _ _ _ _ _ Hd);
      clear Hd
  end.
  cbn [bind actor target_actor critic target_critic].
  eexists _, _. split; [reflexivity|].
  unfold set_target_actor, set_target_critic.
  cbn [actor target_actor critic target_critic scale shift action_space
       batch_size memory].
  split.
  { unfold agent_dims.
    cbn [actor target_actor critic target_critic].
    split; [assumption|]. split; [apply blend_actor_dims; assumption|].
    split; [assumption|]. apply blend_critic_dims; assumption. }
  split; [eapply blend_actor_one_params; eassumption|].
  split; [eapply blend_critic_one_params; eassumption|].
  repeat split.
Qed.
End AgentConstruction.

Section SoftUpdateClaim.
Context `{AG : Autograd}.

(** C5: on an agent whose networks have the shapes of its constructor,
    [_update_network_parameters] succeeds, leaves the online networks
    alone and sets every target parameter to the blend [tau * online +
    (1 - tau) * target] of the parameters of that name, for the critic
    pair and for the actor pair; with [tau = 1] the target parameters are
    the online parameters, and the constructors, which end with that
    call, return agents whose targets hold the online parameters. *)
Theorem C5_soft_update :
  (forall (self : Agent) (tau_arg : option R) (n_obs n_crit f1 f2 na : nat),
     agent_dims self n_obs n_crit f1 f2 na ->
     let tau' := match tau_arg with Some t => t | None => tau self end in
     exists self',
       _update_network_parameters self tau_arg = Ok self' /\
       actor self' = actor self /\ critic self' = critic self /\
       (forall name p t,
          dict_get (CriticNetwork_named_parameters (critic self)) name = Some p ->
          dict_get (CriticNetwork_named_parameters (target_critic self)) name = Some t ->
          dict_get (CriticNetwork_named_parameters (target_critic self')) name
          = Some (blend_value tau' p t)) /\
       (forall name p t,
          dict_get (ActorNetwork_named_parameters (actor self)) name = Some p ->
          dict_get (ActorNetwork_named_parameters (target_actor self)) name = Some t ->
          dict_get (ActorNetwork_named_parameters (target_actor self')) name
          = Some (blend_value tau' p t)) /\
       (tau' = 1%R ->
          CriticNetwork_named_parameters (target_critic self')
          = CriticNetwork_named_parameters (critic self) /\
          ActorNetwork_named_parameters (target_actor self')
          = ActorNetwork_named_parameters (actor self))) /\
  (forall (g : RNG) (lr_actor lr_critic : R) (own_input_shape : nat) (space : Box)
          (tau0 : R) (other_input_shapes other_actions_shapes : list nat)
          (gamma0 : R) (max_size layer1_size layer2_size batch : nat)
          (sigma0 theta0 : R),
     length (low space) = length (high space) ->
     exists self g',
       Agent_Multi_init g lr_actor lr_critic own_input_shape space tau0
         other_input_shapes other_actions_shapes gamma0 max_size layer1_size
         layer2_size batch sigma0 theta0 = Ok (self, g') /\
       CriticNetwork_named_parameters (target_critic self)
       = CriticNetwork_named_parameters (critic self) /\
       ActorNetwork_named_parameters (target_actor self)
       = ActorNetwork_named_parameters (actor self)).
Proof.
  split.
  - intros self tau_arg n_obs n_crit f1 f2 na Hd tau'.
    eexists. split; [exact (update_network_parameters_ok self tau_arg _ _ _ _ _ Hd)|].
    fold tau'.
    unfold set_target_actor, set_target_critic.
    cbn [actor critic target_actor target_critic].
    destruct Hd as (Ha & Hta & Hc & Htc).
    split; [reflexivity|]. split; [reflexivity|].
    split; [intros name p t; apply blend_critic_by_name|].
    split; [intros name p t; apply blend_actor_by_name|].
    intros ->. split.
    + eapply blend_critic_one_params; eassumption.
    + eapply blend_actor_one_params; eassumption.
  - intros g lr_actor lr_critic own_input_shape space tau0 ois oas gamma0
           max_size l1 l2 batch sigma0 theta0 Hl.
    destruct (Agent_Multi_init_ok g lr_actor lr_critic own_input_shape space tau0
                ois oas gamma0 max_size l1 l2 batch sigma0 theta0 Hl)
      as (self & g' & E & _ & Hpa & Hpc & _).
    exists self, g'. repeat split; assumption.
Qed.

End SoftUpdateClaim.

Lemma C5_soft_update_witness :
  exists self g',
    Agent_Multi_init (H := toy_optim) rng0 (1 / 10000) (1 / 1000) 3 unit_box
      (1 / 1000) [0] [0] (99 / 100) 10 2 2 4 (3 / 20) (1 / 5) = Ok (self, g') /\
    CriticNetwork_named_parameters (target_critic self)
    = CriticNetwork_named_parameters (critic self) /\
    ActorNetwork_named_parameters (target_actor self)
    = ActorNetwork_named_parameters (actor self).
Proof.
  exact (proj2 (C5_soft_update (H := toy_optim)) rng0 (1 / 10000)%R
           (1 / 1000)%R 3 unit_box (1 / 1000)%R [0] [0] (99 / 100)%R 10 2 2 4
           (3 / 20)%R (1 / 5)%R eq_refl).
Defined.

(** ** The guard of [learn] and the checkpoint functions *)

Section GuardAndCheckpoint.
Context `{AG : Autograd}.

(** C4: while the count of stored transitions is below the batch size,
    [learn] returns at once, for the single-agent and for the multi-agent
    class: the agent (all four networks with their optimizers, the
    buffer, the writer), every other agent of the heap and the random
    generator are returned as they were. *)
Theorem C4_learn_guard_noop :
  (forall (self : Agent) (g : RNG),
     ReplayBuffer.mem_cntr (memory self) < batch_size self ->
     Agent_Single_learn self g = Ok (self, g)) /\
  (forall (h : Heap) (g : RNG) (self : nat) (agents_list : list nat) (own_idx : nat),
     ReplayBuffer.mem_cntr (memory (h self)) < batch_size (h self) ->
     Agent_Multi_learn h g self agents_list own_idx = Ok (h, g)).
Proof.
  split.
  - intros self g Hlt. unfold Agent_Single_learn.
    apply Nat.ltb_lt in Hlt. now rewrite Hlt.
  - intros h g self agents_list own_idx Hlt. unfold Agent_Multi_learn.
    apply Nat.ltb_lt in Hlt. now rewrite Hlt.
Qed.

(** C7, what the code does: [save_models] raises [TypeError] for every
    agent, file system and file name, because [T.save] is called without
    the file; [init_from_save] raises [NameError] for every file, because
    it reads the unbound name [torch]; the dictionary that [save_models]
    builds has the seven keys of the claim. *)
Theorem C7_checkpoint_functions_raise :
  (forall (self : Agent) (fs : FileSystem) (filename : string),
     save_models self fs filename
     = Err (TypeError "save() missing 1 required positional argument: 'f'")) /\
  (forall (fs : FileSystem) (g : RNG) (filename : string),
     init_from_save fs g filename = Err (NameError "torch")) /\
  (forall self : Agent,
     map fst (agent_networks_state_dict self)
     = ["init_dict"; "actor"; "critic"; "target_actor"; "target_critic";
        "actor_optimizer"; "critic_optimizer"]).
Proof.
  split; [|split]; reflexivity.
Qed.

End GuardAndCheckpoint.

Lemma C4_learn_guard_noop_witness :
  Agent_Single_learn (AG := toy_autograd) (toy_agent 3 toy_memory3 4) rng0
  = Ok (toy_agent 3 toy_memory3 4, rng0) /\
  Agent_Multi_learn (AG := toy_autograd) (fun _ => toy_agent 7 toy_memory3 4) rng0 0
    [0; 1] 0
  = Ok (fun _ => toy_agent 7 toy_memory3 4, rng0).
Proof.
  split.
  - apply (proj1 (C4_learn_guard_noop (AG := toy_autograd))). simpl. lia.
  - apply (proj2 (C4_learn_guard_noop (AG := toy_autograd))). simpl. lia.
Defined.

(** ** Forward passes *)

Lemma map_map2 {A B C D : Type} (f : C -> D) (g : A -> B -> C) l1 l2 :
  map f (map2 g l1 l2) = map2 (fun x y => f (g x y)) l1 l2.
Proof.
  revert l2. induction l1 as [|a l1 IH]; intros [|b l2]; simpl; try reflexivity.
  now rewrite IH.
Qed.

Lemma Linear_row_length (l : Linear) (i o : nat) (x : Vec) :
  Linear_dims l i o -> length (Linear_row l x) = o.
Proof.
  intros (_ & _ & Hr & Hb). unfold Linear_row, nrows in *.
  rewrite map2_length; congruence.
Qed.

Lemma Linear_forward_ok (l : Linear) (i o : nat) (x : Mat) :
  Linear_dims l i o -> ncols x = i ->
  Linear_forward l x = Ok (mkMat o (map (Linear_row l) (rows x))).
Proof.
  intros (_ & Hc & Hr & Hb) Hx. unfold Linear_forward.
  rewrite Hx, Hc, Hb, Hr, !Nat.eqb_refl. reflexivity.
Qed.

Lemma LayerNorm_row_length (l : LayerNorm) (n : nat) (x : Vec) :
  LayerNorm_dims l n -> length x = n -> length (LayerNorm_row l x) = n.
Proof.
  intros (_ & Hw & Hb) Hx. unfold LayerNorm_row.
  set (normed := map _ x).
  assert (L1 : length normed = n) by (unfold normed; now rewrite length_map).
  assert (L2 : length (map2 Rmult normed (ln_weight l)) = n)
    by (rewrite map2_length; congruence).
  rewrite map2_length; congruence.
Qed.

Lemma LayerNorm_forward_ok (l : LayerNorm) (n : nat) (x : Mat) :
  LayerNorm_dims l n -> ncols x = n ->
  LayerNorm_forward l x = Ok (mkMat n (map (LayerNorm_row l) (rows x))).
Proof.
  intros (Hn & Hw & Hb) Hx. unfold LayerNorm_forward.
  rewrite Hx, Hn, Hw, Hb, !Nat.eqb_refl. reflexivity.
Qed.

Lemma tanh_bounds (x : R) : (-1 < tanh x < 1)%R.
Proof.
  unfold tanh, sinh, cosh.
  pose proof (exp_pos x) as Hp. pose proof (exp_pos (- x)) as Hn.
  set (N := ((exp x - exp (- x)) / 2)%R).
  set (D := ((exp x + exp (- x)) / 2)%R).
  assert (Hd : (0 < D)%R) by (unfold D; lra).
  assert (E : (N / D * D = N)%R) by (field; lra).
  split; apply Rmult_lt_reg_r with D; try exact Hd; rewrite E; unfold N, D; lra.
Qed.

Section Forward.
Context `{AG : Autograd}.

Lemma ActorNetwork_forward_ok (a : ActorNetwork) (n f1 f2 na : nat) (x : Mat) :
  actor_dims a n f1 f2 na -> ncols x = n ->
  ActorNetwork_forward a x = Ok (mkMat na (map (ActorNetwork_row a) (rows x))).
Proof.
  intros (H1 & H2 & H3 & H4 & H5) Hx. unfold ActorNetwork_forward.
  rewrite (Linear_forward_ok _ _ _ _ H1 Hx). cbn [bind].
  rewrite (LayerNorm_forward_ok _ _ _ H2) by reflexivity. cbn [bind].
  rewrite (Linear_forward_ok _ _ _ _ H3) by reflexivity. cbn [bind].
  rewrite (LayerNorm_forward_ok _ _ _ H4) by reflexivity. cbn [bind].
  rewrite (Linear_forward_ok _ _ _ _ H5) by reflexivity. cbn [bind].
  unfold T_tanh, F_relu, mat_map. cbn [ncols rows].
  rewrite !map_map. reflexivity.
Qed.

Lemma ActorNetwork_row_length (a : ActorNetwork) (n f1 f2 na : nat) (x : Vec) :
  actor_dims a n f1 f2 na -> length (ActorNetwork_row a x) = na.
Proof.
  intros (_ & _ & _ & _ & H5). unfold ActorNetwork_row.
  rewrite length_map. eapply Linear_row_length; eassumption.
Qed.

Lemma ActorNetwork_row_bounds (a : ActorNetwork) (x : Vec) :
  Forall (fun y => (-1 < y < 1)%R) (ActorNetwork_row a x).
Proof.
  unfold ActorNetwork_row. apply Forall_forall. intros y Hy.
  apply list_elem_of_In, in_map_iff in Hy. destruct Hy as (z & <- & _).
  apply tanh_bounds.
Qed.

Lemma CriticNetwork_row_length (c : CriticNetwork) (n f1 f2 na : nat) (s a : Vec) :
  critic_dims c n f1 f2 na -> length (CriticNetwork_row c s a) = 1.
Proof.
  intros (_ & _ & _ & _ & _ & H6). unfold CriticNetwork_row.
  eapply Linear_row_length; eassumption.
Qed.

Lemma CriticNetwork_forward_ok (c : CriticNetwork) (n f1 f2 na : nat) (s a : Mat) :
  critic_dims c n f1 f2 na -> ncols s = n -> ncols a = na -> nrows s = nrows a ->
  CriticNetwork_forward c s a
  = Ok (mkMat 1 (map2 (CriticNetwork_row c) (rows s) (rows a))).
Proof.
  intros (H1 & H2 & H3 & H4 & H5 & H6) Hs Ha Hr. unfold CriticNetwork_forward.
  rewrite (Linear_forward_ok _ _ _ _ H1 Hs). cbn [bind].
  rewrite (LayerNorm_forward_ok _ _ _ H2) by reflexivity. cbn [bind].
  rewrite (Linear_forward_ok _ _ _ _ H3) by reflexivity. cbn [bind].
  rewrite (LayerNorm_forward_ok _ _ _ H4) by reflexivity. cbn [bind].
  rewrite (Linear_forward_ok _ _ _ _ H5 Ha). cbn [bind].
  unfold T_add. rewrite T_binop_same.
  - cbn [bind]. rewrite (Linear_forward_ok _ _ _ _ H6) by reflexivity.
    unfold F_relu, mat_map. cbn [ncols rows].
    rewrite !map_map, map2_map_l, map2_map_r, map_map2. reflexivity.
  - unfold mat_wf, F_relu, mat_map. cbn [ncols rows]. rewrite !map_map.
    apply Forall_forall. intros r Hin.
    apply list_elem_of_In, in_map_iff in Hin. destruct Hin as (x & <- & _).
    apply (LayerNorm_row_length _ _ _ H4).
    eapply Linear_row_length; eassumption.
  - unfold mat_wf, F_relu, mat_map. cbn [ncols rows]. rewrite !map_map.
    apply Forall_forall. intros r Hin.
    apply list_elem_of_In, in_map_iff in Hin. destruct Hin as (x & <- & _).
    rewrite length_map. eapply Linear_row_length; eassumption.
  - unfold nrows, F_relu, mat_map in *. cbn [ncols rows].
    rewrite !length_map. exact Hr.
  - reflexivity.
Qed.

End Forward.

(** ** Sampling *)

Lemma np_random_choice_ok (g : RNG) (a size : nat) :
  0 < a \/ size = 0 ->
  exists idxs g',
    np_random_choice g a size = Ok (idxs, g') /\
    length idxs = size /\
    Forall (fun i => i < a) idxs.
Proof.
  intros Ha. unfold np_random_choice.
  assert (E : (a =? 0) && negb (size =? 0) = false).
  { destruct Ha as [Ha | ->].
    - destruct (Nat.eqb_spec a 0); [lia | reflexivity].
    - simpl. apply andb_false_r. }
  rewrite E. eexists _, _. split; [reflexivity|].
  split; [now rewrite length_map, length_seq|].
  apply Forall_forall. intros i Hi.
  apply list_elem_of_In, in_map_iff in Hi. destruct Hi as (k & <- & Hk).
  destruct Ha as [Ha | ->]; [apply Nat.mod_upper_bound; lia|].
  simpl in Hk. contradiction.
Qed.

Lemma take_ok {A : Type} (mem : list A) (idxs : list nat) :
  Forall (fun i => i < length mem) idxs ->
  exists l,
    ReplayBuffer.take mem idxs = Ok l /\
    length l = length idxs /\
    (forall k i, idxs !! k = Some i -> l !! k = mem !! i).
Proof.
  unfold ReplayBuffer.take.
  induction idxs as [|i idxs IH]; intros Hf.
  - exists []. simpl. repeat split. intros k i H. rewrite lookup_nil in H. discriminate.
  - apply Forall_cons in Hf as [Hi Hf].
    destruct (IH Hf) as (l & E & Hl & Hk).
    destruct (lookup_lt_is_Some_2 mem i Hi) as (x & Hx).
    exists (x :: l). simpl. unfold py_index at 1. rewrite Hx. simpl.
    rewrite E. simpl. split; [reflexivity|]. split; [now rewrite Hl|].
    intros [|k] j Hj; simpl in *.
    + injection Hj as <-. now rewrite Hx.
    + now apply Hk.
Qed.

Lemma take_rows_ok (mem : Mat) (idxs : list nat) :
  Forall (fun i => i < nrows mem) idxs ->
  exists l,
    ReplayBuffer.take_rows mem idxs = Ok (mkMat (ncols mem) l) /\
    length l = length idxs /\
    (forall k i, idxs !! k = Some i -> l !! k = rows mem !! i).
Proof.
  intros Hf. destruct (take_ok (rows mem) idxs Hf) as (l & E & Hl & Hk).
  exists l. unfold ReplayBuffer.take_rows. rewrite E. simpl. auto.
Qed.

Lemma get_samples_ok (b : ReplayBuffer.t) (idxs : list nat) :
  buffer_wf b ->
  Forall (fun i => i < ReplayBuffer.mem_size b) idxs ->
  exists s,
    ReplayBuffer.get_samples_from_buffer b idxs = Ok s /\
    ncols (ReplayBuffer.s_obs s) = ncols (ReplayBuffer.obs_memory b) /\
    ncols (ReplayBuffer.s_actions s) = ncols (ReplayBuffer.action_memory b) /\
    ncols (ReplayBuffer.s_obs_next s) = ncols (ReplayBuffer.obs_next_memory b) /\
    nrows (ReplayBuffer.s_obs s) = length idxs /\
    nrows (ReplayBuffer.s_actions s) = length idxs /\
    nrows (ReplayBuffer.s_obs_next s) = length idxs /\
    length (ReplayBuffer.s_rewards s) = length idxs /\
    length (ReplayBuffer.s_terminal s) = length idxs /\
    (forall k i, idxs !! k = Some i ->
       rows (ReplayBuffer.s_obs s) !! k = rows (ReplayBuffer.obs_memory b) !! i /\
       rows (ReplayBuffer.s_actions s) !! k = rows (ReplayBuffer.action_memory b) !! i /\
       ReplayBuffer.s_rewards s !! k = ReplayBuffer.reward_memory b !! i /\
       rows (ReplayBuffer.s_obs_next s) !! k
       = rows (ReplayBuffer.obs_next_memory b) !! i /\
       ReplayBuffer.s_terminal s !! k = ReplayBuffer.terminal_memory b !! i).
Proof.
  intros (Hpos & Ho & Hn & Ha & Hr & Ht) Hf.
  destruct (take_rows_ok (ReplayBuffer.obs_memory b) idxs) as (lo & Eo & Lo & Ko);
    [now rewrite Ho|].
  destruct (take_rows_ok (ReplayBuffer.action_memory b) idxs) as (la & Ea & La & Ka);
    [now rewrite Ha|].
  destruct (take_ok (ReplayBuffer.reward_memory b) idxs) as (lr & Er & Lr & Kr);
    [now rewrite Hr|].
  destruct (take_rows_ok (ReplayBuffer.obs_next_memory b) idxs) as (ln & En & Ln & Kn);
    [now rewrite Hn|].
  destruct (take_ok (ReplayBuffer.terminal_memory b) idxs) as (lt & Et & Lt & Kt);
    [now rewrite Ht|].
  eexists. unfold ReplayBuffer.get_samples_from_buffer.
  rewrite Eo; cbn [bind]. rewrite Ea; cbn [bind]. rewrite Er; cbn [bind].
  rewrite En; cbn [bind]. rewrite Et; cbn [bind].
  split; [reflexivity|]. unfold nrows.
  cbn [ReplayBuffer.s_obs ReplayBuffer.s_actions ReplayBuffer.s_rewards
       ReplayBuffer.s_obs_next ReplayBuffer.s_terminal ncols rows].
  do 8 (split; [first [reflexivity | assumption]|]).
  intros k i Hk.
  split; [now apply Ko|]. split; [now apply Ka|]. split; [now apply Kr|].
  split; [now apply Kn | now apply Kt].
Qed.

(** ** The TD target *)

Lemma view_col_ok (v : Vec) (b : nat) :
  length v = b -> view_col v b = Ok (mkMat 1 (map (fun x => [x]) v)).
Proof. intros E. unfold view_col. apply Nat.eqb_eq in E. now rewrite E. Qed.

Lemma col_wf (v : Vec) : mat_wf (mkMat 1 (map (fun x => [x]) v)).
Proof.
  unfold mat_wf; simpl. apply Forall_forall. intros r Hr.
  apply list_elem_of_In, in_map_iff in Hr. now destruct Hr as (x & <- & _).
Qed.

Lemma bootstrap_rows (gamma : R) (qrows : list Vec) (done : Vec) :
  Forall (fun q => length q = 1) qrows ->
  map2 (map2 Rmult) (map (map (Rmult gamma)) qrows) (map (fun x => [x]) done)
  = map2 (fun q d => [(gamma * hd 0 q * d)%R]) qrows done.
Proof.
  intros Hq. revert done. induction Hq as [|q qrows Hq _ IH]; intros [|d done];
    simpl; try reflexivity.
  rewrite IH. destruct q as [|x [|y q]]; simpl in *; try discriminate. reflexivity.
Qed.

Lemma td_rows (gamma : R) (reward : Vec) (qrows : list Vec) (done : Vec) :
  map2 (map2 Rplus) (map (fun x => [x]) reward)
       (map2 (fun q d => [(gamma * hd 0 q * d)%R]) qrows done)
  = map3 (fun r q d => [(r + gamma * hd 0 q * d)%R]) reward qrows done.
Proof.
  revert qrows done. induction reward as [|r reward IH]; intros [|q qrows] [|d done];
    simpl; try reflexivity.
  now rewrite IH.
Qed.

Section TDTarget.
Context `{AG : Autograd}.

Lemma bootstrap_ok (B : nat) (gamma : R) (qrows : list Vec) (done : Vec) :
  length qrows = B -> length done = B ->
  Forall (fun q => length q = 1) qrows ->
  bootstrap B gamma (mkMat 1 qrows) done
  = Ok (mkMat 1 (map2 (fun q d => [(gamma * hd 0 q * d)%R]) qrows done)).
Proof.
  intros Lq Ld Hq. unfold bootstrap.
  rewrite (view_col_ok _ _ Ld). cbn [bind].
  unfold T_mul. rewrite T_binop_same.
  - unfold mat_map. cbn [ncols rows]. now rewrite bootstrap_rows.
  - apply mat_map_wf. exact Hq.
  - apply col_wf.
  - unfold nrows, mat_map. cbn [rows]. rewrite !length_map. congruence.
  - reflexivity.
Qed.

Lemma td_target_ok (B : nat) (gamma : R) (reward : Vec) (qrows : list Vec)
    (done : Vec) :
  length reward = B -> length qrows = B -> length done = B ->
  Forall (fun q => length q = 1) qrows ->
  td_target B gamma reward (mkMat 1 qrows) done
  = Ok (mkMat 1 (map3 (fun r q d => [(r + gamma * hd 0 q * d)%R]) reward qrows done)).
Proof.
  intros Lr Lq Ld Hq. unfold td_target.
  rewrite (view_col_ok _ _ Lr). cbn [bind].
  rewrite (bootstrap_ok B gamma qrows done Lq Ld Hq). cbn [bind].
  unfold T_add. rewrite T_binop_same.
  - cbn [ncols rows]. now rewrite td_rows.
  - apply col_wf.
  - unfold mat_wf. cbn [ncols rows]. apply Forall_forall. intros r Hr.
    revert Hr. clear. revert done.
    induction qrows as [|q qrows IH]; intros [|d done] Hr; simpl in *;
      try (apply elem_of_nil in Hr; contradiction).
    apply elem_of_cons in Hr as [-> | Hr]; [reflexivity | eapply IH; eassumption].
  - unfold nrows. cbn [rows]. rewrite length_map, map2_length; congruence.
  - reflexivity.
Qed.

End TDTarget.

Lemma lookup_map3 {A B C D : Type} (f : A -> B -> C -> D) l1 l2 l3 k a b c :
  l1 !! k = Some a -> l2 !! k = Some b -> l3 !! k = Some c ->
  map3 f l1 l2 l3 !! k = Some (f a b c).
Proof.
  revert l2 l3 k. induction l1 as [|x l1 IH]; intros [|y l2] [|z l3] k H1 H2 H3;
    try (rewrite lookup_nil in H1; discriminate);
    try (rewrite lookup_nil in H2; discriminate);
    try (rewrite lookup_nil in H3; discriminate).
  destruct k as [|k]; simpl in *.
  - injection H1 as <-. injection H2 as <-. injection H3 as <-. reflexivity.
  - now apply IH.
Qed.

Lemma length_map3 {A B C D : Type} (f : A -> B -> C -> D) l1 l2 l3 :
  length l1 = length l2 -> length l2 = length l3 ->
  length (map3 f l1 l2 l3) = length l1.
Proof.
  revert l2 l3. induction l1 as [|x l1 IH]; intros [|y l2] [|z l3] E1 E2;
    simpl in *; try discriminate; try reflexivity.
  f_equal. apply IH; lia.
Qed.

Lemma lookup_map2 {A B C : Type} (f : A -> B -> C) l1 l2 k a b :
  l1 !! k = Some a -> l2 !! k = Some b -> map2 f l1 l2 !! k = Some (f a b).
Proof.
  revert l2 k. induction l1 as [|x l1 IH]; intros [|y l2] k H1 H2;
    try (rewrite lookup_nil in H1; discriminate);
    try (rewrite lookup_nil in H2; discriminate).
  destruct k as [|k]; simpl in *.
  - injection H1 as <-. injection H2 as <-. reflexivity.
  - now apply IH.
Qed.

Section SingleLearn.
Context `{AG : Autograd}.


Lemma critic_rows_length (c : CriticNetwork) (n f1 f2 na : nat)
    (l1 l2 : list (list R)) :
  critic_dims c n f1 f2 na ->
  Forall (fun q => length q = 1) (map2 (CriticNetwork_row c) l1 l2).
Proof.
  intros Hc. revert l2.
  induction l1 as [|x l1 IH]; intros [|y l2]; simpl; try constructor.
  - eapply CriticNetwork_row_length; exact Hc.
  - apply IH.
Qed.

(** The step of [Agent_Single.learn] up to the TD target. *)
Lemma single_learn_target (self : Agent) (g : RNG) (n_obs f1 f2 na : nat) :
  single_agent_ok self n_obs f1 f2 na ->
  batch_size self <= ReplayBuffer.mem_cntr (memory self) ->
  exists batch_idxs g1 s target_value critic_value,
    ReplayBuffer.get_batch_idxs (memory self) g (batch_size self)
    = Ok (batch_idxs, g1) /\
    length batch_idxs = batch_size self /\
    ReplayBuffer.get_samples_from_buffer (memory self) batch_idxs = Ok s /\
    single_values (eval_mode self) s = Ok (target_value, critic_value) /\
    Agent_Single_learn self g
    = (let* self' := update_networks (eval_mode self) target_value critic_value
                       (ReplayBuffer.s_obs s) (ReplayBuffer.s_actions s)
                       (ReplayBuffer.s_obs s) in
       Ok (self', g1)) /\
    ncols target_value = 1 /\
    nrows target_value = batch_size self /\
    (forall k i r s' m,
       batch_idxs !! k = Some i ->
       ReplayBuffer.reward_memory (memory self) !! i = Some r ->
       rows (ReplayBuffer.obs_next_memory (memory self)) !! i = Some s' ->
       ReplayBuffer.terminal_memory (memory self) !! i = Some m ->
       rows target_value !! k
       = Some [(r + gamma self
                    * target_q (target_actor self) (target_critic self) s' * m)%R]).
Proof.
  intros ((Ha & Hta & Hc & Htc) & Hwf & Mo & Mn & Mact) Hguard.
  pose proof Hwf as (Hpos & _).
  destruct (np_random_choice_ok g
              (Nat.min (ReplayBuffer.mem_cntr (memory self))
                       (ReplayBuffer.mem_size (memory self)))
              (batch_size self)) as (idxs & g1 & Ech & Lidx & Hidx);
    [lia|].
  assert (Hidx' : Forall (fun i => i < ReplayBuffer.mem_size (memory self)) idxs).
  { eapply Forall_impl; [exact Hidx|]. simpl. intros; lia. }
  destruct (get_samples_ok (memory self) idxs Hwf Hidx')
    as (s & Es & Co & Ca & Cn & Ro & Ra & Rn & Lr & Lt & Hk).
  set (ta := target_actor (eval_mode self)).
  set (tc := target_critic (eval_mode self)).
  assert (Eta : ActorNetwork_forward ta (ReplayBuffer.s_obs_next s)
                = Ok (mkMat na (map (ActorNetwork_row ta)
                                    (rows (ReplayBuffer.s_obs_next s))))).
  { eapply ActorNetwork_forward_ok; [exact Hta | congruence]. }
  assert (Etc : CriticNetwork_forward tc (ReplayBuffer.s_obs_next s)
                  (mkMat na (map (ActorNetwork_row ta)
                                 (rows (ReplayBuffer.s_obs_next s))))
                = Ok (mkMat 1 (map2 (CriticNetwork_row tc)
                         (rows (ReplayBuffer.s_obs_next s))
                         (map (ActorNetwork_row ta)
                              (rows (ReplayBuffer.s_obs_next s)))))).
  { eapply CriticNetwork_forward_ok; [exact Htc | congruence | reflexivity|].
    unfold nrows. cbn [rows]. now rewrite length_map. }
  assert (Ecv : CriticNetwork_forward (critic (eval_mode self))
                  (ReplayBuffer.s_obs s) (ReplayBuffer.s_actions s)
                = Ok (mkMat 1 (map2 (CriticNetwork_row (critic (eval_mode self)))
                         (rows (ReplayBuffer.s_obs s))
                         (rows (ReplayBuffer.s_actions s))))).
  { eapply CriticNetwork_forward_ok; [exact Hc | congruence | congruence | congruence]. }
  set (qrows := map2 (CriticNetwork_row tc) (rows (ReplayBuffer.s_obs_next s))
                  (map (ActorNetwork_row ta) (rows (ReplayBuffer.s_obs_next s)))) in *.
  assert (Lq : length qrows = batch_size self).
  { unfold qrows. rewrite map2_length; [|now rewrite length_map].
    unfold nrows in Rn. congruence. }
  assert (Hq : Forall (fun q => length q = 1) qrows).
  { unfold qrows. eapply critic_rows_length. exact Htc. }
  assert (Etd : td_target (batch_size self) (gamma self) (ReplayBuffer.s_rewards s)
                  (mkMat 1 qrows) (ReplayBuffer.s_terminal s)
                = Ok (mkMat 1 (map3 (fun r q d => [(r + gamma self * hd 0 q * d)%R])
                         (ReplayBuffer.s_rewards s) qrows (ReplayBuffer.s_terminal s)))).
  { apply td_target_ok; congruence. }
  eexists idxs, g1, s, _, _.
  split; [exact Ech|]. split; [exact Lidx|]. split; [exact Es|].
  assert (Esv : single_values (eval_mode self) s
                = Ok (mkMat 1 (map3 (fun r q d => [(r + gamma self * hd 0 q * d)%R])
                         (ReplayBuffer.s_rewards s) qrows (ReplayBuffer.s_terminal s)),
                      mkMat 1 (map2 (CriticNetwork_row (critic (eval_mode self)))
                         (rows (ReplayBuffer.s_obs s))
                         (rows (ReplayBuffer.s_actions s))))).
  { unfold single_values. fold ta tc.
    rewrite Eta. cbn [bind]. rewrite Etc. cbn [bind]. rewrite Ecv. cbn [bind].
    change (batch_size (eval_mode self)) with (batch_size self).
    change (gamma (eval_mode self)) with (gamma self).
    rewrite Etd. reflexivity. }
  split; [exact Esv|].
  split.
  { unfold Agent_Single_learn.
    destruct (Nat.ltb_spec (ReplayBuffer.mem_cntr (memory self)) (batch_size self));
      [lia|].
    unfold ReplayBuffer.get_batch_idxs. rewrite Ech. cbn [bind].
    rewrite Es. cbn [bind]. rewrite Esv. cbn [bind]. reflexivity. }
  split; [reflexivity|].
  split.
  { unfold nrows. cbn [rows]. rewrite length_map3; congruence. }
  intros k i r s' m Hki Hr Hs' Hm.
  destruct (Hk k i Hki) as (_ & _ & Kr & Kn & Kt).
  cbn [rows].
  erewrite lookup_map3; [reflexivity | congruence | | congruence].
  unfold qrows. erewrite lookup_map2; [reflexivity | congruence |].
  rewrite list_lookup_fmap. rewrite Kn, Hs'. reflexivity.
Qed.

End SingleLearn.

(** ** Row counts through the multi-agent step *)

Lemma mapM_Forall2 {A B : Type} (f : A -> Res B) (l : list A) (l' : list B) :
  mapM f l = Ok l' -> Forall2 (fun a b => f a = Ok b) l l'.
Proof.
  revert l'. induction l as [|a l IH]; intros l' E; simpl in E.
  - injection E as <-. constructor.
  - destruct (f a) as [b|e] eqn:Ef; simpl in E; [|discriminate].
    destruct (mapM f l) as [bs|e] eqn:Em; simpl in E; [|discriminate].
    injection E as <-. constructor; [exact Ef | now apply IH].
Qed.

Lemma mapM_length {A B : Type} (f : A -> Res B) (l : list A) (l' : list B) :
  mapM f l = Ok l' -> length l' = length l.
Proof.
  intros E. apply mapM_Forall2 in E. symmetry. eapply Forall2_length. exact E.
Qed.

Lemma take_rows_nrows (mem : Mat) (idxs : list nat) (m : Mat) :
  ReplayBuffer.take_rows mem idxs = Ok m -> nrows m = length idxs.
Proof.
  unfold ReplayBuffer.take_rows, ReplayBuffer.take.
  destruct (mapM _ idxs) as [rs|e] eqn:E; simpl; [|discriminate].
  intros E'. injection E' as <-. unfold nrows; simpl.
  eapply mapM_length; exact E.
Qed.

Lemma get_samples_nrows (b : ReplayBuffer.t) (idxs : list nat)
    (s : ReplayBuffer.samples) :
  ReplayBuffer.get_samples_from_buffer b idxs = Ok s ->
  nrows (ReplayBuffer.s_obs s) = length idxs /\
  nrows (ReplayBuffer.s_actions s) = length idxs /\
  nrows (ReplayBuffer.s_obs_next s) = length idxs.
Proof.
  unfold ReplayBuffer.get_samples_from_buffer.
  destruct (ReplayBuffer.take_rows (ReplayBuffer.obs_memory b) idxs) eqn:E1;
    simpl; [|discriminate].
  destruct (ReplayBuffer.take_rows (ReplayBuffer.action_memory b) idxs) eqn:E2;
    simpl; [|discriminate].
  destruct (ReplayBuffer.take (ReplayBuffer.reward_memory b) idxs) eqn:E3;
    simpl; [|discriminate].
  destruct (ReplayBuffer.take_rows (ReplayBuffer.obs_next_memory b) idxs) eqn:E4;
    simpl; [|discriminate].
  destruct (ReplayBuffer.take (ReplayBuffer.terminal_memory b) idxs) eqn:E5;
    simpl; [|discriminate].
  intros E. injection E as <-. simpl.
  repeat split; eapply take_rows_nrows; eassumption.
Qed.

Lemma Linear_forward_nrows (l : Linear) (x y : Mat) :
  Linear_forward l x = Ok y -> nrows y = nrows x.
Proof.
  unfold Linear_forward. destruct (_ && _); [|discriminate].
  intros E. injection E as <-. unfold nrows; simpl. apply length_map.
Qed.

Lemma LayerNorm_forward_nrows (l : LayerNorm) (x y : Mat) :
  LayerNorm_forward l x = Ok y -> nrows y = nrows x.
Proof.
  unfold LayerNorm_forward. destruct (_ && _); [|discriminate].
  intros E. injection E as <-. unfold nrows; simpl. apply length_map.
Qed.

Lemma mat_map_nrows (f : R -> R) (m : Mat) : nrows (mat_map f m) = nrows m.
Proof. unfold nrows, mat_map; simpl. apply length_map. Qed.

Lemma cat_pair1_nrows (a b m : Mat) :
  cat_pair1 a b = Ok m -> nrows b = nrows a /\ nrows m = nrows a.
Proof.
  unfold cat_pair1. destruct (Nat.eqb_spec (nrows a) (nrows b)) as [E|]; [|discriminate].
  intros E'. injection E' as <-. split; [congruence|].
  unfold nrows in *; simpl. apply map2_length. exact E.
Qed.

Lemma cat_pair1_mismatch (a b : Mat) :
  nrows a <> nrows b ->
  cat_pair1 a b
  = Err (RuntimeError "Sizes of tensors must match except in dimension 1").
Proof.
  intros Hne. unfold cat_pair1.
  destruct (Nat.eqb_spec (nrows a) (nrows b)); [contradiction | reflexivity].
Qed.

Lemma fold_cat_err (pair : Mat -> Mat -> Res Mat) (ts : list Mat) (e : PyError) :
  fold_left (fun acc x => let* a := acc in pair a x) ts (Err e) = Err e.
Proof. induction ts as [|t ts IH]; simpl; [reflexivity | exact IH]. Qed.

Lemma T_cat1_nrows (ts : list Mat) (m : Mat) (n : nat) :
  T_cat1 ts = Ok m -> Forall (fun t => nrows t = n) ts -> nrows m = n.
Proof.
  unfold T_cat1, T_cat_with. destruct ts as [|t ts]; [discriminate|].
  intros E Hf. apply Forall_cons in Hf as [Ht _]. rewrite <- Ht. clear Ht.
  revert t E. induction ts as [|x ts IH]; intros t E; simpl in E.
  - now injection E as <-.
  - destruct (cat_pair1 t x) as [a|e] eqn:Ec; simpl in E.
    + apply cat_pair1_nrows in Ec as [_ Ea]. rewrite <- Ea. now apply IH.
    + rewrite fold_cat_err in E. discriminate.
Qed.

Lemma T_cat0_nrows (ts : list Mat) (m : Mat) :
  T_cat0 ts = Ok m -> nrows m = sum_nrows ts.
Proof.
  unfold T_cat0, T_cat_with, sum_nrows. destruct ts as [|t ts]; [discriminate|].
  simpl. revert t.
  induction ts as [|x ts IH]; intros t E; simpl in *.
  - injection E as <-. lia.
  - unfold cat_pair0 at 2 in E.
    destruct (ncols t =? ncols x); simpl in E.
    + apply IH in E. rewrite E. unfold nrows; simpl. rewrite length_app. lia.
    + rewrite fold_cat_err in E. discriminate.
Qed.

Lemma sum_nrows_const (ts : list Mat) (n : nat) :
  Forall (fun t => nrows t = n) ts -> sum_nrows ts = length ts * n.
Proof.
  unfold sum_nrows. induction 1 as [|t ts Ht _ IH]; simpl; [reflexivity|].
  rewrite IH, Ht. reflexivity.
Qed.

Lemma py_pop_spec {A : Type} (P : A -> Prop) (l : list A) (i : nat) (x : A)
    (rest : list A) :
  py_pop l i = Ok (x, rest) -> Forall P l ->
  P x /\ Forall P rest /\ S (length rest) = length l.
Proof.
  unfold py_pop. destruct (l !! i) as [y|] eqn:E; [|discriminate].
  intros E' Hf. injection E' as <- <-.
  split; [eapply Forall_lookup_1; eassumption|].
  split; [now apply Forall_delete|].
  rewrite length_delete by eauto. apply lookup_lt_Some in E. lia.
Qed.

Section MultiRows.
Context `{AG : Autograd}.

Lemma ActorNetwork_forward_nrows (a : ActorNetwork) (x y : Mat) :
  ActorNetwork_forward a x = Ok y -> nrows y = nrows x.
Proof.
  unfold ActorNetwork_forward.
  destruct (Linear_forward (a_fc1 a) x) as [x1|] eqn:E1; simpl; [|discriminate].
  destruct (LayerNorm_forward (a_bn1 a) x1) as [x2|] eqn:E2; simpl; [|discriminate].
  destruct (Linear_forward (a_fc2 a) (F_relu x2)) as [x3|] eqn:E3; simpl; [|discriminate].
  destruct (LayerNorm_forward (a_bn2 a) x3) as [x4|] eqn:E4; simpl; [|discriminate].
  destruct (Linear_forward (a_mu a) (F_relu x4)) as [x5|] eqn:E5; simpl; [|discriminate].
  intros E. injection E as <-.
  apply Linear_forward_nrows in E1, E3, E5. apply LayerNorm_forward_nrows in E2, E4.
  unfold T_tanh, F_relu in *. rewrite mat_map_nrows in *. congruence.
Qed.

(** When [learn] reaches the joint concatenation, the joint next state
    has one row per sampled index and the concatenated target actions
    of the others have that many rows for each other agent. *)
Lemma multi_inputs_rows (h h' : Heap) (agents_list : list nat) (own_idx : nat)
    (batch_idxs : list nat) (mi : MultiInputs) :
  multi_inputs h agents_list own_idx batch_idxs = Ok (mi, h') ->
  nrows (mi_new_state_t mi) = length batch_idxs /\
  nrows (mi_others_next_action mi)
  = (length agents_list - 1) * length batch_idxs.
Proof.
  unfold multi_inputs.
  destruct (mapM _ agents_list) as [samples_n|] eqn:Es; cbn [bind]; [|discriminate].
  assert (Ls : length samples_n = length agents_list) by (eapply mapM_length; exact Es).
  assert (Hs : Forall (fun s => nrows (ReplayBuffer.s_obs_next s) = length batch_idxs)
                      samples_n).
  { apply mapM_Forall2 in Es. clear Ls.
    induction Es as [|a s l l' Ha _ IH]; constructor; [|exact IH].
    now apply get_samples_nrows in Ha. }
  destruct samples_n as [|s0 samples_n]; [cbn; discriminate|].
  set (all := s0 :: samples_n) in *.
  destruct (T_cat1 (map ReplayBuffer.s_obs all)) as [state_t|] eqn:Est;
    cbn [bind]; [|discriminate].
  destruct (T_cat1 (map ReplayBuffer.s_obs_next all)) as [new_state_t|] eqn:Ens;
    cbn [bind]; [|discriminate].
  destruct (mapM _ (combine agents_list _)) as [tna|] eqn:Et; cbn [bind]; [|discriminate].
  destruct (py_pop tna own_idx) as [[own rest]|] eqn:Ep; cbn [bind]; [|discriminate].
  destruct (T_cat0 rest) as [others|] eqn:Eo; cbn [bind]; [|discriminate].
  intros E. injection E as <- _. cbn [mi_new_state_t mi_others_next_action].
  assert (Hn : Forall (fun t => nrows t = length batch_idxs)
                      (map ReplayBuffer.s_obs_next all)).
  { apply Forall_fmap. exact Hs. }
  split; [eapply T_cat1_nrows; eassumption|].
  assert (Lt : length tna = length agents_list).
  { apply mapM_length in Et. rewrite Et, length_combine, length_map.
    unfold all in *. lia. }
  assert (Ht : Forall (fun t => nrows t = length batch_idxs) tna).
  { apply mapM_Forall2 in Et. clear - Et Hn.
    assert (Hc : Forall (fun p : nat * Mat => nrows (snd p) = length batch_idxs)
                        (combine agents_list (map ReplayBuffer.s_obs_next all))).
    { apply Forall_forall. intros [a x] Hin. simpl.
      apply list_elem_of_In, in_combine_r in Hin.
      eapply Forall_forall in Hn; [exact Hn | now apply list_elem_of_In]. }
    induction Et as [|[a x] t l l' Hf _ IH]; constructor.
    - apply Forall_cons in Hc as [Hx _]. simpl in Hx.
      apply ActorNetwork_forward_nrows in Hf. congruence.
    - apply IH. now apply Forall_cons in Hc as [_ Hc]. }
  destruct (py_pop_spec _ _ _ _ _ Ep Ht) as (_ & Hrest & Lrest).
  rewrite (T_cat0_nrows _ _ Eo), (sum_nrows_const _ _ Hrest).
  f_equal. lia.
Qed.

End MultiRows.

(** ** Concatenations that succeed *)

Lemma T_cat1_ok (ts : list Mat) (n : nat) :
  ts <> [] -> Forall (fun t => nrows t = n) ts ->
  exists m, T_cat1 ts = Ok m /\ nrows m = n /\ ncols m = sum_ncols ts.
Proof.
  unfold T_cat1, T_cat_with, sum_ncols. destruct ts as [|t ts]; [congruence|].
  intros _ Hf. apply Forall_cons in Hf as [Ht Hf]. simpl.
  revert t Ht. induction Hf as [|x ts Hx _ IH]; intros t Ht; simpl.
  - exists t. repeat split; [assumption | lia].
  - unfold cat_pair1 at 2. rewrite Ht, Hx, Nat.eqb_refl. cbn [bind].
    destruct (IH (mkMat (ncols t + ncols x) (map2 (@app R) (rows t) (rows x))))
      as (m & E & Hr & Hc).
    { unfold nrows in *; simpl. rewrite map2_length; congruence. }
    exists m. split; [exact E|]. split; [exact Hr|]. simpl in Hc. lia.
Qed.

Lemma T_cat0_ok (ts : list Mat) (c : nat) :
  ts <> [] -> Forall (fun t => ncols t = c) ts ->
  exists m, T_cat0 ts = Ok m /\ ncols m = c.
Proof.
  unfold T_cat0, T_cat_with. destruct ts as [|t ts]; [congruence|].
  intros _ Hf. apply Forall_cons in Hf as [Ht Hf].
  revert t Ht. induction Hf as [|x ts Hx _ IH]; intros t Ht; simpl.
  - exists t. split; [reflexivity | assumption].
  - unfold cat_pair0 at 2. rewrite Ht, Hx, Nat.eqb_refl. cbn [bind].
    apply IH. reflexivity.
Qed.

Section MultiInputs.
Context `{AG : Autograd}.

Lemma eval_mode_all_cases (agents_list : list nat) (h : Heap) (a : nat) :
  eval_mode_all h agents_list a = h a \/
  eval_mode_all h agents_list a = eval_mode (h a).
Proof.
  unfold eval_mode_all. revert h.
  induction agents_list as [|x l IH]; intros h; simpl; [now left|].
  destruct (IH (heap_set h x (eval_mode (h x)))) as [E|E]; rewrite E;
    unfold heap_set; destruct (a =? x) eqn:Eax.
  - apply Nat.eqb_eq in Eax. subst. now right.
  - now left.
  - apply Nat.eqb_eq in Eax. subst. now right.
  - now right.
Qed.

(** Switching networks to evaluation mode changes no parameter, no
    buffer and no hyperparameter. *)
Lemma eval_mode_all_view (agents_list : list nat) (h : Heap) (a : nat) :
  let x := eval_mode_all h agents_list a in
  a_fc1 (target_actor x) = a_fc1 (target_actor (h a)) /\
  a_bn1 (target_actor x) = a_bn1 (target_actor (h a)) /\
  a_fc2 (target_actor x) = a_fc2 (target_actor (h a)) /\
  a_bn2 (target_actor x) = a_bn2 (target_actor (h a)) /\
  a_mu (target_actor x) = a_mu (target_actor (h a)) /\
  CriticNetwork_named_parameters (target_critic x)
  = CriticNetwork_named_parameters (target_critic (h a)) /\
  CriticNetwork_named_parameters (critic x)
  = CriticNetwork_named_parameters (critic (h a)) /\
  actor x = actor (h a) /\
  memory x = memory (h a) /\ batch_size x = batch_size (h a) /\
  gamma x = gamma (h a) /\ tau x = tau (h a).
Proof.
  intros x. subst x.
  destruct (eval_mode_all_cases agents_list h a) as [E|E]; rewrite E;
    repeat split; reflexivity.
Qed.

Lemma eval_mode_all_target_actor_dims (agents_list : list nat) (h : Heap) (a : nat)
    (n f1 f2 na : nat) :
  actor_dims (target_actor (h a)) n f1 f2 na ->
  actor_dims (target_actor (eval_mode_all h agents_list a)) n f1 f2 na.
Proof.
  destruct (eval_mode_all_cases agents_list h a) as [E|E]; rewrite E; intros Hd;
    exact Hd.
Qed.

Lemma eval_mode_all_target_critic_dims (agents_list : list nat) (h : Heap) (a : nat)
    (n f1 f2 na : nat) :
  critic_dims (target_critic (h a)) n f1 f2 na ->
  critic_dims (target_critic (eval_mode_all h agents_list a)) n f1 f2 na.
Proof.
  destruct (eval_mode_all_cases agents_list h a) as [E|E]; rewrite E; intros Hd;
    exact Hd.
Qed.

Lemma eval_mode_all_critic_dims (agents_list : list nat) (h : Heap) (a : nat)
    (n f1 f2 na : nat) :
  critic_dims (critic (h a)) n f1 f2 na ->
  critic_dims (critic (eval_mode_all h agents_list a)) n f1 f2 na.
Proof.
  destruct (eval_mode_all_cases agents_list h a) as [E|E]; rewrite E; intros Hd;
    exact Hd.
Qed.

End MultiInputs.

Section MultiInputsOk.
Context `{AG : Autograd}.

Lemma samples_ok (h : Heap) (agents_list : list nat) (n_of : nat -> nat) (na : nat)
    (batch_idxs : list nat) :
  peers_ok h agents_list n_of na batch_idxs ->
  exists samples_n,
    mapM (fun a => ReplayBuffer.get_samples_from_buffer (memory (h a)) batch_idxs)
         agents_list = Ok samples_n /\
    Forall2 (batch_of h n_of na batch_idxs) agents_list samples_n.
Proof.
  unfold peers_ok. induction 1 as [|a l Ha _ IH].
  - exists []. split; [reflexivity | constructor].
  - destruct IH as (ss & E & Hf).
    destruct Ha as ((_ & Hwf & Mo & Mn & Ma) & Hidx).
    destruct (get_samples_ok (memory (h a)) batch_idxs Hwf Hidx)
      as (s & Es & Co & Ca & Cn & Ro & Ra & Rn & Lr & Lt & _).
    exists (s :: ss). cbn [mapM]. rewrite Es. cbn [bind]. rewrite E. cbn [bind].
    split; [reflexivity|]. constructor; [|exact Hf].
    unfold batch_of. repeat split; congruence.
Qed.

Lemma target_actions_ok (h h' : Heap) (n_of : nat -> nat) (na : nat)
    (batch_idxs : list nat) (agents_list : list nat)
    (samples_n : list ReplayBuffer.samples) :
  Forall2 (batch_of h n_of na batch_idxs) agents_list samples_n ->
  Forall (fun a => exists f1 f2, actor_dims (target_actor (h' a)) (n_of a) f1 f2 na)
         agents_list ->
  exists tna,
    mapM (fun '(a, new_obs) => ActorNetwork_forward (target_actor (h' a)) new_obs)
         (combine agents_list (map ReplayBuffer.s_obs_next samples_n)) = Ok tna /\
    Forall2 (fun (p : nat * ReplayBuffer.samples) t =>
               t = mkMat na (map (ActorNetwork_row (target_actor (h' (fst p))))
                                 (rows (ReplayBuffer.s_obs_next (snd p)))))
            (combine agents_list samples_n) tna.
Proof.
  induction 1 as [|a s l ss Hb _ IH]; intros Hd.
  - exists []. split; [reflexivity | constructor].
  - apply Forall_cons in Hd as [(f1 & f2 & Ha) Hd].
    destruct (IH Hd) as (tna & E & Hf).
    destruct Hb as (_ & _ & _ & Cn & _).
    eexists (_ :: tna). cbn [map combine mapM].
    rewrite (ActorNetwork_forward_ok _ _ _ _ _ _ Ha Cn). cbn [bind].
    rewrite E. cbn [bind]. split; [reflexivity|].
    constructor; [reflexivity | exact Hf].
Qed.

(** On well-formed peers, of which there are at least two, [learn]
    reaches the joint concatenation. *)
Lemma multi_inputs_ok (h : Heap) (agents_list : list nat) (own_idx : nat)
    (n_of : nat -> nat) (na : nat) (batch_idxs : list nat) :
  peers_ok h agents_list n_of na batch_idxs ->
  own_idx < length agents_list -> 2 <= length agents_list ->
  exists mi,
    multi_inputs h agents_list own_idx batch_idxs
    = Ok (mi, eval_mode_all h agents_list) /\
    (exists samples_n tna,
       Forall2 (batch_of h n_of na batch_idxs) agents_list samples_n /\
       mi_rwd_n_t mi = map ReplayBuffer.s_rewards samples_n /\
       mi_done_n_t mi = map ReplayBuffer.s_terminal samples_n /\
       mi_actual_action_n_t mi = map ReplayBuffer.s_actions samples_n /\
       mi_obs_n_t mi = map ReplayBuffer.s_obs samples_n /\
       T_cat1 (map ReplayBuffer.s_obs samples_n) = Ok (mi_state_t mi) /\
       T_cat1 (map ReplayBuffer.s_obs_next samples_n) = Ok (mi_new_state_t mi) /\
       Forall2 (fun (p : nat * ReplayBuffer.samples) t =>
                  t = mkMat na (map (ActorNetwork_row
                                       (target_actor (eval_mode_all h agents_list (fst p))))
                                    (rows (ReplayBuffer.s_obs_next (snd p)))))
               (combine agents_list samples_n) tna /\
       tna !! own_idx = Some (mi_own_next_action mi) /\
       T_cat0 (delete own_idx tna) = Ok (mi_others_next_action mi)) /\
    ncols (mi_state_t mi) = fold_right Nat.add 0 (map n_of agents_list) /\
    ncols (mi_new_state_t mi) = fold_right Nat.add 0 (map n_of agents_list) /\
    nrows (mi_state_t mi) = length batch_idxs /\
    nrows (mi_new_state_t mi) = length batch_idxs /\
    ncols (mi_own_next_action mi) = na /\
    nrows (mi_own_next_action mi) = length batch_idxs /\
    ncols (mi_others_next_action mi) = na /\
    nrows (mi_others_next_action mi) = (length agents_list - 1) * length batch_idxs.
Proof.
  intros Hp Hown Hlen.
  destruct (samples_ok _ _ _ _ _ Hp) as (samples_n & Es & Hb).
  pose proof (Forall2_length _ _ _ Hb) as Ls.
  assert (Hdims : Forall (fun a => exists f1 f2,
                    actor_dims (target_actor (eval_mode_all h agents_list a))
                               (n_of a) f1 f2 na) agents_list).
  { eapply Forall_impl; [exact Hp|]. intros a (((f1 & f2 & Ha) & _) & _).
    exists f1, f2. now apply eval_mode_all_target_actor_dims. }
  destruct (target_actions_ok h (eval_mode_all h agents_list) n_of na batch_idxs
              _ _ Hb Hdims) as (tna & Et & Hta).
  assert (Lt : length tna = length agents_list).
  { apply Forall2_length in Hta. rewrite length_combine in Hta. lia. }
  assert (Hobs : Forall (fun t => nrows t = length batch_idxs)
                        (map ReplayBuffer.s_obs samples_n)).
  { apply Forall_fmap. clear - Hb. induction Hb as [|a s l ss Hs _ IH]; constructor;
      [|exact IH]. simpl. unfold batch_of in Hs. tauto. }
  assert (Hnext : Forall (fun t => nrows t = length batch_idxs)
                         (map ReplayBuffer.s_obs_next samples_n)).
  { apply Forall_fmap. clear - Hb. induction Hb as [|a s l ss Hs _ IH]; constructor;
      [|exact IH]. simpl. unfold batch_of in Hs. tauto. }
  assert (Hne : samples_n <> []) by (destruct samples_n; simpl in *; [lia | congruence]).
  destruct (T_cat1_ok (map ReplayBuffer.s_obs samples_n) (length batch_idxs))
    as (st & Est & Rst & Cst);
    [destruct samples_n; simpl; congruence | exact Hobs |].
  destruct (T_cat1_ok (map ReplayBuffer.s_obs_next samples_n) (length batch_idxs))
    as (nst & Enst & Rnst & Cnst);
    [destruct samples_n; simpl; congruence | exact Hnext |].
  destruct (lookup_lt_is_Some_2 tna own_idx ltac:(lia)) as (own & Eown).
  assert (Htna : Forall (fun t => ncols t = na /\ nrows t = length batch_idxs) tna).
  { revert Hta. generalize (eval_mode_all h agents_list) as h'. intros h' Hta.
    clear - Hta Hb. revert tna Hta.
    induction Hb as [|a s l ss Hs _ IH]; intros tna Hta; simpl in Hta.
    - inversion Hta. constructor.
    - inversion Hta as [|? ? ? tna' Ht Hta']; subst. constructor.
      + simpl. unfold nrows; simpl. rewrite length_map.
        unfold batch_of, nrows in Hs. tauto.
      + apply IH. exact Hta'. }
  assert (Hrest : Forall (fun t => ncols t = na /\ nrows t = length batch_idxs)
                         (delete own_idx tna)) by now apply Forall_delete.
  assert (Lrest : S (length (delete own_idx tna)) = length tna).
  { rewrite length_delete by eauto. apply lookup_lt_Some in Eown. lia. }
  destruct (T_cat0_ok (delete own_idx tna) na) as (others & Eo & Co).
  { destruct (delete own_idx tna); simpl in *; [lia | congruence]. }
  { eapply Forall_impl; [exact Hrest|]. simpl. tauto. }
  exists (mkMultiInputs (map ReplayBuffer.s_rewards samples_n)
            (map ReplayBuffer.s_terminal samples_n)
            (map ReplayBuffer.s_actions samples_n)
            (map ReplayBuffer.s_obs samples_n) st nst own others).
  split.
  { unfold multi_inputs. rewrite Es. cbn [bind].
    destruct samples_n as [|s0 ss]; [congruence|].
    rewrite Est. cbn [bind]. rewrite Enst. cbn [bind]. rewrite Et. cbn [bind].
    unfold py_pop. rewrite Eown. cbn [bind]. rewrite Eo. cbn [bind]. reflexivity. }
  cbn [mi_rwd_n_t mi_done_n_t mi_actual_action_n_t mi_obs_n_t mi_state_t
       mi_new_state_t mi_own_next_action mi_others_next_action].
  split.
  { exists samples_n, tna. repeat split; assumption. }
  assert (Hsum : forall (f : ReplayBuffer.samples -> Mat),
             Forall2 (fun a s => ncols (f s) = n_of a) agents_list samples_n ->
             sum_ncols (map f samples_n) = fold_right Nat.add 0 (map n_of agents_list)).
  { intros f. unfold sum_ncols. clear. induction 1 as [|a s l ss Hs _ IH]; simpl;
      [reflexivity | now rewrite Hs, IH]. }
  split.
  { rewrite Cst. apply Hsum. eapply Forall2_impl; [exact Hb|].
    intros a s Hs. unfold batch_of in Hs. tauto. }
  split.
  { rewrite Cnst. apply Hsum. eapply Forall2_impl; [exact Hb|].
    intros a s Hs. unfold batch_of in Hs. tauto. }
  split; [exact Rst|]. split; [exact Rnst|].
  pose proof (Forall_lookup_1 _ _ _ _ Htna Eown) as [Cown Rown].
  split; [exact Cown|]. split; [exact Rown|]. split; [exact Co|].
  rewrite (T_cat0_nrows _ _ Eo).
  rewrite (sum_nrows_const _ (length batch_idxs)).
  - f_equal. lia.
  - eapply Forall_impl; [exact Hrest|]. simpl. tauto.
Qed.

End MultiInputsOk.

(** ** The joint concatenation *)

Lemma np_random_choice_length (g g' : RNG) (a size : nat) (idxs : list nat) :
  np_random_choice g a size = Ok (idxs, g') -> length idxs = size.
Proof.
  unfold np_random_choice. destruct (_ && _); [discriminate|].
  intros E. injection E as <- _. now rewrite length_map, length_seq.
Qed.

Lemma T_cat1_pair (a b : Mat) : T_cat1 [a; b] = cat_pair1 a b.
Proof. reflexivity. Qed.

Section JointConcatenation.
Context `{AG : Autograd}.

Lemma learn_sampling (x : Agent) (g : RNG) :
  buffer_wf (memory x) ->
  batch_size x <= ReplayBuffer.mem_cntr (memory x) ->
  exists idxs g1,
    ReplayBuffer.get_batch_idxs (memory x) g (batch_size x) = Ok (idxs, g1) /\
    length idxs = batch_size x /\
    Forall (fun i => i < ReplayBuffer.mem_size (memory x)) idxs.
Proof.
  intros (Hpos & _) Hguard. unfold ReplayBuffer.get_batch_idxs.
  destruct (np_random_choice_ok g
              (Nat.min (ReplayBuffer.mem_cntr (memory x))
                       (ReplayBuffer.mem_size (memory x)))
              (batch_size x)) as (idxs & g1 & E & L & Hf); [lia|].
  exists idxs, g1. split; [exact E|]. split; [exact L|].
  eapply Forall_impl; [exact Hf|]. simpl. intros; lia.
Qed.

Lemma lockstep_peers_ok (h : Heap) (self : nat) (agents_list : list nat)
    (n_of : nat -> nat) (na : nat) (idxs : list nat) :
  lockstep_peers h self agents_list n_of na ->
  Forall (fun i => i < ReplayBuffer.mem_size (memory (h self))) idxs ->
  peers_ok h agents_list n_of na idxs.
Proof.
  intros (_ & Hp) Hi. unfold peers_ok.
  eapply Forall_impl; [exact Hp|]. intros a (Ha & Hle). split; [exact Ha|].
  eapply Forall_impl; [exact Hi|]. simpl. intros; lia.
Qed.

(** With two or more other agents the joint concatenation fails. *)
Lemma multi_target_value_mismatch (h h' : Heap) (self : nat) (agents_list : list nat)
    (own_idx : nat) (batch_idxs : list nat) (mi : MultiInputs) :
  multi_inputs h agents_list own_idx batch_idxs = Ok (mi, h') ->
  0 < length batch_idxs -> 3 <= length agents_list ->
  T_cat1 [mi_new_state_t mi; mi_others_next_action mi] = Err cat1_error /\
  multi_target_value h self agents_list own_idx batch_idxs = Err cat1_error.
Proof.
  intros E Hb Hl.
  destruct (multi_inputs_rows _ _ _ _ _ _ E) as [Rn Ro].
  assert (Ec : T_cat1 [mi_new_state_t mi; mi_others_next_action mi] = Err cat1_error).
  { rewrite T_cat1_pair. apply cat_pair1_mismatch. rewrite Rn, Ro. nia. }
  split; [exact Ec|].
  unfold multi_target_value. rewrite E. cbn [bind]. rewrite Ec. reflexivity.
Qed.

Lemma multi_learn_error_of_target (h : Heap) (g g1 : RNG) (self : nat)
    (agents_list : list nat) (own_idx : nat) (idxs : list nat) (e : PyError) :
  batch_size (h self) <= ReplayBuffer.mem_cntr (memory (h self)) ->
  ReplayBuffer.get_batch_idxs (memory (h self)) g (batch_size (h self))
  = Ok (idxs, g1) ->
  multi_target_value h self agents_list own_idx idxs = Err e ->
  Agent_Multi_learn h g self agents_list own_idx = Err e.
Proof.
  intros Hg Ei Et. unfold Agent_Multi_learn.
  destruct (Nat.ltb_spec (ReplayBuffer.mem_cntr (memory (h self))) (batch_size (h self)));
    [lia|].
  rewrite Ei. cbn [bind]. rewrite Et. reflexivity.
Qed.

Lemma multi_learn_never_three (h : Heap) (g : RNG) (self : nat)
    (agents_list : list nat) (own_idx : nat) :
  batch_size (h self) <= ReplayBuffer.mem_cntr (memory (h self)) ->
  0 < batch_size (h self) -> 3 <= length agents_list ->
  exists e, Agent_Multi_learn h g self agents_list own_idx = Err e.
Proof.
  intros Hg Hb Hl.
  destruct (ReplayBuffer.get_batch_idxs (memory (h self)) g (batch_size (h self)))
    as [[idxs g1]|e] eqn:Ei.
  - pose proof (np_random_choice_length _ _ _ _ _ Ei) as Li.
    destruct (multi_inputs h agents_list own_idx idxs) as [[mi h']|e] eqn:Em.
    + exists cat1_error. eapply multi_learn_error_of_target; try eassumption.
      eapply multi_target_value_mismatch; try eassumption. lia.
    + exists e. eapply multi_learn_error_of_target; try eassumption.
      unfold multi_target_value. rewrite Em. reflexivity.
  - exists e. unfold Agent_Multi_learn.
    destruct (Nat.ltb_spec (ReplayBuffer.mem_cntr (memory (h self)))
                           (batch_size (h self))); [lia|].
    rewrite Ei. reflexivity.
Qed.

Lemma multi_learn_never_alone (h : Heap) (g : RNG) (self : nat)
    (agents_list : list nat) (own_idx : nat) :
  batch_size (h self) <= ReplayBuffer.mem_cntr (memory (h self)) ->
  length agents_list <= 1 ->
  exists e, Agent_Multi_learn h g self agents_list own_idx = Err e.
Proof.
  intros Hg Hl.
  assert (Hm : forall idxs, exists e, multi_inputs h agents_list own_idx idxs = Err e).
  { intros idxs. unfold multi_inputs.
    destruct agents_list as [|a [|b l]]; [| |simpl in Hl; lia].
    - cbn. eexists; reflexivity.
    - cbn [mapM].
      destruct (ReplayBuffer.get_samples_from_buffer _ idxs) as [s|e];
        cbn [bind map]; [|eexists; reflexivity].
      destruct (T_cat1 [ReplayBuffer.s_obs s]) as [st|e]; cbn [bind];
        [|eexists; reflexivity].
      destruct (T_cat1 [ReplayBuffer.s_obs_next s]) as [nst|e]; cbn [bind];
        [|eexists; reflexivity].
      cbn [combine mapM].
      destruct (ActorNetwork_forward _ _) as [t|e]; cbn [bind];
        [|eexists; reflexivity].
      unfold py_pop. destruct own_idx as [|k]; cbn; eexists; reflexivity. }
  unfold Agent_Multi_learn.
  destruct (Nat.ltb_spec (ReplayBuffer.mem_cntr (memory (h self))) (batch_size (h self)));
    [lia|].
  destruct (ReplayBuffer.get_batch_idxs _ g _) as [[idxs g1]|e]; cbn [bind];
    [|eexists; reflexivity].
  unfold multi_target_value. destruct (Hm idxs) as (e & ->). eexists; reflexivity.
Qed.

End JointConcatenation.

Section TwoAgents.
Context `{AG : Autograd}.

Lemma eval_mode_all_actor_row (agents_list : list nat) (h : Heap) (a : nat) (x : Vec) :
  ActorNetwork_row (target_actor (eval_mode_all h agents_list a)) x
  = ActorNetwork_row (target_actor (h a)) x.
Proof.
  destruct (eval_mode_all_cases agents_list h a) as [E|E]; rewrite E; reflexivity.
Qed.

Lemma eval_mode_all_critic_row (agents_list : list nat) (h : Heap) (a : nat)
    (s u : Vec) :
  CriticNetwork_row (target_critic (eval_mode_all h agents_list a)) s u
  = CriticNetwork_row (target_critic (h a)) s u.
Proof.
  destruct (eval_mode_all_cases agents_list h a) as [E|E]; rewrite E; reflexivity.
Qed.

(** With exactly one other agent, [learn] computes the TD target of the
    updating agent: own reward plus [gamma] times the target critic on the
    joint input times the own mask. *)
Lemma multi_target_value_two (h : Heap) (self : nat) (agents_list : list nat)
    (own_idx : nat) (n_of : nat -> nat) (na f1 f2 : nat) (batch_idxs : list nat) :
  peers_ok h agents_list n_of na batch_idxs ->
  length agents_list = 2 -> own_idx < 2 ->
  critic_dims (target_critic (h self))
    (fold_right Nat.add 0 (map n_of agents_list) + na) f1 f2 na ->
  batch_size (h self) = length batch_idxs ->
  exists mi target_value input_target_value_fn own s_own,
    multi_target_value h self agents_list own_idx batch_idxs
    = Ok (mi, target_value, eval_mode_all h agents_list) /\
    multi_inputs h agents_list own_idx batch_idxs
    = Ok (mi, eval_mode_all h agents_list) /\
    T_cat1 [mi_new_state_t mi; mi_others_next_action mi] = Ok input_target_value_fn /\
    nrows input_target_value_fn = length batch_idxs /\
    ncols input_target_value_fn = fold_right Nat.add 0 (map n_of agents_list) + na /\
    agents_list !! own_idx = Some own /\
    ReplayBuffer.get_samples_from_buffer (memory (h own)) batch_idxs = Ok s_own /\
    mi_own_next_action mi
    = mkMat na (map (ActorNetwork_row (target_actor (h own)))
                    (rows (ReplayBuffer.s_obs_next s_own))) /\
    target_value
    = mkMat 1 (map3 (fun r q d => [(r + gamma (h self) * hd 0 q * d)%R])
                 (ReplayBuffer.s_rewards s_own)
                 (map2 (CriticNetwork_row (target_critic (h self)))
                       (rows input_target_value_fn)
                       (rows (mi_own_next_action mi)))
                 (ReplayBuffer.s_terminal s_own)).
Proof.
  intros Hp Hl Hown Hc HB.
  destruct (multi_inputs_ok h agents_list own_idx n_of na batch_idxs Hp
              ltac:(lia) ltac:(lia))
    as (mi & Ei & (samples_n & tna & Hb & Erw & Edn & Eact & Eobs & Est & Enst
                   & Hta & Eown & Eoth)
        & Cst & Cnst & Rst & Rnst & Cown & Rown & Coth & Roth).
  rewrite Hl in Roth. simpl in Roth. rewrite Nat.add_0_r in Roth.
  pose proof (Forall2_length _ _ _ Hb) as Ls.
  destruct (lookup_lt_is_Some_2 agents_list own_idx ltac:(lia)) as (own & Eo).
  destruct (lookup_lt_is_Some_2 samples_n own_idx ltac:(lia)) as (s_own & Eso).
  pose proof (Forall2_lookup_lr _ _ _ _ _ _ Hb Eo Eso) as Hbo.
  assert (Ecat : T_cat1 [mi_new_state_t mi; mi_others_next_action mi]
                 = Ok (mkMat (ncols (mi_new_state_t mi) + ncols (mi_others_next_action mi))
                         (map2 (@app R) (rows (mi_new_state_t mi))
                               (rows (mi_others_next_action mi))))).
  { rewrite T_cat1_pair. unfold cat_pair1. rewrite Rnst, Roth, Nat.eqb_refl.
    reflexivity. }
  set (inp := mkMat _ _) in Ecat.
  assert (Rinp : nrows inp = length batch_idxs).
  { unfold inp, nrows in *; simpl. rewrite map2_length; congruence. }
  set (h' := eval_mode_all h agents_list) in *.
  assert (Hc' : critic_dims (target_critic (h' self))
                  (fold_right Nat.add 0 (map n_of agents_list) + na) f1 f2 na)
    by now apply eval_mode_all_target_critic_dims.
  assert (Eq : CriticNetwork_forward (target_critic (h' self)) inp (mi_own_next_action mi)
               = Ok (mkMat 1 (map2 (CriticNetwork_row (target_critic (h' self)))
                                   (rows inp) (rows (mi_own_next_action mi))))).
  { eapply CriticNetwork_forward_ok; [exact Hc' | | exact Cown | congruence].
    unfold inp; simpl. congruence. }
  assert (Emi_own : mi_own_next_action mi
                    = mkMat na (map (ActorNetwork_row (target_actor (h own)))
                                    (rows (ReplayBuffer.s_obs_next s_own)))).
  { assert (Ec : combine agents_list samples_n !! own_idx = Some (own, s_own)).
    { clear - Eo Eso. revert samples_n own_idx Eo Eso.
      induction agents_list as [|a l IH]; intros [|s ss] [|k] Eo Eso; simpl in *;
        try discriminate; try congruence.
      now apply IH. }
    pose proof (Forall2_lookup_lr _ _ _ _ _ _ Hta Ec Eown) as Ht. simpl in Ht.
    rewrite Ht. f_equal. apply map_ext. intros x.
    apply eval_mode_all_actor_row. }
  destruct Hbo as (Egs & _ & _ & Cn & _ & _ & Rn & Lr & Lt).
  set (qrows := map2 (CriticNetwork_row (target_critic (h' self)))
                     (rows inp) (rows (mi_own_next_action mi))) in *.
  assert (Lq : length qrows = length batch_idxs).
  { unfold qrows. rewrite map2_length; unfold nrows in *; congruence. }
  assert (Etd : td_target (batch_size (h' self)) (gamma (h' self))
                  (ReplayBuffer.s_rewards s_own) (mkMat 1 qrows)
                  (ReplayBuffer.s_terminal s_own)
                = Ok (mkMat 1 (map3 (fun r q d => [(r + gamma (h' self) * hd 0 q * d)%R])
                         (ReplayBuffer.s_rewards s_own) qrows
                         (ReplayBuffer.s_terminal s_own)))).
  { pose proof (eval_mode_all_view agents_list h self) as V. simpl in V.
    destruct V as (_ & _ & _ & _ & _ & _ & _ & _ & _ & Vb & _).
    fold h' in Vb.
    apply td_target_ok; try congruence.
    unfold qrows. eapply critic_rows_length. exact Hc'. }
  eexists mi, _, inp, own, s_own.
  split.
  { unfold multi_target_value. rewrite Ei. cbn [bind]. rewrite Ecat. cbn [bind].
    rewrite Eq. cbn [bind]. unfold py_index.
    rewrite Erw, Edn, !list_lookup_fmap, Eso. cbn [fmap option_fmap option_map bind].
    rewrite Etd. cbn [bind]. reflexivity. }
  split; [exact Ei|]. split; [exact Ecat|]. split; [exact Rinp|].
  split; [unfold inp; simpl; congruence|].
  split; [exact Eo|]. split; [exact Egs|]. split; [exact Emi_own|].
  pose proof (eval_mode_all_view agents_list h self) as V. simpl in V.
  destruct V as (_ & _ & _ & _ & _ & _ & _ & _ & _ & _ & Vg & _). fold h' in Vg.
  rewrite Vg. f_equal. unfold qrows. f_equal.
  apply map2_ext. intros s u. apply eval_mode_all_critic_row.
Qed.

End TwoAgents.

(** ** Example agents *)

Lemma const_Linear_dims (i o : nat) (w b : R) : Linear_dims (const_Linear i o w b) i o.
Proof.
  unfold Linear_dims, const_Linear, mat_wf, nrows; simpl.
  rewrite !repeat_length. repeat split.
  apply Forall_forall. intros r Hr. apply list_elem_of_In, repeat_spec in Hr.
  subst. apply repeat_length.
Qed.

Lemma toy_actor_dims (n f1 f2 na : nat) : actor_dims (toy_actor n f1 f2 na) n f1 f2 na.
Proof.
  unfold actor_dims, toy_actor; simpl.
  repeat split; try apply const_Linear_dims; apply nn_LayerNorm_dims.
Qed.

Lemma toy_critic_dims (n f1 f2 na : nat) : critic_dims (toy_critic n f1 f2 na) n f1 f2 na.
Proof.
  unfold critic_dims, toy_critic; simpl.
  repeat split; try apply const_Linear_dims; apply nn_LayerNorm_dims.
Qed.

Lemma toy_memory_wf : buffer_wf toy_memory.
Proof. unfold buffer_wf, toy_memory, nrows; simpl. repeat split; lia. Qed.

Lemma toy_memory_ok (n_crit batch : nat) :
  memory_ok (toy_agent n_crit toy_memory batch) 3 1.
Proof. unfold memory_ok. split; [exact toy_memory_wf | repeat split]. Qed.

Lemma toy_single_ok (batch : nat) :
  single_agent_ok (toy_agent 3 toy_memory batch) 3 2 2 1.
Proof.
  split; [|apply toy_memory_ok].
  unfold agent_dims; simpl.
  repeat split; try apply toy_actor_dims; apply toy_critic_dims.
Qed.

Lemma toy_peers (n_crit batch : nat) (agents_list : list nat) :
  lockstep_peers (toy_heap n_crit batch) 0 agents_list (fun _ => 3) 1.
Proof.
  split; [exact toy_memory_wf|].
  apply Forall_forall. intros a _. split; [|reflexivity].
  split; [|apply toy_memory_ok].
  exists 2, 2. apply toy_actor_dims.
Qed.

Lemma T_cat0_single (t : Mat) : T_cat0 [t] = Ok t.
Proof. reflexivity. Qed.

Lemma list_length_one {A : Type} (l : list A) (P : A -> Prop) :
  length l = 1 -> Forall P l -> exists y, l = [y] /\ P y.
Proof.
  destruct l as [|y [|z l]]; simpl; intros E Hf; try discriminate.
  apply Forall_cons in Hf as [Hy _]. now exists y.
Qed.

Section TDTargetLearn.
Context `{AG : Autograd}.

(** [Agent_Multi.learn] with one other agent, past the guard: the TD
    target it computes and what it does with it. *)
Lemma multi_learn_continuation (h : Heap) (g : RNG) (self : nat)
    (agents_list : list nat) (own_idx : nat) (n_of : nat -> nat) (na f1 f2 : nat) :
  lockstep_peers h self agents_list n_of na ->
  length agents_list = 2 -> own_idx < 2 ->
  critic_dims (target_critic (h self))
    (fold_right Nat.add 0 (map n_of agents_list) + na) f1 f2 na ->
  batch_size (h self) <= ReplayBuffer.mem_cntr (memory (h self)) ->
  exists batch_idxs g1 mi target_value input_target_value_fn own s_own,
    ReplayBuffer.get_batch_idxs (memory (h self)) g (batch_size (h self))
    = Ok (batch_idxs, g1) /\
    multi_target_value h self agents_list own_idx batch_idxs
    = Ok (mi, target_value, eval_mode_all h agents_list) /\
    T_cat1 [mi_new_state_t mi; mi_others_next_action mi] = Ok input_target_value_fn /\
    agents_list !! own_idx = Some own /\
    ReplayBuffer.get_samples_from_buffer (memory (h own)) batch_idxs = Ok s_own /\
    mi_own_next_action mi
    = mkMat na (map (ActorNetwork_row (target_actor (h own)))
                    (rows (ReplayBuffer.s_obs_next s_own))) /\
    target_value
    = mkMat 1 (map3 (fun r q d => [(r + gamma (h self) * hd 0 q * d)%R])
                 (ReplayBuffer.s_rewards s_own)
                 (map2 (CriticNetwork_row (target_critic (h self)))
                       (rows input_target_value_fn)
                       (rows (mi_own_next_action mi)))
                 (ReplayBuffer.s_terminal s_own)) /\
    Agent_Multi_learn h g self agents_list own_idx
    = (let* (own_actual_action, actual_action_n_t) :=
         py_pop (mi_actual_action_n_t mi) own_idx in
       let* others := T_cat0 actual_action_n_t in
       let* input_value_fn := T_cat1 [mi_state_t mi; others] in
       let* critic_value :=
         CriticNetwork_forward (critic (eval_mode_all h agents_list self))
           input_value_fn own_actual_action in
       let* own_obs := py_index (mi_obs_n_t mi) own_idx in
       let* me := update_networks (eval_mode_all h agents_list self) target_value
                    critic_value input_value_fn own_actual_action own_obs in
       Ok (heap_set (eval_mode_all h agents_list) self me, g1)) /\
    (critic_dims (critic (h self))
       (fold_right Nat.add 0 (map n_of agents_list) + na) f1 f2 na ->
     exists input_value_fn critic_value,
       Agent_Multi_learn h g self agents_list own_idx
       = (let* me := update_networks (eval_mode_all h agents_list self) target_value
                       critic_value input_value_fn
                       (ReplayBuffer.s_actions s_own) (ReplayBuffer.s_obs s_own) in
          Ok (heap_set (eval_mode_all h agents_list) self me, g1)) /\
       ncols input_value_fn = fold_right Nat.add 0 (map n_of agents_list) + na /\
       nrows input_value_fn = batch_size (h self) /\
       critic_value
       = mkMat 1 (map2 (CriticNetwork_row (critic (eval_mode_all h agents_list self)))
                       (rows input_value_fn) (rows (ReplayBuffer.s_actions s_own)))).
Proof.
  intros Hp Hl Hown Hc Hg.
  destruct (learn_sampling (h self) g (proj1 Hp) Hg) as (idxs & g1 & Ei & Li & Hi).
  pose proof (lockstep_peers_ok _ _ _ _ _ _ Hp Hi) as Hpo.
  destruct (multi_target_value_two h self agents_list own_idx n_of na f1 f2 idxs
              Hpo Hl Hown Hc (eq_sym Li))
    as (mi & tv & inp & own & s_own & Emt & Emi & Ecat & Rinp & Cinp & Eo & Egs
        & Emo & Etv).
  exists idxs, g1, mi, tv, inp, own, s_own.
  split; [exact Ei|]. split; [exact Emt|]. split; [exact Ecat|].
  split; [exact Eo|]. split; [exact Egs|]. split; [exact Emo|]. split; [exact Etv|].
  assert (Eraw : Agent_Multi_learn h g self agents_list own_idx
    = (let* (own_actual_action, actual_action_n_t) :=
         py_pop (mi_actual_action_n_t mi) own_idx in
       let* others := T_cat0 actual_action_n_t in
       let* input_value_fn := T_cat1 [mi_state_t mi; others] in
       let* critic_value :=
         CriticNetwork_forward (critic (eval_mode_all h agents_list self))
           input_value_fn own_actual_action in
       let* own_obs := py_index (mi_obs_n_t mi) own_idx in
       let* me := update_networks (eval_mode_all h agents_list self) tv
                    critic_value input_value_fn own_actual_action own_obs in
       Ok (heap_set (eval_mode_all h agents_list) self me, g1))).
  { unfold Agent_Multi_learn.
    destruct (Nat.ltb_spec (ReplayBuffer.mem_cntr (memory (h self))) (batch_size (h self)));
      [lia|].
    rewrite Ei. cbn [bind]. rewrite Emt. cbn [bind]. reflexivity. }
  split; [exact Eraw|].
  intros Hcd.
  destruct (multi_inputs_ok h agents_list own_idx n_of na idxs Hpo
              ltac:(lia) ltac:(lia))
    as (mi' & Ei' & (samples_n & tna & Hbs & Erw & Edn & Eact & Eobs & Est & Enst
                     & _ & _ & _)
        & Cst & _ & Rst & _ & Cown & Rown & _ & _).
  rewrite Emi in Ei'. injection Ei' as <-.
  pose proof (Forall2_length _ _ _ Hbs) as Ls.
  destruct (lookup_lt_is_Some_2 samples_n own_idx ltac:(lia)) as (s & Eso).
  pose proof (Forall2_lookup_lr _ _ _ _ _ _ Hbs Eo Eso) as Hbo.
  destruct Hbo as (Egs' & Co & Ca & Cn & Ro & Ra & Rn & Lr & Lt).
  rewrite Egs in Egs'. injection Egs' as <-.
  assert (Hacts : Forall (fun t => ncols t = na /\ nrows t = length idxs)
                    (mi_actual_action_n_t mi)).
  { rewrite Eact. apply Forall_fmap. clear - Hbs.
    induction Hbs as [|a s0 l l' Hb0 _ IH]; constructor; [|exact IH].
    destruct Hb0 as (_ & _ & C & _ & _ & R & _). simpl. split; assumption. }
  assert (Epop_look : mi_actual_action_n_t mi !! own_idx
                      = Some (ReplayBuffer.s_actions s_own)).
  { rewrite Eact, list_lookup_fmap, Eso. reflexivity. }
  assert (Epop : py_pop (mi_actual_action_n_t mi) own_idx
                 = Ok (ReplayBuffer.s_actions s_own,
                       delete own_idx (mi_actual_action_n_t mi))).
  { unfold py_pop. now rewrite Epop_look. }
  destruct (py_pop_spec _ _ _ _ _ Epop Hacts) as (_ & Hrest & Lrest).
  assert (Lact : length (mi_actual_action_n_t mi) = 2)
    by (rewrite Eact, length_fmap; lia).
  assert (Lrest1 : length (delete own_idx (mi_actual_action_n_t mi)) = 1) by lia.
  destruct (list_length_one _ _ Lrest1 Hrest) as (other & Erest & Cother & Rother).
  set (x := mkMat (ncols (mi_state_t mi) + ncols other)
              (map2 (@app R) (rows (mi_state_t mi)) (rows other))).
  assert (Ex : T_cat1 [mi_state_t mi; other] = Ok x).
  { rewrite T_cat1_pair. unfold cat_pair1. rewrite Rst, Rother, Nat.eqb_refl.
    reflexivity. }
  assert (Rx : nrows x = length idxs).
  { unfold x, nrows in *. cbn [rows]. rewrite map2_length; congruence. }
  assert (Cx : ncols x = fold_right Nat.add 0 (map n_of agents_list) + na).
  { unfold x. cbn [ncols]. congruence. }
  set (h1 := eval_mode_all h agents_list) in *.
  assert (Hc1 : critic_dims (critic (h1 self))
                  (fold_right Nat.add 0 (map n_of agents_list) + na) f1 f2 na)
    by (apply eval_mode_all_critic_dims; exact Hcd).
  assert (Ecv : CriticNetwork_forward (critic (h1 self)) x
                  (ReplayBuffer.s_actions s_own)
                = Ok (mkMat 1 (map2 (CriticNetwork_row (critic (h1 self)))
                                 (rows x) (rows (ReplayBuffer.s_actions s_own))))).
  { eapply CriticNetwork_forward_ok; [exact Hc1 | exact Cx | exact Ca | congruence]. }
  eexists x, _.
  split.
  { rewrite Eraw. rewrite Epop. cbn [bind]. rewrite Erest, T_cat0_single. cbn [bind].
    rewrite Ex. cbn [bind]. rewrite Ecv. cbn [bind].
    unfold py_index. rewrite Eobs, list_lookup_fmap, Eso.
    cbn [fmap option_fmap option_map bind]. reflexivity. }
  split; [exact Cx|]. split; [congruence | reflexivity].
Qed.

End TDTargetLearn.

Section TDTargetClaim.
Context `{AG : Autograd}.

(** The step of [Agent_Multi.learn] up to the TD target, with one other
    agent. *)
Lemma multi_learn_target (h : Heap) (g : RNG) (self : nat) (agents_list : list nat)
    (own_idx : nat) (n_of : nat -> nat) (na f1 f2 : nat) :
  lockstep_peers h self agents_list n_of na ->
  length agents_list = 2 -> own_idx < 2 ->
  critic_dims (target_critic (h self))
    (fold_right Nat.add 0 (map n_of agents_list) + na) f1 f2 na ->
  batch_size (h self) <= ReplayBuffer.mem_cntr (memory (h self)) ->
  exists batch_idxs g1 mi target_value input_target_value_fn own s_own,
    ReplayBuffer.get_batch_idxs (memory (h self)) g (batch_size (h self))
    = Ok (batch_idxs, g1) /\
    multi_target_value h self agents_list own_idx batch_idxs
    = Ok (mi, target_value, eval_mode_all h agents_list) /\
    T_cat1 [mi_new_state_t mi; mi_others_next_action mi] = Ok input_target_value_fn /\
    nrows input_target_value_fn = batch_size (h self) /\
    ncols input_target_value_fn = fold_right Nat.add 0 (map n_of agents_list) + na /\
    agents_list !! own_idx = Some own /\
    ReplayBuffer.get_samples_from_buffer (memory (h own)) batch_idxs = Ok s_own /\
    mi_own_next_action mi
    = mkMat na (map (ActorNetwork_row (target_actor (h own)))
                    (rows (ReplayBuffer.s_obs_next s_own))) /\
    target_value
    = mkMat 1 (map3 (fun r q d => [(r + gamma (h self) * hd 0 q * d)%R])
                 (ReplayBuffer.s_rewards s_own)
                 (map2 (CriticNetwork_row (target_critic (h self)))
                       (rows input_target_value_fn)
                       (rows (mi_own_next_action mi)))
                 (ReplayBuffer.s_terminal s_own)).
Proof.
  intros Hp Hl Hown Hc Hg.
  destruct (learn_sampling (h self) g (proj1 Hp) Hg) as (idxs & g1 & Ei & Li & Hi).
  pose proof (lockstep_peers_ok _ _ _ _ _ _ Hp Hi) as Hpo.
  destruct (multi_target_value_two h self agents_list own_idx n_of na f1 f2 idxs
              Hpo Hl Hown Hc (eq_sym Li))
    as (mi & tv & inp & own & s_own & Emt & _ & Ecat & Rinp & Cinp & Eo & Egs
        & Emo & Etv).
  exists idxs, g1, mi, tv, inp, own, s_own.
  repeat split; try assumption. congruence.
Qed.

(** C1: the TD target of a learning step that passes the guard.
    The expression of both [learn] methods is [reward + gamma * q * mask]
    row by row, its second summand being [0] where the mask is [0] and
    [gamma * q] where it is [1].  In [Agent_Single.learn], [q] is the
    target critic at the next observation and the action of the target
    actor there, reward and mask being those of the sampled slot.  In
    [Agent_Multi.learn] with one other agent, [q] is the target critic at
    the joint input and the own target action, reward and mask being the
    own ones.  Both methods hand this target to the update of the
    networks: [learn] is that update applied to it, and in
    [Agent_Multi.learn], with a critic of the joint size, the update is
    reached with the critic's value at the joint state and the own stored
    action. *)
Theorem C1_td_target :
  (forall (B : nat) (gamma0 : R) (reward : Vec) (qrows : list Vec) (done : Vec),
     length reward = B -> length qrows = B -> length done = B ->
     Forall (fun q => length q = 1) qrows ->
     td_target B gamma0 reward (mkMat 1 qrows) done
     = Ok (mkMat 1 (map3 (fun r q d => [(r + gamma0 * hd 0 q * d)%R])
                         reward qrows done)) /\
     bootstrap B gamma0 (mkMat 1 qrows) done
     = Ok (mkMat 1 (map2 (fun q d => [(gamma0 * hd 0 q * d)%R]) qrows done)) /\
     (forall k q,
        qrows !! k = Some q ->
        (done !! k = Some 0%R ->
         map2 (fun q d => [(gamma0 * hd 0 q * d)%R]) qrows done !! k = Some [0%R]) /\
        (done !! k = Some 1%R ->
         map2 (fun q d => [(gamma0 * hd 0 q * d)%R]) qrows done !! k
         = Some [(gamma0 * hd 0 q)%R]))) /\
  (forall (self : Agent) (g : RNG) (n_obs f1 f2 na : nat),
     single_agent_ok self n_obs f1 f2 na ->
     batch_size self <= ReplayBuffer.mem_cntr (memory self) ->
     exists batch_idxs g1 s target_value critic_value,
       ReplayBuffer.get_batch_idxs (memory self) g (batch_size self)
       = Ok (batch_idxs, g1) /\
       ReplayBuffer.get_samples_from_buffer (memory self) batch_idxs = Ok s /\
       single_values (eval_mode self) s = Ok (target_value, critic_value) /\
       Agent_Single_learn self g
       = (let* self' := update_networks (eval_mode self) target_value critic_value
                          (ReplayBuffer.s_obs s) (ReplayBuffer.s_actions s)
                          (ReplayBuffer.s_obs s) in
          Ok (self', g1)) /\
       ncols target_value = 1 /\
       nrows target_value = batch_size self /\
       (forall k i r s' m,
          batch_idxs !! k = Some i ->
          ReplayBuffer.reward_memory (memory self) !! i = Some r ->
          rows (ReplayBuffer.obs_next_memory (memory self)) !! i = Some s' ->
          ReplayBuffer.terminal_memory (memory self) !! i = Some m ->
          rows target_value !! k
          = Some [(r + gamma self
                       * target_q (target_actor self) (target_critic self) s'
                       * m)%R])) /\
  (forall (h : Heap) (g : RNG) (self : nat) (agents_list : list nat)
          (own_idx : nat) (n_of : nat -> nat) (na f1 f2 : nat),
     lockstep_peers h self agents_list n_of na ->
     length agents_list = 2 -> own_idx < 2 ->
     critic_dims (target_critic (h self))
       (fold_right Nat.add 0 (map n_of agents_list) + na) f1 f2 na ->
     batch_size (h self) <= ReplayBuffer.mem_cntr (memory (h self)) ->
     exists batch_idxs g1 mi target_value input_target_value_fn own s_own,
       ReplayBuffer.get_batch_idxs (memory (h self)) g (batch_size (h self))
       = Ok (batch_idxs, g1) /\
       multi_target_value h self agents_list own_idx batch_idxs
       = Ok (mi, target_value, eval_mode_all h agents_list) /\
       T_cat1 [mi_new_state_t mi; mi_others_next_action mi]
       = Ok input_target_value_fn /\
       agents_list !! own_idx = Some own /\
       ReplayBuffer.get_samples_from_buffer (memory (h own)) batch_idxs = Ok s_own /\
       mi_own_next_action mi
       = mkMat na (map (ActorNetwork_row (target_actor (h own)))
                       (rows (ReplayBuffer.s_obs_next s_own))) /\
       target_value
       = mkMat 1 (map3 (fun r q d => [(r + gamma (h self) * hd 0 q * d)%R])
                    (ReplayBuffer.s_rewards s_own)
                    (map2 (CriticNetwork_row (target_critic (h self)))
                          (rows input_target_value_fn)
                          (rows (mi_own_next_action mi)))
                    (ReplayBuffer.s_terminal s_own)) /\
       Agent_Multi_learn h g self agents_list own_idx
       = (let* (own_actual_action, actual_action_n_t) :=
            py_pop (mi_actual_action_n_t mi) own_idx in
          let* others := T_cat0 actual_action_n_t in
          let* input_value_fn := T_cat1 [mi_state_t mi; others] in
          let* critic_value :=
            CriticNetwork_forward (critic (eval_mode_all h agents_list self))
              input_value_fn own_actual_action in
          let* own_obs := py_index (mi_obs_n_t mi) own_idx in
          let* me := update_networks (eval_mode_all h agents_list self) target_value
                       critic_value input_value_fn own_actual_action own_obs in
          Ok (heap_set (eval_mode_all h agents_list) self me, g1)) /\
       (critic_dims (critic (h self))
          (fold_right Nat.add 0 (map n_of agents_list) + na) f1 f2 na ->
        exists input_value_fn critic_value,
          Agent_Multi_learn h g self agents_list own_idx
          = (let* me := update_networks (eval_mode_all h agents_list self)
                          target_value critic_value input_value_fn
                          (ReplayBuffer.s_actions s_own) (ReplayBuffer.s_obs s_own) in
             Ok (heap_set (eval_mode_all h agents_list) self me, g1)) /\
          ncols input_value_fn = fold_right Nat.add 0 (map n_of agents_list) + na /\
          nrows input_value_fn = batch_size (h self) /\
          critic_value
          = mkMat 1 (map2 (CriticNetwork_row
                             (critic (eval_mode_all h agents_list self)))
                          (rows input_value_fn)
                          (rows (ReplayBuffer.s_actions s_own))))).
Proof.
  split; [|split].
  - intros B gamma0 reward qrows done Lr Lq Ld Hq.
    split; [now apply td_target_ok|]. split; [now apply bootstrap_ok|].
    intros k q Hk. split; intros Hd.
    + erewrite lookup_map2 by eassumption. do 2 f_equal. ring.
    + erewrite lookup_map2 by eassumption. do 2 f_equal. ring.
  - intros self g n_obs f1 f2 na Hok Hg.
    destruct (single_learn_target self g n_obs f1 f2 na Hok Hg)
      as (idxs & g1 & s & tv & cv & E1 & _ & E2 & E3 & E4 & E5 & E6 & E7).
    exists idxs, g1, s, tv, cv. repeat split; assumption.
  - intros h g self agents_list own_idx n_of na f1 f2 Hp Hl Hown Hc Hg.
    exact (multi_learn_continuation h g self agents_list own_idx n_of na f1 f2
             Hp Hl Hown Hc Hg).
Qed.

End TDTargetClaim.

Lemma C1_td_target_witness :
  (exists batch_idxs g1 s target_value critic_value,
     ReplayBuffer.get_batch_idxs toy_memory rng0 4 = Ok (batch_idxs, g1) /\
     ReplayBuffer.get_samples_from_buffer toy_memory batch_idxs = Ok s /\
     single_values (eval_mode (toy_agent 3 toy_memory 4)) s
     = Ok (target_value, critic_value) /\
     nrows target_value = 4) /\
  (exists batch_idxs g1 mi target_value s_own input_value_fn critic_value,
     ReplayBuffer.get_batch_idxs toy_memory rng0 4 = Ok (batch_idxs, g1) /\
     multi_target_value (toy_heap 7 4) 0 [0; 1] 0 batch_idxs
     = Ok (mi, target_value, eval_mode_all (toy_heap 7 4) [0; 1]) /\
     Agent_Multi_learn (AG := toy_autograd) (toy_heap 7 4) rng0 0 [0; 1] 0
     = (let* me := update_networks (AG := toy_autograd)
                     (eval_mode_all (toy_heap 7 4) [0; 1] 0)
                     target_value critic_value input_value_fn
                     (ReplayBuffer.s_actions s_own) (ReplayBuffer.s_obs s_own) in
        Ok (heap_set (eval_mode_all (toy_heap 7 4) [0; 1]) 0 me, g1))).
Proof.
  split.
  - destruct (proj1 (proj2 (C1_td_target (AG := toy_autograd)))
                (toy_agent 3 toy_memory 4) rng0 3 2 2 1 (toy_single_ok 4)
                ltac:(simpl; lia))
      as (idxs & g1 & s & tv & cv & E1 & E2 & E3 & _ & _ & E6 & _).
    exists idxs, g1, s, tv, cv. repeat split; assumption.
  - destruct (proj2 (proj2 (C1_td_target (AG := toy_autograd)))
                (toy_heap 7 4) rng0 0 [0; 1] 0 (fun _ => 3) 1 2 2
                (toy_peers 7 4 [0; 1]) eq_refl ltac:(lia) (toy_critic_dims 7 2 2 1)
                ltac:(simpl; lia))
      as (idxs & g1 & mi & tv & inp & own & s_own & E1 & E2 & _ & _ & _ & _ & _ & _
          & Hlearn).
    destruct (Hlearn (toy_critic_dims 7 2 2 1)) as (x & cv & El & _).
    exists idxs, g1, mi, tv, s_own, x, cv.
    split; [exact E1|]. split; [exact E2 | exact El].
Defined.

Section JointConcatenationClaim.
Context `{AG : Autograd}.

(** C10: once the guard passes, with a positive batch size,
    [Agent_Multi.learn] on three or more agents never returns: it raises.
    On well-formed peers it reaches the joint concatenation, where the
    joint next state has [batch_size] rows and the concatenated target
    actions of the others [(n - 1) * batch_size] rows, and raises the
    size mismatch of [T.cat(..., dim=1)].  With exactly two agents the
    concatenation succeeds, and with fewer [learn] raises as well. *)
Theorem C10_joint_concatenation :
  (forall (h : Heap) (g : RNG) (self : nat) (agents_list : list nat) (own_idx : nat),
     batch_size (h self) <= ReplayBuffer.mem_cntr (memory (h self)) ->
     0 < batch_size (h self) -> 3 <= length agents_list ->
     exists e, Agent_Multi_learn h g self agents_list own_idx = Err e) /\
  (forall (h : Heap) (g : RNG) (self : nat) (agents_list : list nat) (own_idx : nat)
          (n_of : nat -> nat) (na : nat),
     lockstep_peers h self agents_list n_of na ->
     batch_size (h self) <= ReplayBuffer.mem_cntr (memory (h self)) ->
     0 < batch_size (h self) -> 3 <= length agents_list ->
     own_idx < length agents_list ->
     Agent_Multi_learn h g self agents_list own_idx = Err cat1_error /\
     exists batch_idxs g1 mi,
       ReplayBuffer.get_batch_idxs (memory (h self)) g (batch_size (h self))
       = Ok (batch_idxs, g1) /\
       multi_inputs h agents_list own_idx batch_idxs
       = Ok (mi, eval_mode_all h agents_list) /\
       nrows (mi_new_state_t mi) = batch_size (h self) /\
       nrows (mi_others_next_action mi)
       = (length agents_list - 1) * batch_size (h self) /\
       T_cat1 [mi_new_state_t mi; mi_others_next_action mi] = Err cat1_error) /\
  (forall (h : Heap) (g : RNG) (self : nat) (agents_list : list nat) (own_idx : nat)
          (n_of : nat -> nat) (na : nat),
     lockstep_peers h self agents_list n_of na ->
     batch_size (h self) <= ReplayBuffer.mem_cntr (memory (h self)) ->
     length agents_list = 2 -> own_idx < 2 ->
     exists batch_idxs g1 mi input_target_value_fn,
       ReplayBuffer.get_batch_idxs (memory (h self)) g (batch_size (h self))
       = Ok (batch_idxs, g1) /\
       multi_inputs h agents_list own_idx batch_idxs
       = Ok (mi, eval_mode_all h agents_list) /\
       T_cat1 [mi_new_state_t mi; mi_others_next_action mi]
       = Ok input_target_value_fn /\
       nrows input_target_value_fn = batch_size (h self) /\
       ncols input_target_value_fn
       = fold_right Nat.add 0 (map n_of agents_list) + na) /\
  (forall (h : Heap) (g : RNG) (self : nat) (agents_list : list nat) (own_idx : nat),
     batch_size (h self) <= ReplayBuffer.mem_cntr (memory (h self)) ->
     length agents_list <= 1 ->
     exists e, Agent_Multi_learn h g self agents_list own_idx = Err e).
Proof.
  split; [exact multi_learn_never_three|].
  split; [|split; [|exact multi_learn_never_alone]].
  - intros h g self agents_list own_idx n_of na Hp Hg Hb Hl Hown.
    destruct (learn_sampling (h self) g (proj1 Hp) Hg) as (idxs & g1 & Ei & Li & Hi).
    pose proof (lockstep_peers_ok _ _ _ _ _ _ Hp Hi) as Hpo.
    destruct (multi_inputs_ok h agents_list own_idx n_of na idxs Hpo Hown
                ltac:(lia))
      as (mi & Em & _ & _ & _ & _ & Rn & _ & _ & _ & Ro).
    destruct (multi_target_value_mismatch h _ self agents_list own_idx idxs mi Em
                ltac:(lia) Hl) as [Ec Et].
    split.
    + eapply multi_learn_error_of_target; eassumption.
    + exists idxs, g1, mi.
      split; [exact Ei|]. split; [exact Em|]. split; [congruence|].
      split; [congruence | exact Ec].
  - intros h g self agents_list own_idx n_of na Hp Hg Hl Hown.
    destruct (learn_sampling (h self) g (proj1 Hp) Hg) as (idxs & g1 & Ei & Li & Hi).
    pose proof (lockstep_peers_ok _ _ _ _ _ _ Hp Hi) as Hpo.
    destruct (multi_inputs_ok h agents_list own_idx n_of na idxs Hpo
                ltac:(lia) ltac:(lia))
      as (mi & Em & _ & _ & Cn & _ & Rn & _ & _ & Co & Ro).
    rewrite Hl in Ro. simpl in Ro. rewrite Nat.add_0_r in Ro.
    exists idxs, g1, mi. eexists.
    split; [exact Ei|]. split; [exact Em|].
    rewrite T_cat1_pair. unfold cat_pair1. rewrite Rn, Ro, Nat.eqb_refl.
    split; [reflexivity|]. split.
    + unfold nrows in *; simpl. rewrite map2_length; congruence.
    + simpl. congruence.
Qed.

End JointConcatenationClaim.

Lemma C10_joint_concatenation_witness :
  Agent_Multi_learn (AG := toy_autograd) (toy_heap 10 4) rng0 0 [0; 1; 2] 0
  = Err cat1_error /\
  exists batch_idxs g1 mi,
    ReplayBuffer.get_batch_idxs toy_memory rng0 4 = Ok (batch_idxs, g1) /\
    multi_inputs (toy_heap 10 4) [0; 1; 2] 0 batch_idxs
    = Ok (mi, eval_mode_all (toy_heap 10 4) [0; 1; 2]) /\
    nrows (mi_new_state_t mi) = 4 /\
    nrows (mi_others_next_action mi) = 8.
Proof.
  destruct (proj1 (proj2 (C10_joint_concatenation (AG := toy_autograd)))
              (toy_heap 10 4) rng0 0 [0; 1; 2] 0 (fun _ => 3) 1
              (toy_peers 10 4 [0; 1; 2]) ltac:(simpl; lia) ltac:(simpl; lia)
              ltac:(simpl; lia) ltac:(simpl; lia))
    as (E & idxs & g1 & mi & E1 & E2 & E3 & E4 & _).
  split; [exact E|]. exists idxs, g1, mi. repeat split; assumption.
Defined.

(** ** Two runs of a joint update *)

Lemma res_rel_bind {A B : Type} (P : A -> A -> Prop) (Q : B -> B -> Prop)
    (m1 m2 : Res A) (k1 k2 : A -> Res B) :
  res_rel P m1 m2 ->
  (forall a b, P a b -> res_rel Q (k1 a) (k2 b)) ->
  res_rel Q (bind m1 k1) (bind m2 k2).
Proof.
  destruct m1 as [a|e1], m2 as [b|e2]; simpl; intros Hm Hk; try contradiction.
  - now apply Hk.
  - exact Hm.
Qed.

Lemma res_rel_refl {A : Type} (r : Res A) : res_rel eq r r.
Proof. destruct r; simpl; reflexivity. Qed.

Lemma res_rel_eq {A : Type} (r1 r2 : Res A) : res_rel eq r1 r2 -> r1 = r2.
Proof. destruct r1, r2; simpl; intros E; try contradiction; now subst. Qed.

Lemma take_same_length {A : Type} (l1 l2 : list A) (idxs : list nat) :
  length l1 = length l2 ->
  res_rel (fun _ _ => True) (ReplayBuffer.take l1 idxs) (ReplayBuffer.take l2 idxs).
Proof.
  intros El. unfold ReplayBuffer.take.
  induction idxs as [|i idxs IH]; simpl; [exact I|].
  unfold py_index at 1 3.
  destruct (l1 !! i) as [x|] eqn:E1, (l2 !! i) as [y|] eqn:E2; simpl.
  - destruct (mapM (py_index l1) idxs), (mapM (py_index l2) idxs); simpl in *;
      try contradiction; auto.
  - apply lookup_lt_Some in E1. apply lookup_ge_None in E2. lia.
  - apply lookup_lt_Some in E2. apply lookup_ge_None in E1. lia.
  - reflexivity.
Qed.

Section TwoRunsProofs.
Context `{AG : Autograd}.

Lemma differ_refl (x : Agent) : differ_in_rewards_only x x.
Proof.
  exists (ReplayBuffer.reward_memory (memory x)),
         (ReplayBuffer.terminal_memory (memory x)).
  split; [reflexivity|]. split; [reflexivity|].
  destruct x as [? ? ? ? ? ? ? ? ? ? [? ? ? ? ? ? ?] ? ? ? ? ? ? ? ? ?]. reflexivity.
Qed.

Lemma eval_mode_all_mem (agents_list : list nat) (h : Heap) (a : nat) :
  eval_mode_all h agents_list a
  = if existsb (Nat.eqb a) agents_list then eval_mode (h a) else h a.
Proof.
  unfold eval_mode_all. revert h.
  induction agents_list as [|x l IH]; intros h; simpl; [reflexivity|].
  rewrite IH. unfold heap_set.
  destruct (a =? x) eqn:Eax; simpl.
  - apply Nat.eqb_eq in Eax. subst. destruct (existsb _ l); reflexivity.
  - reflexivity.
Qed.

Lemma get_samples_differ (x y : Agent) (idxs : list nat) :
  differ_in_rewards_only x y ->
  res_rel same_obs_actions
    (ReplayBuffer.get_samples_from_buffer (memory x) idxs)
    (ReplayBuffer.get_samples_from_buffer (memory y) idxs).
Proof.
  intros (rm & tm & Lr & Lt & ->).
  unfold ReplayBuffer.get_samples_from_buffer. cbn [memory set_memory
    ReplayBuffer.obs_memory ReplayBuffer.action_memory ReplayBuffer.reward_memory
    ReplayBuffer.obs_next_memory ReplayBuffer.terminal_memory].
  eapply res_rel_bind; [apply res_rel_refl|]. intros o ? <-.
  eapply res_rel_bind; [apply res_rel_refl|]. intros a ? <-.
  eapply res_rel_bind; [apply take_same_length; congruence|]. intros r1 r2 _.
  eapply res_rel_bind; [apply res_rel_refl|]. intros n ? <-.
  eapply res_rel_bind; [apply take_same_length; congruence|]. intros t1 t2 _.
  simpl. repeat split.
Qed.

Lemma samples_differ (h1 h2 : Heap) (agents_list : list nat) (idxs : list nat) :
  (forall a, differ_in_rewards_only (h1 a) (h2 a)) ->
  res_rel (Forall2 (fun s1 s2 => same_obs_actions s1 s2))
    (mapM (fun a => ReplayBuffer.get_samples_from_buffer (memory (h1 a)) idxs)
          agents_list)
    (mapM (fun a => ReplayBuffer.get_samples_from_buffer (memory (h2 a)) idxs)
          agents_list).
Proof.
  intros Hd. induction agents_list as [|a l IH]; simpl; [constructor|].
  eapply res_rel_bind; [apply get_samples_differ, Hd|]. intros s1 s2 Hs.
  eapply res_rel_bind; [exact IH|]. intros l1 l2 Hl.
  simpl. constructor; assumption.
Qed.

Lemma samples_own (h1 h2 : Heap) (agents_list : list nat) (idxs : list nat)
    (own_idx own : nat) (l1 l2 : list ReplayBuffer.samples) :
  agents_list !! own_idx = Some own -> h1 own = h2 own ->
  mapM (fun a => ReplayBuffer.get_samples_from_buffer (memory (h1 a)) idxs)
       agents_list = Ok l1 ->
  mapM (fun a => ReplayBuffer.get_samples_from_buffer (memory (h2 a)) idxs)
       agents_list = Ok l2 ->
  l1 !! own_idx = l2 !! own_idx.
Proof.
  intros Eo Eh E1 E2.
  apply mapM_Forall2 in E1, E2.
  destruct (l1 !! own_idx) as [s1|] eqn:L1, (l2 !! own_idx) as [s2|] eqn:L2.
  - pose proof (Forall2_lookup_lr _ _ _ _ _ _ E1 Eo L1) as G1.
    pose proof (Forall2_lookup_lr _ _ _ _ _ _ E2 Eo L2) as G2.
    simpl in G1, G2. rewrite Eh in G1. congruence.
  - apply Forall2_length in E1, E2. apply lookup_lt_Some in L1.
    apply lookup_ge_None in L2. lia.
  - apply Forall2_length in E1, E2. apply lookup_lt_Some in L2.
    apply lookup_ge_None in L1. lia.
  - reflexivity.
Qed.

Lemma same_obs_actions_maps (l1 l2 : list ReplayBuffer.samples) :
  Forall2 (fun s1 s2 => same_obs_actions s1 s2) l1 l2 ->
  map ReplayBuffer.s_obs l1 = map ReplayBuffer.s_obs l2 /\
  map ReplayBuffer.s_actions l1 = map ReplayBuffer.s_actions l2 /\
  map ReplayBuffer.s_obs_next l1 = map ReplayBuffer.s_obs_next l2.
Proof.
  induction 1 as [|s1 s2 l1 l2 (Ho & Ha & Hn) _ (IHo & IHa & IHn)]; simpl;
    [repeat split|].
  rewrite Ho, Ha, Hn, IHo, IHa, IHn. repeat split.
Qed.

Lemma eval_mode_all_differ (h1 h2 : Heap) (agents_list : list nat) :
  (forall a, differ_in_rewards_only (h1 a) (h2 a)) ->
  forall a,
    target_actor (eval_mode_all h1 agents_list a)
    = target_actor (eval_mode_all h2 agents_list a) /\
    target_critic (eval_mode_all h1 agents_list a)
    = target_critic (eval_mode_all h2 agents_list a) /\
    batch_size (eval_mode_all h1 agents_list a)
    = batch_size (eval_mode_all h2 agents_list a) /\
    gamma (eval_mode_all h1 agents_list a)
    = gamma (eval_mode_all h2 agents_list a).
Proof.
  intros Hd a. rewrite !eval_mode_all_mem.
  destruct (Hd a) as (rm & tm & _ & _ & ->).
  destruct (existsb _ agents_list); repeat split.
Qed.

Lemma multi_inputs_differ (h1 h2 : Heap) (agents_list : list nat)
    (own_idx own : nat) (idxs : list nat) :
  (forall a, differ_in_rewards_only (h1 a) (h2 a)) ->
  agents_list !! own_idx = Some own -> h1 own = h2 own ->
  res_rel (fun r1 r2 => same_inputs own_idx (fst r1) (fst r2) /\
                        snd r1 = eval_mode_all h1 agents_list /\
                        snd r2 = eval_mode_all h2 agents_list)
    (multi_inputs h1 agents_list own_idx idxs)
    (multi_inputs h2 agents_list own_idx idxs).
Proof.
  intros Hd Eo Eh. unfold multi_inputs.
  pose proof (samples_differ h1 h2 agents_list idxs Hd) as Hs.
  pose proof (samples_own h1 h2 agents_list idxs own_idx own) as Hown.
  destruct (mapM _ agents_list) as [l1|e1] eqn:E1;
    destruct (mapM (fun a => ReplayBuffer.get_samples_from_buffer (memory (h2 a)) idxs)
                   agents_list) as [l2|e2] eqn:E2;
    simpl in Hs; try contradiction; cbn [bind]; [|exact Hs].
  specialize (Hown l1 l2 Eo Eh eq_refl eq_refl).
  destruct (same_obs_actions_maps _ _ Hs) as (Mo & Ma & Mn).
  destruct l1 as [|s1 l1], l2 as [|s2 l2]; try (inversion Hs; fail);
    [reflexivity|].
  rewrite <- Mo, <- Ma, <- Mn.
  eapply res_rel_bind; [apply res_rel_refl|]. intros st ? <-.
  eapply res_rel_bind; [apply res_rel_refl|]. intros nst ? <-.
  assert (Et : mapM (fun '(a, new_obs) =>
                       ActorNetwork_forward
                         (target_actor (eval_mode_all h1 agents_list a)) new_obs)
                    (combine agents_list (map ReplayBuffer.s_obs_next (s1 :: l1)))
               = mapM (fun '(a, new_obs) =>
                         ActorNetwork_forward
                           (target_actor (eval_mode_all h2 agents_list a)) new_obs)
                      (combine agents_list (map ReplayBuffer.s_obs_next (s1 :: l1)))).
  { generalize (combine agents_list (map ReplayBuffer.s_obs_next (s1 :: l1))).
    intros l. induction l as [|[a x] l IH]; simpl; [reflexivity|].
    destruct (eval_mode_all_differ h1 h2 agents_list Hd a) as (-> & _).
    now rewrite IH. }
  rewrite Et.
  eapply res_rel_bind; [apply res_rel_refl|]. intros tna ? <-.
  eapply res_rel_bind; [apply res_rel_refl|]. intros [own_next rest] ? <-.
  eapply res_rel_bind; [apply res_rel_refl|]. intros others ? <-.
  cbn [res_rel fst snd]. unfold same_inputs.
  cbn [mi_rwd_n_t mi_done_n_t mi_actual_action_n_t mi_obs_n_t mi_state_t
       mi_new_state_t mi_own_next_action mi_others_next_action].
  split; [|split; reflexivity].
  rewrite !list_lookup_fmap, Hown. repeat split; congruence.
Qed.

Lemma multi_target_value_differ (h1 h2 : Heap) (self : nat)
    (agents_list : list nat) (own_idx own : nat) (idxs : list nat) :
  (forall a, differ_in_rewards_only (h1 a) (h2 a)) ->
  agents_list !! own_idx = Some own -> h1 own = h2 own ->
  td_of (multi_target_value h1 self agents_list own_idx idxs)
  = td_of (multi_target_value h2 self agents_list own_idx idxs).
Proof.
  intros Hd Eo Eh. apply res_rel_eq.
  unfold td_of, multi_target_value.
  eapply res_rel_bind with
    (P := fun r1 r2 : MultiInputs * Mat * Heap => snd (fst r1) = snd (fst r2)).
  2: { intros [[m1 t1] g1] [[m2 t2] g2] E. simpl in *. congruence. }
  eapply res_rel_bind; [eapply multi_inputs_differ; eassumption|].
  intros [mi1 h1'] [mi2 h2'] (Hsame & E1 & E2). cbn [fst snd] in *. subst h1' h2'.
  destruct Hsame as (Hr & Hdn & Ha & Ho & Hst & Hnst & Hon & Hot).
  destruct (eval_mode_all_differ h1 h2 agents_list Hd self) as (_ & Etc & Eb & Eg).
  rewrite Hnst, Hot, Hon, Etc, Eb, Eg.
  eapply res_rel_bind; [apply res_rel_refl|]. intros inp ? <-.
  eapply res_rel_bind; [apply res_rel_refl|]. intros q ? <-.
  unfold py_index. rewrite Hr, Hdn.
  eapply res_rel_bind; [apply res_rel_refl|]. intros rwd ? <-.
  eapply res_rel_bind; [apply res_rel_refl|]. intros dn ? <-.
  eapply res_rel_bind; [apply res_rel_refl|]. intros tv ? <-.
  reflexivity.
Qed.

End TwoRunsProofs.

Section OwnDataClaim.
Context `{AG : Autograd}.

(** C3: take two heaps whose agents differ only in the rewards and the
    terminal flags of their buffers, and not at all for the agent at
    [agents_list[own_idx]].  Then a multi-agent [learn] samples the same
    indices in both, and for all indices the TD target is the same in
    both: the same value or the same exception. *)
Theorem C3_td_target_own_data_only (h1 h2 : Heap) (g : RNG) (self : nat)
    (agents_list : list nat) (own_idx own : nat) :
  (forall a, differ_in_rewards_only (h1 a) (h2 a)) ->
  agents_list !! own_idx = Some own ->
  h1 own = h2 own ->
  ReplayBuffer.get_batch_idxs (memory (h1 self)) g (batch_size (h1 self))
  = ReplayBuffer.get_batch_idxs (memory (h2 self)) g (batch_size (h2 self)) /\
  forall batch_idxs,
    td_of (multi_target_value h1 self agents_list own_idx batch_idxs)
    = td_of (multi_target_value h2 self agents_list own_idx batch_idxs).
Proof.
  intros Hd Eo Eh. split.
  - destruct (Hd self) as (rm & tm & _ & _ & ->). reflexivity.
  - intros idxs. eapply multi_target_value_differ; eassumption.
Qed.

End OwnDataClaim.

Lemma toy_heaps_differ (n_crit batch : nat) (a : nat) :
  differ_in_rewards_only (toy_heap n_crit batch a) (toy_heap' n_crit batch a).
Proof.
  unfold toy_heap, toy_heap'. destruct (a =? 1).
  - exists [7; 7; 7; 7; 7; 0; 0; 0; 0; 0]%R, [0; 0; 1; 0; 0; 0; 0; 0; 0; 0]%R.
    repeat split.
  - apply differ_refl.
Qed.

Lemma C3_td_target_own_data_only_witness :
  ReplayBuffer.reward_memory (memory (toy_heap 7 4 1))
  <> ReplayBuffer.reward_memory (memory (toy_heap' 7 4 1)) /\
  (forall batch_idxs,
     td_of (multi_target_value (toy_heap 7 4) 0 [0; 1] 0 batch_idxs)
     = td_of (multi_target_value (toy_heap' 7 4) 0 [0; 1] 0 batch_idxs)) /\
  exists batch_idxs g1 target_value,
    ReplayBuffer.get_batch_idxs toy_memory rng0 4 = Ok (batch_idxs, g1) /\
    td_of (multi_target_value (toy_heap 7 4) 0 [0; 1] 0 batch_idxs) = Ok target_value /\
    td_of (multi_target_value (toy_heap' 7 4) 0 [0; 1] 0 batch_idxs) = Ok target_value.
Proof.
  pose proof (proj2 (C3_td_target_own_data_only
                       (toy_heap 7 4) (toy_heap' 7 4) rng0 0 [0; 1] 0 0
                       (toy_heaps_differ 7 4) eq_refl eq_refl)) as Hsame.
  split; [|split; [exact Hsame|]].
  - simpl. intros E. injection E as E _. lra.
  - destruct (multi_learn_target (toy_heap 7 4) rng0 0 [0; 1] 0
                (fun _ => 3) 1 2 2 (toy_peers 7 4 [0; 1]) eq_refl ltac:(lia)
                (toy_critic_dims 7 2 2 1) ltac:(simpl; lia))
      as (idxs & g1 & mi & tv & _ & _ & _ & E1 & E2 & _).
    exists idxs, g1, tv. split; [exact E1|].
    rewrite <- Hsame. rewrite E2. split; reflexivity.
Defined.

(** ** Actions *)

Lemma lookup_map2_inv {A B C : Type} (f : A -> B -> C) l1 l2 k c :
  map2 f l1 l2 !! k = Some c ->
  exists a b, l1 !! k = Some a /\ l2 !! k = Some b /\ c = f a b.
Proof.
  revert l2 k. induction l1 as [|x l1 IH]; intros [|y l2] k Hk; simpl in Hk;
    try (rewrite lookup_nil in Hk; discriminate).
  destruct k as [|k]; simpl in *.
  - injection Hk as <-. eauto.
  - now apply IH.
Qed.

Lemma ou_step_ok (n : OUActionNoise.t) (xi : Vec) :
  length (OUActionNoise.x_prev n) = length (OUActionNoise.mu n) ->
  length xi = length (OUActionNoise.mu n) ->
  OUActionNoise.step n xi = Ok (ou_sample n xi).
Proof.
  intros Lx Lxi. unfold OUActionNoise.step, np_sub, np_add.
  rewrite np_binop_same by congruence. cbn [bind].
  rewrite np_binop_same
    by (unfold np_rscale, np_scale; rewrite !length_map, map2_length; congruence).
  cbn [bind].
  rewrite np_binop_same
    by (unfold np_rscale, np_scale; rewrite length_map, map2_length;
        rewrite ?length_map, ?map2_length; congruence).
  f_equal. unfold ou_sample, np_rscale, np_scale.
  generalize (OUActionNoise.mu n) (OUActionNoise.x_prev n) Lx Lxi. clear.
  intros mu. revert xi. induction mu as [|m mu IH]; intros [|z xi] [|x xp] Lx Lxi;
    simpl in *; try discriminate; try reflexivity.
  f_equal. apply IH; lia.
Qed.

Lemma ou_call_ok (n : OUActionNoise.t) (g : RNG) :
  length (OUActionNoise.x_prev n) = length (OUActionNoise.mu n) ->
  let xi := fst (np_random_normal g (length (OUActionNoise.mu n))) in
  OUActionNoise.call n g
  = Ok (ou_sample n xi, OUActionNoise.set_x_prev n (ou_sample n xi),
        snd (np_random_normal g (length (OUActionNoise.mu n)))).
Proof.
  intros Lx xi. unfold OUActionNoise.call.
  destruct (np_random_normal g (length (OUActionNoise.mu n))) as [xi' g'] eqn:E.
  subst xi. cbn [fst snd].
  rewrite ou_step_ok; [reflexivity | exact Lx |].
  unfold np_random_normal in E. injection E as <- _.
  now rewrite length_map, length_seq.
Qed.

Lemma length_ou_sample (n : OUActionNoise.t) (xi : Vec) :
  length (OUActionNoise.x_prev n) = length (OUActionNoise.mu n) ->
  length xi = length (OUActionNoise.mu n) ->
  length (ou_sample n xi) = length (OUActionNoise.mu n).
Proof.
  intros Lx Lxi. unfold ou_sample. rewrite length_map3; congruence.
Qed.

Lemma affine_in_bounds (v lo hi : Vec) :
  Forall (fun y => (-1 < y < 1)%R) v ->
  forall k r l u,
    affine_action v (half (map2 Rminus hi lo)) (half (map2 Rplus hi lo)) !! k = Some r ->
    lo !! k = Some l -> hi !! k = Some u -> (l <= u)%R ->
    (l <= r <= u)%R.
Proof.
  intros Hv k r l u Hr Hl Hu Hle. unfold affine_action, half in Hr.
  apply lookup_map2_inv in Hr as (p & s & Hp & Hs & ->).
  apply lookup_map2_inv in Hp as (y & c & Hy & Hc & ->).
  rewrite list_lookup_fmap in Hs, Hc.
  destruct (map2 Rplus hi lo !! k) as [s0|] eqn:Es; [|discriminate].
  destruct (map2 Rminus hi lo !! k) as [c0|] eqn:Ec; [|discriminate].
  simpl in Hs, Hc. injection Hs as <-. injection Hc as <-.
  apply lookup_map2_inv in Es as (u1 & l1 & Hu1 & Hl1 & ->).
  apply lookup_map2_inv in Ec as (u2 & l2 & Hu2 & Hl2 & ->).
  assert (u1 = u) by congruence. assert (u2 = u) by congruence.
  assert (l1 = l) by congruence. assert (l2 = l) by congruence. subst.
  pose proof (Forall_lookup_1 _ _ _ _ Hv Hy) as [Hy1 Hy2]. simpl in *.
  split; nra.
Qed.

Lemma affine_above (v lo hi : Vec) :
  forall k r l u y,
    affine_action v (half (map2 Rminus hi lo)) (half (map2 Rplus hi lo)) !! k = Some r ->
    v !! k = Some y -> lo !! k = Some l -> hi !! k = Some u ->
    (l < u)%R -> (1 < y)%R -> (u < r)%R.
Proof.
  intros k r l u y Hr Hy Hl Hu Hlt Hy1. unfold affine_action, half in Hr.
  apply lookup_map2_inv in Hr as (p & s & Hp & Hs & ->).
  apply lookup_map2_inv in Hp as (y' & c & Hy' & Hc & ->).
  rewrite list_lookup_fmap in Hs, Hc.
  destruct (map2 Rplus hi lo !! k) as [s0|] eqn:Es; [|discriminate].
  destruct (map2 Rminus hi lo !! k) as [c0|] eqn:Ec; [|discriminate].
  simpl in Hs, Hc. injection Hs as <-. injection Hc as <-.
  apply lookup_map2_inv in Es as (u1 & l1 & Hu1 & Hl1 & ->).
  apply lookup_map2_inv in Ec as (u2 & l2 & Hu2 & Hl2 & ->).
  assert (u1 = u) by congruence. assert (u2 = u) by congruence.
  assert (l1 = l) by congruence. assert (l2 = l) by congruence.
  assert (y' = y) by congruence. subst.
  nra.
Qed.

Section ChooseAction.
Context `{AG : Autograd}.

Lemma forward_1d_ok (a : ActorNetwork) (n f1 f2 na : nat) (obs : Vec) :
  actor_dims a n f1 f2 na -> length obs = n ->
  ActorNetwork_forward_1d a obs = Ok (ActorNetwork_row a obs).
Proof.
  intros Ha Lo. unfold ActorNetwork_forward_1d.
  rewrite (ActorNetwork_forward_ok a n f1 f2 na (row_mat obs) Ha Lo). reflexivity.
Qed.

Lemma choose_action_quiet (self : Agent) (g : RNG) (obs : Vec) (n_obs f1 f2 na : nat) :
  action_ok self n_obs f1 f2 na -> length obs = n_obs ->
  choose_action self g obs false
  = Ok (affine_action (ActorNetwork_row (actor self) obs) (scale self) (shift self),
        set_actor self (ActorNetwork_set_training (actor self) true), g).
Proof.
  intros (Ha & Ll & Lh & Esc & Esh & _ & _) Lo. unfold choose_action.
  cbn [actor set_actor].
  rewrite (forward_1d_ok _ n_obs f1 f2 na obs) by assumption.
  cbn [bind scale shift actor set_actor].
  assert (Lr : length (ActorNetwork_row (actor self) obs) = na)
    by (eapply ActorNetwork_row_length; exact Ha).
  change (ActorNetwork_row (ActorNetwork_set_training (actor self) false) obs)
    with (ActorNetwork_row (actor self) obs).
  unfold np_mul, np_add.
  rewrite np_binop_same.
  2: { rewrite Esc. unfold half. rewrite length_map, map2_length; congruence. }
  cbn [bind].
  rewrite np_binop_same.
  2: { rewrite map2_length; rewrite ?Esc, ?Esh; unfold half;
       rewrite length_map, map2_length; congruence. }
  destruct self; reflexivity.
Qed.

Lemma choose_action_noisy (self : Agent) (g : RNG) (obs : Vec) (n_obs f1 f2 na : nat) :
  action_ok self n_obs f1 f2 na -> length obs = n_obs ->
  let xi := fst (np_random_normal g na) in
  let n := ou_sample (noise self) xi in
  choose_action self g obs true
  = Ok (affine_action (map2 Rplus (ActorNetwork_row (actor self) obs) n)
                      (scale self) (shift self),
        set_noise (set_actor self (ActorNetwork_set_training (actor self) true))
                  (OUActionNoise.set_x_prev (noise self) n),
        snd (np_random_normal g na)).
Proof.
  intros (Ha & Ll & Lh & Esc & Esh & Lmu & Lx) Lo xi n. unfold choose_action.
  cbn [actor set_actor].
  rewrite (forward_1d_ok _ n_obs f1 f2 na obs) by assumption.
  cbn [bind scale shift actor set_actor noise].
  change (ActorNetwork_row (ActorNetwork_set_training (actor self) false) obs)
    with (ActorNetwork_row (actor self) obs).
  assert (Lr : length (ActorNetwork_row (actor self) obs) = na)
    by (eapply ActorNetwork_row_length; exact Ha).
  rewrite ou_call_ok by congruence. rewrite Lmu. fold xi. fold n.
  cbn [bind].
  assert (Ln : length n = na).
  { unfold n. rewrite length_ou_sample; try congruence.
    unfold xi, np_random_normal. cbn [fst]. rewrite length_map, length_seq. congruence. }
  unfold np_mul, np_add.
  rewrite np_binop_same by congruence. cbn [bind scale shift set_noise].
  rewrite np_binop_same.
  2: { cbn [scale shift set_actor set_noise].
       rewrite map2_length by congruence. rewrite Esc. unfold half.
       rewrite length_map, map2_length; congruence. }
  cbn [bind].
  rewrite np_binop_same.
  2: { cbn [scale shift set_actor set_noise].
       rewrite !map2_length; rewrite ?map2_length, ?Esc, ?Esh; unfold half;
       rewrite ?length_map, ?map2_length; congruence. }
  destruct self; reflexivity.
Qed.

End ChooseAction.

Lemma np_random_normal_of (xi : Vec) :
  fst (np_random_normal (rng_of_normals xi) (length xi)) = xi.
Proof.
  unfold np_random_normal, rng_of_normals. cbn [fst normal_seq normal_pos].
  apply list_eq. intros i. rewrite list_lookup_fmap.
  destruct (Nat.lt_ge_cases i (length xi)) as [Hi|Hi].
  - rewrite lookup_seq_lt by exact Hi. simpl.
    destruct (lookup_lt_is_Some_2 xi i Hi) as (x & Hx).
    rewrite Hx. f_equal. rewrite nth_lookup, Hx. reflexivity.
  - rewrite lookup_seq_ge by exact Hi. simpl.
    symmetry. now apply lookup_ge_None.
Qed.

Lemma ou_sample_reaching (n : OUActionNoise.t) (target : R) (k : nat) (z : R) :
  (OUActionNoise.sigma n * sqrt (OUActionNoise.dt n) <> 0)%R ->
  ou_sample n (draws_reaching n target) !! k = Some z -> z = target.
Proof.
  intros Hc. unfold ou_sample, draws_reaching.
  generalize (OUActionNoise.mu n) (OUActionNoise.x_prev n). intros mu.
  revert k z. induction mu as [|m mu IH]; intros k z [|x xp] Hk; simpl in Hk;
    try (rewrite lookup_nil in Hk; discriminate).
  destruct k as [|k]; simpl in Hk.
  - injection Hk as <-. field. split; intros E; apply Hc; rewrite E; ring.
  - eapply IH. exact Hk.
Qed.

Section ChooseActionClaim.
Context `{AG : Autograd}.

(** C9: [choose_action] on an agent as the constructors set it up.  The
    actor output lies strictly between -1 and 1.  With exploration the
    result is [(actor(obs) + noise) * scale + shift] for the sample of the
    noise process, which becomes the state of the process, and nothing
    clips it: with a noise process that is not degenerate there are
    draws for which every component with [low < high] ends above
    [high].  Without exploration the result is [actor(obs) * scale +
    shift] and every component with [low <= high] lies in
    [[low, high]]. *)
Theorem C9_choose_action (self : Agent) (g : RNG) (obs : Vec)
    (n_obs f1 f2 na : nat) :
  action_ok self n_obs f1 f2 na -> length obs = n_obs ->
  let mu := ActorNetwork_row (actor self) obs in
  Forall (fun y => (-1 < y < 1)%R) mu /\
  (exists n noise' self' g',
     OUActionNoise.call (noise self) g = Ok (n, noise', g') /\
     choose_action self g obs true
     = Ok (affine_action (map2 Rplus mu n) (scale self) (shift self), self', g') /\
     noise self' = noise' /\ OUActionNoise.x_prev noise' = n) /\
  ((OUActionNoise.sigma (noise self) * sqrt (OUActionNoise.dt (noise self)) <> 0)%R ->
   exists g2 a self' g',
     choose_action self g2 obs true = Ok (a, self', g') /\
     length a = na /\
     forall k r l u,
       a !! k = Some r ->
       low (action_space self) !! k = Some l ->
       high (action_space self) !! k = Some u ->
       (l < u)%R -> (u < r)%R) /\
  (exists self',
     choose_action self g obs false
     = Ok (affine_action mu (scale self) (shift self), self', g) /\
     forall k r l u,
       affine_action mu (scale self) (shift self) !! k = Some r ->
       low (action_space self) !! k = Some l ->
       high (action_space self) !! k = Some u ->
       (l <= u)%R -> (l <= r <= u)%R).
Proof.
  intros Hok Lo mu.
  pose proof Hok as (Ha & Ll & Lh & Esc & Esh & Lmu & Lx).
  assert (Lr : length mu = na) by (eapply ActorNetwork_row_length; exact Ha).
  split; [apply ActorNetwork_row_bounds|]. split; [|split].
  - eexists _, _, _, _. split; [apply ou_call_ok; congruence|].
    rewrite Lmu. split; [exact (choose_action_noisy self g obs _ _ _ _ Hok Lo)|].
    split; reflexivity.
  - intros Hc.
    set (xi := draws_reaching (noise self) 2).
    assert (Lxi : length xi = na).
    { unfold xi, draws_reaching. rewrite map2_length; congruence. }
    exists (rng_of_normals xi). eexists _, _, _.
    split; [exact (choose_action_noisy self (rng_of_normals xi) obs _ _ _ _ Hok Lo)|].
    assert (Exi : fst (np_random_normal (rng_of_normals xi) na) = xi)
      by (rewrite <- Lxi; apply np_random_normal_of).
    rewrite Exi.
    assert (Ln : length (ou_sample (noise self) xi) = na).
    { rewrite length_ou_sample; congruence. }
    split.
    { unfold affine_action. rewrite Esc, Esh. unfold half.
      assert (L1 : length (map2 Rplus mu (ou_sample (noise self) xi)) = na)
        by (rewrite map2_length; congruence).
      assert (L2 : length (map (fun x => (x / 2)%R)
                             (map2 Rminus (high (action_space self))
                                   (low (action_space self)))) = na)
        by (rewrite length_map, map2_length; congruence).
      assert (L3 : length (map (fun x => (x / 2)%R)
                             (map2 Rplus (high (action_space self))
                                   (low (action_space self)))) = na)
        by (rewrite length_map, map2_length; congruence).
      unfold mu in *.
      rewrite map2_length; rewrite map2_length; congruence. }
    intros k r l u Hr Hl Hu Hlu. rewrite Esc, Esh in Hr.
    pose proof Hr as Hr'. unfold affine_action in Hr'.
    apply lookup_map2_inv in Hr' as (p & s & Hp & _ & _).
    apply lookup_map2_inv in Hp as (y & c & Hy & _ & _).
    eapply affine_above; try eassumption.
    apply lookup_map2_inv in Hy as (m & z & Hm & Hz & ->).
    apply (ou_sample_reaching _ _ _ _ Hc) in Hz. subst z.
    pose proof (Forall_lookup_1 _ _ _ _ (ActorNetwork_row_bounds (actor self) obs) Hm)
      as [Hm1 _]. simpl in Hm1. lra.
  - eexists. split; [exact (choose_action_quiet self g obs _ _ _ _ Hok Lo)|].
    rewrite Esc, Esh. apply affine_in_bounds. apply ActorNetwork_row_bounds.
Qed.

End ChooseActionClaim.

Lemma toy_action_ok (n_crit batch : nat) :
  action_ok (toy_agent n_crit toy_memory batch) 3 2 2 1.
Proof.
  unfold action_ok. split; [apply toy_actor_dims|].
  simpl. repeat split; f_equal; lra.
Qed.

Lemma C9_choose_action_witness :
  exists g2 a self' g',
    choose_action (toy_agent 3 toy_memory 4) g2 [0; 0; 0]%R true = Ok (a, self', g') /\
    length a = 1 /\
    forall r, a !! 0 = Some r -> (1 < r)%R.
Proof.
  destruct (proj1 (proj2 (proj2
              (C9_choose_action (toy_agent 3 toy_memory 4) rng0 [0; 0; 0]%R 3 2 2 1
                 (toy_action_ok 3 4) eq_refl))))
    as (g2 & a & self' & g' & E & La & Hout).
  { simpl. intros E. apply Rmult_integral in E as [E|E]; [lra|].
    apply sqrt_eq_0 in E; lra. }
  exists g2, a, self', g'. split; [exact E|]. split; [exact La|].
  intros r Hr. apply (Hout 0 r (-1)%R 1%R Hr eq_refl eq_refl). lra.
Defined.
(** * Further properties *)

(** ** Noise: sequences of samples *)

Lemma ou_sample_sigma0 (n : OUActionNoise.t) (xi : Vec) :
  OUActionNoise.sigma n = 0%R ->
  length (OUActionNoise.x_prev n) = length (OUActionNoise.mu n) ->
  length xi = length (OUActionNoise.mu n) ->
  ou_sample n xi
  = ou_mean_step (OUActionNoise.theta n) (OUActionNoise.dt n)
      (OUActionNoise.mu n) (OUActionNoise.x_prev n).
Proof.
  intros Hs. unfold ou_sample, ou_mean_step. rewrite Hs.
  generalize (OUActionNoise.mu n) (OUActionNoise.x_prev n). intros mu.
  revert xi. induction mu as [|m mu IH]; intros [|z xi] [|x xp]; simpl;
    intros E1 E2; try discriminate; try reflexivity.
  f_equal; [ring | apply IH; lia].
Qed.

Lemma ou_mean_after_0 (theta dt : R) (mu start : Vec) :
  length start = length mu -> ou_mean_after theta dt mu start 0 = start.
Proof.
  unfold ou_mean_after. revert start.
  induction mu as [|m mu IH]; intros [|s start]; simpl; intros E;
    try discriminate; try reflexivity.
  f_equal; [ring | apply IH; lia].
Qed.

Lemma ou_mean_after_step (theta dt : R) (mu start : Vec) (k : nat) :
  ou_mean_after theta dt mu (ou_mean_step theta dt mu start) k
  = ou_mean_after theta dt mu start (S k).
Proof.
  unfold ou_mean_after, ou_mean_step. revert start.
  induction mu as [|m mu IH]; intros [|s start]; simpl; try reflexivity.
  f_equal; [ring | apply IH].
Qed.

Lemma length_ou_mean_step (theta dt : R) (mu start : Vec) :
  length start = length mu -> length (ou_mean_step theta dt mu start) = length mu.
Proof. intros E. unfold ou_mean_step. now apply map2_length. Qed.

Lemma length_np_random_normal (g : RNG) (n : nat) :
  length (fst (np_random_normal g n)) = n.
Proof. unfold np_random_normal. simpl. now rewrite length_map, length_seq. Qed.

Lemma ou_calls_sigma0 (k : nat) :
  forall (n : OUActionNoise.t) (g : RNG),
  OUActionNoise.sigma n = 0%R ->
  length (OUActionNoise.x_prev n) = length (OUActionNoise.mu n) ->
  exists xs n' g',
    ou_calls n g k = Ok (xs, n', g') /\
    length xs = k /\
    (forall j, j < k ->
       xs !! j = Some (ou_mean_after (OUActionNoise.theta n) (OUActionNoise.dt n)
                         (OUActionNoise.mu n) (OUActionNoise.x_prev n) (S j))) /\
    OUActionNoise.x_prev n'
    = ou_mean_after (OUActionNoise.theta n) (OUActionNoise.dt n)
        (OUActionNoise.mu n) (OUActionNoise.x_prev n) k.
Proof.
  induction k as [|k IH]; intros n g Hs Hl.
  - exists [], n, g. simpl. split; [reflexivity|]. split; [reflexivity|].
    split; [intros j Hj; lia|]. symmetry. now apply ou_mean_after_0.
  - simpl ou_calls. rewrite (ou_call_ok n g Hl).
    rewrite (ou_sample_sigma0 n _ Hs Hl (length_np_random_normal _ _)).
    set (x := ou_mean_step _ _ _ _).
    set (g1 := snd _).
    destruct (IH (OUActionNoise.set_x_prev n x) g1) as (xs & n' & g' & E & Hlen & Hxs & Hp).
    { exact Hs. }
    { simpl. now apply length_ou_mean_step. }
    exists (x :: xs), n', g'. cbn [bind]. rewrite E. cbn [bind].
    split; [reflexivity|]. split; [simpl; lia|]. split.
    + intros [|j] Hj; simpl.
      * f_equal. unfold x. rewrite <- ou_mean_after_step.
        symmetry. apply ou_mean_after_0. now apply length_ou_mean_step.
      * rewrite Hxs by lia. simpl. f_equal. apply ou_mean_after_step.
    + rewrite Hp. simpl. apply ou_mean_after_step.
Qed.

(** X1: with [sigma = 0], the [j]-th sample after [reset] (counting from
    1) is [mu + (1 - theta * dt)^j * (start - mu)] componentwise, where
    [start] is [x0] or the zero vector: the process relaxes geometrically
    to [mu], and [x_prev] ends at the last sample. *)
Theorem ou_mean_reversion (self : OUActionNoise.t) (g : RNG) (k : nat) :
  OUActionNoise.sigma self = 0%R ->
  length (ou_start self) = length (OUActionNoise.mu self) ->
  exists xs self' g',
    ou_calls (OUActionNoise.reset self) g k = Ok (xs, self', g') /\
    length xs = k /\
    (forall j, j < k ->
       xs !! j = Some (ou_mean_after (OUActionNoise.theta self) (OUActionNoise.dt self)
                         (OUActionNoise.mu self) (ou_start self) (S j))) /\
    OUActionNoise.x_prev self'
    = ou_mean_after (OUActionNoise.theta self) (OUActionNoise.dt self)
        (OUActionNoise.mu self) (ou_start self) k.
Proof.
  intros Hs Hl.
  exact (ou_calls_sigma0 k (OUActionNoise.reset self) g Hs Hl).
Qed.

Lemma ou_mean_reversion_witness :
  exists xs self' g',
    ou_calls (OUActionNoise.reset ou_example) rng0 2 = Ok (xs, self', g') /\
    xs !! 1 = Some (ou_mean_after (1 / 5) (1 / 5) [0%R] [1%R] 2).
Proof.
  destruct (ou_mean_reversion ou_example rng0 2 eq_refl eq_refl)
    as (xs & self' & g' & E & _ & Hxs & _).
  exists xs, self', g'. split; [exact E | exact (Hxs 1 ltac:(lia))].
Defined.

Lemma ou_calls_frame (k : nat) :
  forall (n n' : OUActionNoise.t) (g g' : RNG) (xs : list Vec),
  ou_calls n g k = Ok (xs, n', g') ->
  OUActionNoise.theta n' = OUActionNoise.theta n /\
  OUActionNoise.mu n' = OUActionNoise.mu n /\
  OUActionNoise.sigma n' = OUActionNoise.sigma n /\
  OUActionNoise.dt n' = OUActionNoise.dt n /\
  OUActionNoise.x0 n' = OUActionNoise.x0 n.
Proof.
  induction k as [|k IH]; intros n n' g g' xs E; simpl in E.
  - injection E as <- <- <-. repeat split.
  - unfold OUActionNoise.call in E.
    destruct (np_random_normal g (length (OUActionNoise.mu n))) as [xi g1].
    destruct (OUActionNoise.step n xi) as [x|e]; cbn [bind] in E; [|discriminate].
    destruct (ou_calls (OUActionNoise.set_x_prev n x) g1 k) as [[[xs' n''] g'']|e] eqn:E';
      cbn [bind] in E; [|discriminate].
    injection E as <- <- <-.
    apply IH in E'. exact E'.
Qed.

(** X2: [reset] forgets the history: after any number of samples the
    process keeps its parameters and [reset] brings it to the state that
    [reset] gives the process before the samples. *)
Theorem ou_reset_forgets (self self' : OUActionNoise.t) (g g' : RNG) (k : nat)
    (xs : list Vec) :
  ou_calls self g k = Ok (xs, self', g') ->
  OUActionNoise.reset self' = OUActionNoise.reset self /\
  OUActionNoise.reset (OUActionNoise.reset self') = OUActionNoise.reset self.
Proof.
  intros E. apply ou_calls_frame in E as (Ht & Hm & Hs & Hd & Hx).
  unfold OUActionNoise.reset, OUActionNoise.set_x_prev. simpl.
  rewrite Ht, Hm, Hs, Hd, Hx. split; reflexivity.
Qed.

Lemma ou_reset_forgets_witness :
  exists xs self' g',
    ou_calls (OUActionNoise.reset ou_example) rng0 2 = Ok (xs, self', g') /\
    OUActionNoise.reset self' = OUActionNoise.reset (OUActionNoise.reset ou_example).
Proof.
  destruct (ou_calls_sigma0 2 (OUActionNoise.reset ou_example) rng0 eq_refl eq_refl)
    as (xs & self' & g' & E & _).
  exists xs, self', g'. split; [exact E|].
  exact (proj1 (ou_reset_forgets _ _ _ _ _ _ E)).
Defined.

Lemma ou_calls_ok (k : nat) :
  forall (n : OUActionNoise.t) (g : RNG),
  length (OUActionNoise.x_prev n) = length (OUActionNoise.mu n) ->
  exists xs n' g',
    ou_calls n g k = Ok (xs, n', g') /\
    length xs = k /\
    Forall (fun x => length x = length (OUActionNoise.mu n)) xs /\
    length (OUActionNoise.x_prev n') = length (OUActionNoise.mu n) /\
    normal_pos g' = normal_pos g + k * length (OUActionNoise.mu n) /\
    choice_pos g' = choice_pos g /\ uniform_pos g' = uniform_pos g /\
    choice_seq g' = choice_seq g /\ normal_seq g' = normal_seq g /\
    uniform_seq g' = uniform_seq g.
Proof.
  induction k as [|k IH]; intros n g Hl.
  - exists [], n, g. simpl. repeat split; try reflexivity; try assumption; try lia.
    constructor.
  - simpl ou_calls. rewrite (ou_call_ok n g Hl).
    set (x := ou_sample n _).
    assert (Hx : length x = length (OUActionNoise.mu n)).
    { unfold x. apply length_ou_sample; [exact Hl | apply length_np_random_normal]. }
    destruct (IH (OUActionNoise.set_x_prev n x)
                 (snd (np_random_normal g (length (OUActionNoise.mu n)))))
      as (xs & n' & g' & E & Hlen & Hxs & Hp & Hn & Hc & Hu & Hcs & Hns & Hus).
    { exact Hx. }
    exists (x :: xs), n', g'. cbn [bind]. rewrite E. cbn [bind].
    simpl in Hxs, Hp, Hn, Hc, Hu, Hcs, Hns, Hus.
    split; [reflexivity|]. split; [simpl; lia|].
    split; [constructor; assumption|]. split; [exact Hp|].
    split; [lia|]. repeat split; assumption.
Qed.

(** X3: on a process whose [x_prev] has the shape of [mu], any number of
    samples succeeds; every sample has the shape of [mu], each call
    consumes exactly [len(mu)] normal draws and nothing else of the
    generator, and [x_prev] keeps its shape. *)
Theorem ou_samples_shape (self : OUActionNoise.t) (g : RNG) (k : nat) :
  length (OUActionNoise.x_prev self) = length (OUActionNoise.mu self) ->
  exists xs self' g',
    ou_calls self g k = Ok (xs, self', g') /\
    length xs = k /\
    Forall (fun x => length x = length (OUActionNoise.mu self)) xs /\
    length (OUActionNoise.x_prev self') = length (OUActionNoise.mu self) /\
    normal_pos g' = normal_pos g + k * length (OUActionNoise.mu self) /\
    choice_pos g' = choice_pos g /\ uniform_pos g' = uniform_pos g.
Proof.
  intros Hl.
  destruct (ou_calls_ok k self g Hl)
    as (xs & n' & g' & E & Hlen & Hxs & Hp & Hn & Hc & Hu & _).
  exists xs, n', g'. repeat split; assumption.
Qed.

Lemma ou_samples_shape_witness :
  exists xs self' g',
    ou_calls (OUActionNoise.reset ou_example) rng0 3 = Ok (xs, self', g') /\
    length xs = 3 /\ normal_pos g' = 3.
Proof.
  destruct (ou_samples_shape (OUActionNoise.reset ou_example) rng0 3 eq_refl)
    as (xs & self' & g' & E & Hlen & _ & _ & Hn & _).
  exists xs, self', g'. split; [exact E|]. split; [exact Hlen | exact Hn].
Defined.

(** X4: the constructor does not check [x0] against [mu]: with shapes
    that do not broadcast the process is built, and every sample, also
    after [reset], raises [ValueError]. *)
Theorem ou_bad_x0_raises (mu x0 : Vec) (sigma theta dt : R) (g : RNG) :
  bdim (length mu) (length x0) = None ->
  let self := OUActionNoise.init mu sigma theta dt (Some x0) in
  OUActionNoise.x_prev self = x0 /\
  OUActionNoise.call self g
  = Err (ValueError "operands could not be broadcast together") /\
  OUActionNoise.call (OUActionNoise.reset self) g
  = Err (ValueError "operands could not be broadcast together").
Proof.
  intros Hb self. split; [reflexivity|].
  assert (E : forall n, OUActionNoise.mu n = mu -> OUActionNoise.x_prev n = x0 ->
                OUActionNoise.call n g
                = Err (ValueError "operands could not be broadcast together")).
  { intros n Hm Hx. unfold OUActionNoise.call, np_random_normal, OUActionNoise.step.
    rewrite Hm, Hx. unfold np_sub, np_binop. rewrite Hb. reflexivity. }
  split; apply E; reflexivity.
Qed.

Lemma ou_bad_x0_raises_witness :
  OUActionNoise.call (OUActionNoise.init [0; 0]%R 0 0 0 (Some [1; 1; 1]%R)) rng0
  = Err (ValueError "operands could not be broadcast together").
Proof.
  exact (proj1 (proj2 (ou_bad_x0_raises [0; 0]%R [1; 1; 1]%R 0 0 0 rng0 eq_refl))).
Defined.
(** ** Replay buffer: sampling *)

Lemma batch_row_slot (b : ReplayBuffer.t) (idxs : list nat) (s : ReplayBuffer.samples) :
  buffer_wf b ->
  Forall (fun i => i < ReplayBuffer.mem_size b) idxs ->
  ReplayBuffer.get_samples_from_buffer b idxs = Ok s ->
  forall k i, idxs !! k = Some i -> batch_row s k = slot b i.
Proof.
  intros Hwf Hi E k i Hk.
  destruct (get_samples_ok b idxs Hwf Hi) as (s' & E' & _ & _ & _ & _ & _ & _ & _ & _ & Hrows).
  rewrite E in E'. injection E' as <-.
  destruct (Hrows k i Hk) as (H1 & H2 & H3 & H4 & H5).
  unfold batch_row, slot. now rewrite H1, H2, H3, H4, H5.
Qed.

(** X5: a transition stored at cursor value [c] is read back by
    [get_samples_from_buffer] at index [c mod capacity]: the batch for
    this one index has one row, which holds the observation, action, reward
    and next observation as given and the mask [1 - done]. *)
Theorem store_then_sample (b : ReplayBuffer.t) (tr : Transition) :
  buffer_wf b -> fits b tr ->
  exists b' s,
    store b tr = Ok b' /\
    ReplayBuffer.get_samples_from_buffer b'
      [ReplayBuffer.mem_cntr b mod ReplayBuffer.mem_size b] = Ok s /\
    length (ReplayBuffer.s_rewards s) = 1 /\
    batch_row s 0 = Some (stored tr).
Proof.
  intros Hwf Hfit.
  destruct (store_spec b tr Hwf Hfit) as (b' & E & Hwf' & _ & Hsz & _ & Hslot & _).
  set (i := ReplayBuffer.mem_cntr b mod ReplayBuffer.mem_size b) in *.
  assert (Hi : Forall (fun i => i < ReplayBuffer.mem_size b') [i]).
  { constructor; [|constructor]. rewrite Hsz. unfold i.
    apply Nat.mod_upper_bound. destruct Hwf as [Hpos _]. lia. }
  destruct (get_samples_ok b' [i] Hwf' Hi)
    as (s & Es & _ & _ & _ & _ & _ & _ & Hr & _ & _).
  exists b', s. split; [exact E|]. split; [exact Es|]. split; [exact Hr|].
  rewrite (batch_row_slot b' [i] s Hwf' Hi Es 0 i eq_refl). exact Hslot.
Qed.

Lemma store_then_sample_witness :
  exists b' s,
    store (ReplayBuffer.init 2 1 1) (mkTransition [1%R] [0%R] 1 [2%R] true) = Ok b' /\
    ReplayBuffer.get_samples_from_buffer b' [0] = Ok s /\
    batch_row s 0 = Some ([1%R], [0%R], 1%R, [2%R], 0%R).
Proof.
  destruct (store_then_sample (ReplayBuffer.init 2 1 1)
              (mkTransition [1%R] [0%R] 1 [2%R] true))
    as (b' & s & E & Es & _ & Hrow).
  - apply init_wf. lia.
  - repeat split.
  - exists b', s. split; [exact E|]. split; [exact Es | exact Hrow].
Defined.

Lemma fresh_slot_written (cap d n : nat) (trs : list Transition) (b : ReplayBuffer.t) :
  0 < cap ->
  (forall i tr, trs !! i = Some tr -> length trs <= i + cap ->
     slot b (i mod cap) = Some (stored tr)) ->
  forall s, s < Nat.min (length trs) cap ->
    exists j tr, trs !! j = Some tr /\ length trs <= j + cap /\
                 slot b s = Some (stored tr).
Proof.
  intros Hc Hs s Hlt.
  destruct (Nat.le_gt_cases (length trs) cap) as [Hle|Hgt].
  - assert (Hsl : s < length trs) by lia.
    destruct (lookup_lt_is_Some_2 trs s Hsl) as (tr & Htr).
    exists s, tr. split; [exact Htr|]. split; [lia|].
    rewrite <- (Hs s tr Htr) by lia. now rewrite Nat.mod_small by lia.
  - destruct (window_residue (length trs - cap) cap s ltac:(lia)) as (j & Hj1 & Hj2 & Hj3).
    assert (Hjl : j < length trs) by lia.
    destruct (lookup_lt_is_Some_2 trs j Hjl) as (tr & Htr).
    exists j, tr. split; [exact Htr|]. split; [lia|].
    rewrite <- Hj3. apply Hs; [exact Htr | lia].
Qed.

(** X6: sampling never returns an unwritten slot. From a fresh buffer of
    positive capacity, after any sequence of fitting transitions and for any
    batch size up to the number stored (the guard of [learn]),
    [get_batch_idxs] and [get_samples_from_buffer] succeed, and every row of
    the batch is one of the last [capacity] transitions stored. *)
Theorem sampled_rows_were_stored (cap d n : nat) (trs : list Transition)
    (g : RNG) (batch : nat) :
  0 < cap ->
  Forall (fits (ReplayBuffer.init cap d n)) trs ->
  batch <= length trs ->
  exists b idxs g' s,
    store_all (ReplayBuffer.init cap d n) trs = Ok b /\
    ReplayBuffer.get_batch_idxs b g batch = Ok (idxs, g') /\
    length idxs = batch /\
    ReplayBuffer.get_samples_from_buffer b idxs = Ok s /\
    (forall k, k < batch ->
       exists j tr, trs !! j = Some tr /\ length trs <= j + cap /\
                    batch_row s k = Some (stored tr)).
Proof.
  intros Hc Hfit Hb.
  pose proof (init_wf cap d n Hc) as Hwf.
  destruct (store_all_spec trs _ Hwf Hfit) as (b & E & Hwfb & _ & Hsz & Hcn & Hs & _).
  simpl in Hsz, Hcn, Hs.
  destruct (np_random_choice_ok g (Nat.min (length trs) cap) batch)
    as (idxs & g' & Ei & Hlen & Hidx).
  { clear - Hc Hb. lia. }
  assert (Ei' : ReplayBuffer.get_batch_idxs b g batch = Ok (idxs, g')).
  { unfold ReplayBuffer.get_batch_idxs. now rewrite Hsz, Hcn. }
  assert (Hin : Forall (fun i => i < ReplayBuffer.mem_size b) idxs).
  { eapply Forall_impl; [exact Hidx|]. simpl. intros i Hi. lia. }
  destruct (get_samples_ok b idxs Hwfb Hin) as (s & Es & _).
  exists b, idxs, g', s.
  split; [exact E|]. split; [exact Ei'|]. split; [exact Hlen|]. split; [exact Es|].
  intros k Hk.
  destruct (lookup_lt_is_Some_2 idxs k ltac:(lia)) as (i & Hi).
  rewrite (batch_row_slot b idxs s Hwfb Hin Es k i Hi).
  apply (fresh_slot_written cap d n trs b Hc Hs).
  rewrite Forall_lookup in Hidx. exact (Hidx k i Hi).
Qed.

Lemma sampled_rows_were_stored_witness :
  exists b idxs g' s,
    store_all (ReplayBuffer.init 2 1 1) c2_transitions = Ok b /\
    ReplayBuffer.get_batch_idxs b rng0 2 = Ok (idxs, g') /\
    ReplayBuffer.get_samples_from_buffer b idxs = Ok s /\
    exists j tr, c2_transitions !! j = Some tr /\ batch_row s 1 = Some (stored tr).
Proof.
  destruct (sampled_rows_were_stored 2 1 1 c2_transitions rng0 2 ltac:(lia))
    as (b & idxs & g' & s & E & Ei & _ & Es & Hrows).
  - unfold c2_transitions, fits. repeat constructor.
  - simpl. lia.
  - exists b, idxs, g', s. split; [exact E|]. split; [exact Ei|]. split; [exact Es|].
    destruct (Hrows 1 ltac:(lia)) as (j & tr & Hj & _ & Hr).
    exists j, tr. split; [exact Hj | exact Hr].
Defined.

(** X7: [get_batch_idxs] on a buffer that holds nothing (no transition
    stored, or capacity 0) raises [ValueError] for every positive batch
    size; for batch size 0 it returns the empty batch. *)
Theorem sample_empty_buffer (b : ReplayBuffer.t) (g : RNG) (batch : nat) :
  ReplayBuffer.mem_cntr b = 0 \/ ReplayBuffer.mem_size b = 0 ->
  (0 < batch ->
   ReplayBuffer.get_batch_idxs b g batch
   = Err (ValueError "a must be greater than 0 unless no samples are taken")) /\
  (exists g', ReplayBuffer.get_batch_idxs b g 0 = Ok ([], g')).
Proof.
  intros H0.
  assert (Hm : Nat.min (ReplayBuffer.mem_cntr b) (ReplayBuffer.mem_size b) = 0)
    by (destruct H0 as [-> | ->]; lia).
  unfold ReplayBuffer.get_batch_idxs. rewrite Hm. split.
  - intros Hb. unfold np_random_choice.
    destruct batch as [|batch]; [lia|]. reflexivity.
  - eexists. reflexivity.
Qed.

Lemma sample_empty_buffer_witness :
  ReplayBuffer.get_batch_idxs (ReplayBuffer.init 10 3 1) rng0 4
  = Err (ValueError "a must be greater than 0 unless no samples are taken").
Proof.
  exact (proj1 (sample_empty_buffer (ReplayBuffer.init 10 3 1) rng0 4 (or_introl eq_refl))
           ltac:(lia)).
Defined.

(** X8: the indices that [get_batch_idxs] returns are [batch_size] many
    and all below [min(mem_cntr, mem_size)], whatever the batch size; they
    are drawn with replacement, so that a batch larger than that bound
    repeats an index. *)
Theorem sample_repeats_index (b : ReplayBuffer.t) (g g' : RNG) (batch : nat)
    (idxs : list nat) :
  ReplayBuffer.get_batch_idxs b g batch = Ok (idxs, g') ->
  length idxs = batch /\
  Forall (fun i => i < Nat.min (ReplayBuffer.mem_cntr b) (ReplayBuffer.mem_size b)) idxs /\
  (Nat.min (ReplayBuffer.mem_cntr b) (ReplayBuffer.mem_size b) < batch ->
   ~ List.NoDup idxs).
Proof.
  intros E. unfold ReplayBuffer.get_batch_idxs in E.
  set (a := Nat.min _ _) in *.
  pose proof (np_random_choice_length _ _ _ _ _ E) as Hlen.
  assert (Hidx : Forall (fun i => i < a) idxs).
  { unfold np_random_choice in E.
    destruct ((a =? 0) && negb (batch =? 0)) eqn:Ea; [discriminate|].
    injection E as <- _.
    apply andb_false_iff in Ea as [Ea|Ea].
    - apply Nat.eqb_neq in Ea. apply List.Forall_forall. intros i Hi.
      apply in_map_iff in Hi as (k & <- & _). apply Nat.mod_upper_bound. exact Ea.
    - apply negb_false_iff, Nat.eqb_eq in Ea. subst batch. constructor. }
  split; [exact Hlen|]. split; [exact Hidx|].
  intros Hlt Hnd.
  assert (Hincl : incl idxs (seq 0 a)).
  { intros i Hi. apply in_seq. rewrite List.Forall_forall in Hidx.
    specialize (Hidx i Hi). lia. }
  pose proof (NoDup_incl_length Hnd Hincl) as Hle.
  rewrite length_seq in Hle. lia.
Qed.

Lemma sample_repeats_index_witness :
  (length [0; 0] = 2 /\ Forall (fun i => i < 3) [0; 0]) /\
  (Forall (fun i => i < 3) [0; 0; 0; 0] /\ ~ List.NoDup [0; 0; 0; 0]).
Proof.
  split.
  - destruct (sample_repeats_index toy_memory3 rng0 _ 2 [0; 0] eq_refl)
      as (Hl & Hf & _).
    split; [exact Hl | exact Hf].
  - destruct (sample_repeats_index toy_memory3 rng0 _ 4 [0; 0; 0; 0] eq_refl)
      as (_ & Hf & Hn).
    split; [exact Hf | apply Hn; simpl; lia].
Defined.

Lemma take_out_of_range {A : Type} (mem : list A) (idxs : list nat) :
  Exists (fun i => length mem <= i) idxs ->
  ReplayBuffer.take mem idxs = Err IndexError.
Proof.
  unfold ReplayBuffer.take. induction idxs as [|i idxs IH]; intros H.
  - inversion H.
  - simpl. unfold py_index at 1.
    destruct (mem !! i) as [x|] eqn:Ex; [|reflexivity].
    cbn [bind].
    apply Exists_cons in H as [H|H].
    + apply lookup_lt_Some in Ex. lia.
    + now rewrite (IH H).
Qed.

(** X9: [get_samples_from_buffer] with an index at or beyond the capacity
    raises [IndexError]; nothing is returned for the other indices. *)
Theorem sample_index_out_of_range (b : ReplayBuffer.t) (idxs : list nat) :
  buffer_wf b ->
  Exists (fun i => ReplayBuffer.mem_size b <= i) idxs ->
  ReplayBuffer.get_samples_from_buffer b idxs = Err IndexError.
Proof.
  intros (_ & Ho & _) H.
  unfold ReplayBuffer.get_samples_from_buffer, ReplayBuffer.take_rows.
  rewrite take_out_of_range; [reflexivity|].
  unfold nrows in Ho. now rewrite Ho.
Qed.

Lemma sample_index_out_of_range_witness :
  ReplayBuffer.get_samples_from_buffer toy_memory [0; 10] = Err IndexError.
Proof.
  apply sample_index_out_of_range.
  - exact toy_memory_wf.
  - apply Exists_cons_tl, Exists_cons_hd. simpl. lia.
Defined.
(** ** Replay buffer: shapes of the stored vectors *)

Lemma set_row_cases (mem : Mat) (index : nat) (row : Vec) :
  index < nrows mem ->
  ReplayBuffer.set_row mem index row
  = if (length row =? ncols mem) || (length row =? 1)
    then Ok (mkMat (ncols mem) (<[index := expand_vec (ncols mem) row]> (rows mem)))
    else Err (ValueError "could not broadcast input array").
Proof.
  intros Hi. unfold ReplayBuffer.set_row.
  apply Nat.ltb_lt in Hi. now rewrite Hi.
Qed.

Lemma broadcasts_to_spec (row : Vec) (n : nat) :
  broadcasts_to row n <-> (length row =? n) || (length row =? 1) = true.
Proof.
  unfold broadcasts_to. rewrite orb_true_iff, !Nat.eqb_eq. reflexivity.
Qed.

Lemma expand_vec_singleton (n : nat) (x : R) : expand_vec n [x] = repeat x n.
Proof.
  unfold expand_vec. cbn [length].
  destruct (Nat.eqb_spec 1 n) as [<-|_]; reflexivity.
Qed.

(** X10: [store_transition] raises [ValueError] as soon as the
    observation, the next observation or the action has a shape that does
    not broadcast to the rows of the buffer (neither the row size nor a
    single entry). *)
Theorem store_shape_mismatch (b : ReplayBuffer.t) (tr : Transition) :
  buffer_wf b ->
  ~ (broadcasts_to (t_obs tr) (ncols (ReplayBuffer.obs_memory b)) /\
     broadcasts_to (t_obs_next tr) (ncols (ReplayBuffer.obs_next_memory b)) /\
     broadcasts_to (t_action tr) (ncols (ReplayBuffer.action_memory b))) ->
  store b tr = Err (ValueError "could not broadcast input array").
Proof.
  intros (Hpos & Ho & Hn & Ha & Hr & Ht) Hbad.
  set (i := ReplayBuffer.mem_cntr b mod ReplayBuffer.mem_size b).
  assert (Hi : i < ReplayBuffer.mem_size b) by (apply Nat.mod_upper_bound; lia).
  unfold store, ReplayBuffer.store_transition, ReplayBuffer.py_mod.
  destruct (ReplayBuffer.mem_size b =? 0) eqn:E0;
    [apply Nat.eqb_eq in E0; lia|].
  cbn [bind]. fold i.
  rewrite !set_row_cases by lia.
  rewrite !broadcasts_to_spec in Hbad.
  destruct ((length (t_obs tr) =? _) || _) eqn:B1; cbn [bind]; [|reflexivity].
  destruct ((length (t_obs_next tr) =? _) || _) eqn:B2; cbn [bind]; [|reflexivity].
  destruct ((length (t_action tr) =? _) || _) eqn:B3; cbn [bind]; [|reflexivity].
  exfalso. apply Hbad. repeat split; reflexivity.
Qed.

Lemma store_shape_mismatch_witness :
  store (ReplayBuffer.init 2 3 1) (mkTransition [1; 2]%R [0%R] 1 [1; 2; 3]%R false)
  = Err (ValueError "could not broadcast input array").
Proof.
  apply store_shape_mismatch.
  - apply init_wf. lia.
  - unfold broadcasts_to. simpl. lia.
Defined.

(** X11: a vector with a single entry is accepted in place of an
    observation and is broadcast over the row: storing the observations
    [[x]] and [[y]] in a buffer with rows of [d] entries writes [d] copies
    of [x] and of [y]. *)
Theorem store_broadcasts_single_entry (b : ReplayBuffer.t) (x y reward : R)
    (action : Vec) (done : bool) :
  buffer_wf b ->
  length action = ncols (ReplayBuffer.action_memory b) ->
  exists b',
    ReplayBuffer.store_transition b [x] action reward [y] done = Ok b' /\
    ReplayBuffer.mem_cntr b' = ReplayBuffer.mem_cntr b + 1 /\
    slot b' (ReplayBuffer.mem_cntr b mod ReplayBuffer.mem_size b)
    = Some (repeat x (ncols (ReplayBuffer.obs_memory b)), action, reward,
            repeat y (ncols (ReplayBuffer.obs_next_memory b)),
            if done then 0%R else 1%R).
Proof.
  intros (Hpos & Ho & Hn & Ha & Hr & Ht) Hact.
  set (i := ReplayBuffer.mem_cntr b mod ReplayBuffer.mem_size b).
  assert (Hi : i < ReplayBuffer.mem_size b) by (apply Nat.mod_upper_bound; lia).
  unfold ReplayBuffer.store_transition, ReplayBuffer.py_mod.
  destruct (ReplayBuffer.mem_size b =? 0) eqn:E0;
    [apply Nat.eqb_eq in E0; lia|].
  cbn [bind]. fold i.
  rewrite !set_row_cases by lia.
  cbn [length]. rewrite Nat.eqb_refl, !orb_true_r. cbn [bind].
  apply Nat.eqb_eq in Hact. rewrite Hact. cbn [orb bind].
  rewrite !set_item_ok by lia. cbn [bind].
  eexists. split; [reflexivity|]. split; [reflexivity|].
  unfold slot, nrows in *; simpl.
  rewrite !list_lookup_insert_eq by lia.
  rewrite !expand_vec_singleton, mask_value.
  apply Nat.eqb_eq in Hact. now rewrite (expand_vec_same _ _ Hact).
Qed.

Lemma store_broadcasts_single_entry_witness :
  exists b',
    ReplayBuffer.store_transition (ReplayBuffer.init 2 3 1) [7%R] [0%R] 1 [8%R] false
    = Ok b' /\
    slot b' 0 = Some ([7; 7; 7]%R, [0%R], 1%R, [8; 8; 8]%R, 1%R).
Proof.
  destruct (store_broadcasts_single_entry (ReplayBuffer.init 2 3 1) 7 8 1 [0%R] false)
    as (b' & E & _ & Hs).
  - apply init_wf. lia.
  - reflexivity.
  - exists b'. split; [exact E | exact Hs].
Defined.
(** ** Networks: shapes of the inputs *)

Lemma Linear_forward_bad (l : Linear) (i o : nat) (x : Mat) :
  Linear_dims l i o -> ncols x <> i -> Linear_forward l x = Err matmul_error.
Proof.
  intros (_ & Hc & _) Hx. unfold Linear_forward.
  rewrite Hc. apply Nat.eqb_neq in Hx. now rewrite Hx.
Qed.

Section WrongWidth.
Context `{AG : Autograd}.

Lemma ActorNetwork_forward_bad (a : ActorNetwork) (n f1 f2 na : nat) (x : Mat) :
  actor_dims a n f1 f2 na -> ncols x <> n ->
  ActorNetwork_forward a x = Err matmul_error.
Proof.
  intros (H1 & _) Hx. unfold ActorNetwork_forward.
  now rewrite (Linear_forward_bad _ _ _ _ H1 Hx).
Qed.

Lemma CriticNetwork_forward_bad (c : CriticNetwork) (n f1 f2 na : nat) (s a : Mat) :
  critic_dims c n f1 f2 na -> ncols s <> n \/ ncols a <> na ->
  CriticNetwork_forward c s a = Err matmul_error.
Proof.
  intros (H1 & H2 & H3 & H4 & H5 & H6) Hbad. unfold CriticNetwork_forward.
  destruct (Nat.eq_dec (ncols s) n) as [Hs|Hs].
  - destruct Hbad as [Hbad|Ha]; [contradiction|].
    rewrite (Linear_forward_ok _ _ _ _ H1 Hs). cbn [bind].
    rewrite (LayerNorm_forward_ok _ _ _ H2) by reflexivity. cbn [bind].
    rewrite (Linear_forward_ok _ _ _ _ H3) by reflexivity. cbn [bind].
    rewrite (LayerNorm_forward_ok _ _ _ H4) by reflexivity. cbn [bind].
    now rewrite (Linear_forward_bad _ _ _ _ H5 Ha).
  - now rewrite (Linear_forward_bad _ _ _ _ H1 Hs).
Qed.

(** X12: inputs of the wrong width are rejected. On an agent with networks
    of the constructor's shapes, the actor raises [RuntimeError] on a batch
    whose rows do not have the observation size, [choose_action] raises it
    on an observation of another length (with or without exploration), and
    the critic raises it when the state or the action has the wrong width. *)
Theorem forward_wrong_width (self : Agent) (g : RNG) (obs : Vec) (explore : bool)
    (n_obs n_crit f1 f2 na : nat) (x s act : Mat) :
  agent_dims self n_obs n_crit f1 f2 na ->
  (ncols x <> n_obs -> ActorNetwork_forward (actor self) x = Err matmul_error) /\
  (length obs <> n_obs -> choose_action self g obs explore = Err matmul_error) /\
  (ncols s <> n_crit \/ ncols act <> na ->
   CriticNetwork_forward (critic self) s act = Err matmul_error).
Proof.
  intros (Ha & _ & Hc & _). split; [|split].
  - intros Hx. eapply ActorNetwork_forward_bad; eassumption.
  - intros Ho. unfold choose_action, ActorNetwork_forward_1d.
    cbn [actor set_actor].
    rewrite (ActorNetwork_forward_bad _ n_obs f1 f2 na); [reflexivity| |exact Ho].
    exact Ha.
  - intros Hbad. eapply CriticNetwork_forward_bad; eassumption.
Qed.

End WrongWidth.

Lemma forward_wrong_width_witness :
  choose_action (toy_agent 3 toy_memory 4) rng0 [1; 2]%R true = Err matmul_error.
Proof.
  refine (proj1 (proj2 (forward_wrong_width (H := toy_optim)
            (toy_agent 3 toy_memory 4) rng0 [1; 2]%R true 3 3 2 2 1
            (mkMat 0 []) (mkMat 0 []) (mkMat 0 []) _)) _).
  - split; [apply toy_actor_dims|]. split; [apply toy_actor_dims|].
    split; apply toy_critic_dims.
  - simpl. lia.
Defined.

(** ** Networks: a batch is processed row by row *)

Section RowWise.
Context `{AG : Autograd}.

(** X13: the networks treat the rows of a batch independently. Row [k] of
    the actor's output for a batch is what [forward] returns for row [k]
    alone, as in [choose_action]; it has one entry per action, each strictly
    between -1 and 1. Row [k] of the critic's output is the value of the
    [k]-th state and action, a single entry. *)
Theorem batch_forward_rowwise (self : Agent) (n_obs n_crit f1 f2 na : nat)
    (x s act : Mat) (k : nat) (obs st a : Vec) :
  agent_dims self n_obs n_crit f1 f2 na ->
  ncols x = n_obs -> rows x !! k = Some obs -> length obs = n_obs ->
  ncols s = n_crit -> ncols act = na -> nrows s = nrows act ->
  rows s !! k = Some st -> rows act !! k = Some a ->
  exists y o q,
    ActorNetwork_forward (actor self) x = Ok y /\
    nrows y = nrows x /\ ncols y = na /\
    rows y !! k = Some o /\
    ActorNetwork_forward_1d (actor self) obs = Ok o /\
    length o = na /\ Forall (fun v => (-1 < v < 1)%R) o /\
    CriticNetwork_forward (critic self) s act = Ok q /\
    nrows q = nrows s /\ ncols q = 1 /\
    rows q !! k = Some (CriticNetwork_row (critic self) st a) /\
    length (CriticNetwork_row (critic self) st a) = 1.
Proof.
  intros (Ha & _ & Hc & _) Hx Hk Ho Hs Hact Hr Hst Hak.
  eexists _, _, _.
  split; [apply (ActorNetwork_forward_ok _ _ _ _ _ _ Ha Hx)|].
  split; [unfold nrows; cbn [rows]; now rewrite length_map|].
  split; [reflexivity|].
  split; [cbn [rows]; rewrite list_lookup_fmap, Hk; reflexivity|].
  split; [apply (forward_1d_ok _ _ _ _ _ _ Ha Ho)|].
  split; [apply (ActorNetwork_row_length _ _ _ _ _ _ Ha)|].
  split; [apply ActorNetwork_row_bounds|].
  split; [apply (CriticNetwork_forward_ok _ _ _ _ _ _ _ Hc Hs Hact Hr)|].
  split; [unfold nrows in *; cbn [rows]; rewrite map2_length; [reflexivity | exact Hr]|].
  split; [reflexivity|].
  split; [cbn [rows]; apply lookup_map2; assumption|].
  apply (CriticNetwork_row_length _ _ _ _ _ _ _ Hc).
Qed.

End RowWise.

Lemma batch_forward_rowwise_witness :
  exists y o,
    ActorNetwork_forward (actor (toy_agent 3 toy_memory 4))
      (mkMat 3 [[0; 0; 0]; [1; 2; 3]]%R) = Ok y /\
    rows y !! 1 = Some o /\
    ActorNetwork_forward_1d (actor (toy_agent 3 toy_memory 4)) [1; 2; 3]%R = Ok o.
Proof.
  destruct (batch_forward_rowwise (H := toy_optim) (toy_agent 3 toy_memory 4)
              3 3 2 2 1 (mkMat 3 [[0; 0; 0]; [1; 2; 3]]%R)
              (mkMat 3 [[0; 0; 0]; [1; 2; 3]]%R) (mkMat 1 [[0]; [0]]%R) 1
              [1; 2; 3]%R [1; 2; 3]%R [0%R])
    as (y & o & q & E & _ & _ & Hk & E1 & _); try reflexivity.
  - split; [apply toy_actor_dims|]. split; [apply toy_actor_dims|].
    split; apply toy_critic_dims.
  - exists y, o. split; [exact E|]. split; [exact Hk | exact E1].
Defined.

(** ** Networks: initial parameters *)

Lemma uniform_in (a b u : R) :
  (a <= b)%R -> (0 <= u < 1)%R -> (a <= a + (b - a) * u <= b)%R.
Proof. intros Hab Hu. split; nra. Qed.

Lemma draw_uniform_within (g : RNG) (n : nat) (f : R) :
  uniform_ok g -> (0 <= f)%R ->
  Forall (fun w => (- f <= w <= f)%R) (fst (draw_uniform g n (- f) f)) /\
  uniform_ok (snd (draw_uniform g n (- f) f)).
Proof.
  intros Hg Hf. unfold draw_uniform. cbn [fst snd]. split; [|exact Hg].
  apply List.Forall_forall. intros w Hw. apply in_map_iff in Hw as (k & <- & _).
  apply uniform_in; [lra | apply Hg].
Qed.

Lemma draw_uniform_mat_within (g : RNG) (r c : nat) (f : R) :
  uniform_ok g -> (0 <= f)%R ->
  Forall (Forall (fun w => (- f <= w <= f)%R)) (rows (fst (draw_uniform_mat g r c (- f) f))) /\
  uniform_ok (snd (draw_uniform_mat g r c (- f) f)).
Proof.
  intros Hg Hf. unfold draw_uniform_mat. cbn [fst snd rows]. split; [|exact Hg].
  apply List.Forall_forall. intros row Hrow. apply in_map_iff in Hrow as (i & <- & _).
  apply List.Forall_forall. intros w Hw. apply in_map_iff in Hw as (k & <- & _).
  apply uniform_in; [lra | apply Hg].
Qed.

Lemma init_uniform_within (g g' : RNG) (l l' : Linear) (f : R) :
  uniform_ok g -> (0 <= f)%R -> init_uniform_ g l f = (l', g') ->
  Linear_within l' f /\ uniform_ok g'.
Proof.
  intros Hg Hf. unfold init_uniform_.
  pose proof (draw_uniform_mat_within g (nrows (weight l)) (ncols (weight l)) f Hg Hf)
    as (Hw & Hg1).
  destruct (draw_uniform_mat g _ _ (- f) f) as [w g1]. cbn [fst snd] in *.
  pose proof (draw_uniform_within g1 (length (bias l)) f Hg1 Hf) as (Hb & Hg2).
  destruct (draw_uniform g1 _ (- f) f) as [b g2]. cbn [fst snd] in *.
  intros E. injection E as <- <-. split; [split; assumption | assumption].
Qed.

Lemma inv_sqrt_nonneg (n : nat) : (0 <= 1 / sqrt (INR n))%R.
Proof.
  destruct n as [|n].
  - simpl. rewrite sqrt_0. unfold Rdiv. rewrite Rinv_0. lra.
  - apply Rlt_le, Rdiv_lt_0_compat; [lra|].
    apply sqrt_lt_R0, lt_0_INR. lia.
Qed.

Lemma nn_Linear_within (g g' : RNG) (i o : nat) (l : Linear) :
  uniform_ok g -> 0 < i -> nn_Linear g i o = (l, g') ->
  Linear_within l (1 / sqrt (INR i)) /\ uniform_ok g'.
Proof.
  intros Hg Hi. unfold nn_Linear.
  destruct (Nat.eqb_spec i 0) as [->|_]; [lia|].
  replace (/ sqrt (INR i))%R with (1 / sqrt (INR i))%R by (unfold Rdiv; ring).
  pose proof (inv_sqrt_nonneg i) as Hf.
  pose proof (draw_uniform_mat_within g o i _ Hg Hf) as (Hw & Hg1).
  destruct (draw_uniform_mat g o i _ _) as [w g1]. cbn [fst snd] in *.
  pose proof (draw_uniform_within g1 o _ Hg1 Hf) as (Hb & Hg2).
  destruct (draw_uniform g1 o _ _) as [b g2]. cbn [fst snd] in *.
  intros E. injection E as <- <-. split; [split; assumption | assumption].
Qed.

Lemma nn_Linear_uniform_ok (g g' : RNG) (i o : nat) (l : Linear) :
  uniform_ok g -> nn_Linear g i o = (l, g') -> uniform_ok g'.
Proof.
  intros Hg. unfold nn_Linear, draw_uniform_mat, draw_uniform.
  intros E. injection E as _ <-. exact Hg.
Qed.

Section InitialParameters.
Context `{AG : Autograd}.

Lemma ActorNetwork_init_within (g g' : RNG) (alpha : R) (n f1 f2 na : nat)
    (a : ActorNetwork) :
  uniform_ok g ->
  ActorNetwork_init g alpha n f1 f2 na = (a, g') ->
  Linear_within (a_fc1 a) (1 / sqrt (INR f1)) /\
  Linear_within (a_fc2 a) (1 / sqrt (INR f2)) /\
  Linear_within (a_mu a) (3 / 1000) /\
  a_bn1 a = nn_LayerNorm f1 /\ a_bn2 a = nn_LayerNorm f2 /\
  a_training a = true /\ uniform_ok g'.
Proof.
  intros Hg. unfold ActorNetwork_init.
  destruct (nn_Linear g n f1) as [l1 g1] eqn:E1.
  destruct (init_uniform_ g1 l1 _) as [l1' g1'] eqn:E1'.
  destruct (nn_Linear g1' f1 f2) as [l2 g2] eqn:E2.
  destruct (init_uniform_ g2 l2 _) as [l2' g2'] eqn:E2'.
  destruct (nn_Linear g2' f2 na) as [l3 g3] eqn:E3.
  destruct (init_uniform_ g3 l3 _) as [l3' g3'] eqn:E3'.
  intros E. injection E as <- <-. cbn [a_fc1 a_fc2 a_mu a_bn1 a_bn2 a_training].
  pose proof (nn_Linear_dims _ _ _ _ _ E1) as (_ & _ & R1 & _).
  pose proof (nn_Linear_dims _ _ _ _ _ E2) as (_ & _ & R2 & _).
  rewrite R1 in E1'. rewrite R2 in E2'.
  pose proof (nn_Linear_uniform_ok _ _ _ _ _ Hg E1) as G1.
  destruct (init_uniform_within _ _ _ _ _ G1 (inv_sqrt_nonneg f1) E1') as (W1 & G1').
  pose proof (nn_Linear_uniform_ok _ _ _ _ _ G1' E2) as G2.
  destruct (init_uniform_within _ _ _ _ _ G2 (inv_sqrt_nonneg f2) E2') as (W2 & G2').
  pose proof (nn_Linear_uniform_ok _ _ _ _ _ G2' E3) as G3.
  assert (H3 : (0 <= 3 / 1000)%R) by lra.
  destruct (init_uniform_within _ _ _ _ _ G3 H3 E3') as (W3 & G3').
  split; [exact W1|]. split; [exact W2|]. split; [exact W3|].
  split; [reflexivity|]. split; [reflexivity|]. split; [reflexivity | exact G3'].
Qed.

Lemma CriticNetwork_init_within (g g' : RNG) (beta : R) (n f1 f2 na : nat)
    (c : CriticNetwork) :
  uniform_ok g -> 0 < na ->
  CriticNetwork_init g beta n f1 f2 na = (c, g') ->
  Linear_within (c_fc1 c) (1 / sqrt (INR f1)) /\
  Linear_within (c_fc2 c) (1 / sqrt (INR f2)) /\
  Linear_within (c_action_value c) (1 / sqrt (INR na)) /\
  Linear_within (c_q c) (3 / 1000) /\
  c_training c = true /\ uniform_ok g'.
Proof.
  intros Hg Hna. unfold CriticNetwork_init.
  destruct (nn_Linear g n f1) as [l1 g1] eqn:E1.
  destruct (init_uniform_ g1 l1 _) as [l1' g1'] eqn:E1'.
  destruct (nn_Linear g1' f1 f2) as [l2 g2] eqn:E2.
  destruct (init_uniform_ g2 l2 _) as [l2' g2'] eqn:E2'.
  destruct (nn_Linear g2' na f2) as [l3 g3] eqn:E3.
  destruct (nn_Linear g3 f2 1) as [l4 g4] eqn:E4.
  destruct (init_uniform_ g4 l4 _) as [l4' g4'] eqn:E4'.
  intros E. injection E as <- <-.
  cbn [c_fc1 c_fc2 c_action_value c_q c_training].
  pose proof (nn_Linear_dims _ _ _ _ _ E1) as (_ & _ & R1 & _).
  pose proof (nn_Linear_dims _ _ _ _ _ E2) as (_ & _ & R2 & _).
  rewrite R1 in E1'. rewrite R2 in E2'.
  pose proof (nn_Linear_uniform_ok _ _ _ _ _ Hg E1) as G1.
  destruct (init_uniform_within _ _ _ _ _ G1 (inv_sqrt_nonneg f1) E1') as (W1 & G1').
  pose proof (nn_Linear_uniform_ok _ _ _ _ _ G1' E2) as G2.
  destruct (init_uniform_within _ _ _ _ _ G2 (inv_sqrt_nonneg f2) E2') as (W2 & G2').
  destruct (nn_Linear_within _ _ _ _ _ G2' Hna E3) as (W3 & G3).
  pose proof (nn_Linear_uniform_ok _ _ _ _ _ G3 E4) as G4.
  assert (H3 : (0 <= 3 / 1000)%R) by lra.
  destruct (init_uniform_within _ _ _ _ _ G4 H3 E4') as (W4 & G4').
  split; [exact W1|]. split; [exact W2|]. split; [exact W3|]. split; [exact W4|].
  split; [reflexivity | exact G4'].
Qed.

(** X14: the initial parameters. With uniform draws in [[0, 1)], a fresh
    actor has the weights and biases of [fc1] and [fc2] within
    [1/sqrt(fc1_dims)] and [1/sqrt(fc2_dims)] of zero (the number of
    outputs of the layer, [weight.size()[0]]) and those of [mu] within
    0.003; a fresh critic has the same bounds for [fc1], [fc2] and [q],
    while its [action_value] layer, which the constructor does not
    re-initialise, keeps the default bound [1/sqrt(n_actions)]. *)
Theorem fresh_network_bounds (g g1 g2 : RNG) (alpha beta : R) (n f1 f2 na : nat)
    (a : ActorNetwork) (c : CriticNetwork) :
  uniform_ok g -> 0 < na ->
  ActorNetwork_init g alpha n f1 f2 na = (a, g1) ->
  CriticNetwork_init g1 beta n f1 f2 na = (c, g2) ->
  (Linear_within (a_fc1 a) (1 / sqrt (INR f1)) /\
   Linear_within (a_fc2 a) (1 / sqrt (INR f2)) /\
   Linear_within (a_mu a) (3 / 1000)) /\
  (Linear_within (c_fc1 c) (1 / sqrt (INR f1)) /\
   Linear_within (c_fc2 c) (1 / sqrt (INR f2)) /\
   Linear_within (c_action_value c) (1 / sqrt (INR na)) /\
   Linear_within (c_q c) (3 / 1000)) /\
  uniform_ok g2.
Proof.
  intros Hg Hna Ea Ec.
  destruct (ActorNetwork_init_within _ _ _ _ _ _ _ _ Hg Ea)
    as (A1 & A2 & A3 & _ & _ & _ & G1).
  destruct (CriticNetwork_init_within _ _ _ _ _ _ _ _ G1 Hna Ec)
    as (C1 & C2 & C3 & C4 & _ & G2).
  split; [split; [exact A1 | split; [exact A2 | exact A3]]|].
  split; [split; [exact C1 | split; [exact C2 | split; [exact C3 | exact C4]]]|].
  exact G2.
Qed.

End InitialParameters.

Lemma rng0_uniform_ok : uniform_ok rng0.
Proof. intros k. simpl. lra. Qed.

Lemma fresh_network_bounds_witness :
  Linear_within
    (a_mu (fst (ActorNetwork_init (H := toy_optim) rng0 (1 / 10) 3 2 2 1)))
    (3 / 1000).
Proof.
  refine (proj2 (proj2 (proj1
    (fresh_network_bounds (H := toy_optim) rng0 _ _ (1 / 10) (1 / 10) 3 2 2 1
       _ _ rng0_uniform_ok ltac:(lia)
       (surjective_pairing _) (surjective_pairing _))))).
Defined.
(** ** Soft update: how updates compose *)

Lemma blend_scalar_zero (o t : R) : blend_scalar 0 o t = t.
Proof. unfold blend_scalar. ring. Qed.

Lemma blend_scalar_compose (t1 t2 o t : R) :
  blend_scalar t2 o (blend_scalar t1 o t) = blend_scalar (t1 + t2 - t1 * t2) o t.
Proof. unfold blend_scalar. ring. Qed.

Lemma blend_scalar_closed (tau o t : R) (k : nat) :
  blend_scalar (1 - (1 - tau) ^ k) o t = (o + (1 - tau) ^ k * (t - o))%R.
Proof. unfold blend_scalar. ring. Qed.

Lemma map2_blend_zero (u v : Vec) :
  length u = length v -> map2 (blend_scalar 0) u v = v.
Proof.
  revert v. induction u as [|a u IH]; intros [|b v]; simpl; intros E;
    try discriminate; try reflexivity.
  f_equal; [apply blend_scalar_zero | apply IH; lia].
Qed.

Lemma map2_blend_compose (t1 t2 : R) (u v : Vec) :
  map2 (blend_scalar t2) u (map2 (blend_scalar t1) u v)
  = map2 (blend_scalar (t1 + t2 - t1 * t2)) u v.
Proof.
  revert v. induction u as [|a u IH]; intros [|b v]; simpl; try reflexivity.
  f_equal; [apply blend_scalar_compose | apply IH].
Qed.

Lemma rows_blend_zero (n : nat) (rs rs' : list Vec) :
  Forall (fun r => length r = n) rs -> Forall (fun r => length r = n) rs' ->
  length rs = length rs' ->
  map2 (map2 (blend_scalar 0)) rs rs' = rs'.
Proof.
  intros H. revert rs'. induction H as [|r rs Hr _ IH]; intros [|r' rs'] H' E;
    simpl in *; try discriminate; try reflexivity.
  apply Forall_cons in H' as [Hr' Hrs'].
  f_equal; [apply map2_blend_zero; congruence | apply IH; [assumption | lia]].
Qed.

Lemma rows_blend_compose (t1 t2 : R) (rs rs' : list Vec) :
  map2 (map2 (blend_scalar t2)) rs (map2 (map2 (blend_scalar t1)) rs rs')
  = map2 (map2 (blend_scalar (t1 + t2 - t1 * t2))) rs rs'.
Proof.
  revert rs'. induction rs as [|r rs IH]; intros [|r' rs']; simpl; try reflexivity.
  f_equal; [apply map2_blend_compose | apply IH].
Qed.

Lemma blend_Linear_zero (l l' : Linear) (i o : nat) :
  Linear_dims l i o -> Linear_dims l' i o -> blend_Linear 0 l l' = l'.
Proof.
  intros (Hwf & Hc & Hr & Hb) (Hwf' & Hc' & Hr' & Hb').
  unfold blend_Linear. destruct l' as [[c' rs'] b']. unfold mat_wf, nrows in *.
  cbn [weight bias rows ncols] in *.
  rewrite Hc in Hwf. rewrite Hc' in Hwf'.
  rewrite (rows_blend_zero i) by (try assumption; lia).
  rewrite map2_blend_zero by lia. now rewrite Hc, Hc'.
Qed.

Lemma blend_Linear_compose (t1 t2 : R) (l l' : Linear) :
  blend_Linear t2 l (blend_Linear t1 l l') = blend_Linear (t1 + t2 - t1 * t2) l l'.
Proof.
  unfold blend_Linear. cbn [weight bias rows ncols].
  now rewrite rows_blend_compose, map2_blend_compose.
Qed.

Lemma blend_LayerNorm_zero (l l' : LayerNorm) (n : nat) :
  LayerNorm_dims l n -> LayerNorm_dims l' n -> blend_LayerNorm 0 l l' = l'.
Proof.
  intros (_ & Hw & Hb) (_ & Hw' & Hb').
  unfold blend_LayerNorm. destruct l' as [ns e w b]. simpl in *.
  now rewrite !map2_blend_zero by congruence.
Qed.

Lemma blend_LayerNorm_compose (t1 t2 : R) (l l' : LayerNorm) :
  blend_LayerNorm t2 l (blend_LayerNorm t1 l l')
  = blend_LayerNorm (t1 + t2 - t1 * t2) l l'.
Proof.
  unfold blend_LayerNorm. cbn [normalized_shape ln_eps ln_weight ln_bias].
  now rewrite !map2_blend_compose.
Qed.

Section SoftUpdateAlgebra.
Context `{AG : Autograd}.

Lemma blend_actor_zero (a ta : ActorNetwork) (n f1 f2 na : nat) :
  actor_dims a n f1 f2 na -> actor_dims ta n f1 f2 na -> blend_actor 0 a ta = ta.
Proof.
  intros (H1 & H2 & H3 & H4 & H5) (H1' & H2' & H3' & H4' & H5').
  unfold blend_actor.
  rewrite (blend_Linear_zero _ _ _ _ H1 H1'), (blend_LayerNorm_zero _ _ _ H2 H2'),
    (blend_Linear_zero _ _ _ _ H3 H3'), (blend_LayerNorm_zero _ _ _ H4 H4'),
    (blend_Linear_zero _ _ _ _ H5 H5').
  now destruct ta.
Qed.

Lemma blend_critic_zero (c tc : CriticNetwork) (n f1 f2 na : nat) :
  critic_dims c n f1 f2 na -> critic_dims tc n f1 f2 na -> blend_critic 0 c tc = tc.
Proof.
  intros (H1 & H2 & H3 & H4 & H5 & H6) (H1' & H2' & H3' & H4' & H5' & H6').
  unfold blend_critic.
  rewrite (blend_Linear_zero _ _ _ _ H1 H1'), (blend_LayerNorm_zero _ _ _ H2 H2'),
    (blend_Linear_zero _ _ _ _ H3 H3'), (blend_LayerNorm_zero _ _ _ H4 H4'),
    (blend_Linear_zero _ _ _ _ H5 H5'), (blend_Linear_zero _ _ _ _ H6 H6').
  now destruct tc.
Qed.

Lemma blend_actor_compose (t1 t2 : R) (a ta : ActorNetwork) :
  blend_actor t2 a (blend_actor t1 a ta) = blend_actor (t1 + t2 - t1 * t2) a ta.
Proof.
  unfold blend_actor.
  cbn [a_fc1 a_bn1 a_fc2 a_bn2 a_mu a_optimizer a_training].
  now rewrite !blend_Linear_compose, !blend_LayerNorm_compose.
Qed.

Lemma blend_critic_compose (t1 t2 : R) (c tc : CriticNetwork) :
  blend_critic t2 c (blend_critic t1 c tc) = blend_critic (t1 + t2 - t1 * t2) c tc.
Proof.
  unfold blend_critic.
  cbn [c_fc1 c_bn1 c_fc2 c_bn2 c_action_value c_q c_optimizer c_training].
  now rewrite !blend_Linear_compose, !blend_LayerNorm_compose.
Qed.

(** The agent after a soft update with factor [t]. *)
Lemma soft_update_value (self : Agent) (t : R) (n_obs n_crit f1 f2 na : nat) :
  agent_dims self n_obs n_crit f1 f2 na ->
  _update_network_parameters self (Some t)
  = Ok (set_target_actor
          (set_target_critic self (blend_critic t (critic self) (target_critic self)))
          (blend_actor t (actor self) (target_actor self))).
Proof.
  intros Hd. exact (update_network_parameters_ok self (Some t) _ _ _ _ _ Hd).
Qed.

Lemma soft_update_dims (self : Agent) (t : R) (n_obs n_crit f1 f2 na : nat) :
  agent_dims self n_obs n_crit f1 f2 na ->
  agent_dims
    (set_target_actor
       (set_target_critic self (blend_critic t (critic self) (target_critic self)))
       (blend_actor t (actor self) (target_actor self)))
    n_obs n_crit f1 f2 na.
Proof.
  intros (Ha & Hta & Hc & Htc). unfold agent_dims.
  cbn [actor critic target_actor target_critic set_target_actor set_target_critic].
  split; [exact Ha|]. split; [now apply blend_actor_dims|].
  split; [exact Hc | now apply blend_critic_dims].
Qed.

Lemma soft_update_zero (self : Agent) (n_obs n_crit f1 f2 na : nat) :
  agent_dims self n_obs n_crit f1 f2 na ->
  _update_network_parameters self (Some 0%R) = Ok self.
Proof.
  intros Hd. rewrite (soft_update_value self 0 _ _ _ _ _ Hd).
  destruct Hd as (Ha & Hta & Hc & Htc).
  rewrite (blend_actor_zero _ _ _ _ _ _ Ha Hta), (blend_critic_zero _ _ _ _ _ _ Hc Htc).
  now destruct self.
Qed.

Lemma soft_update_compose (self : Agent) (t1 t2 : R) (n_obs n_crit f1 f2 na : nat) :
  agent_dims self n_obs n_crit f1 f2 na ->
  (let* s := _update_network_parameters self (Some t1) in
   _update_network_parameters s (Some t2))
  = _update_network_parameters self (Some (t1 + t2 - t1 * t2)%R).
Proof.
  intros Hd.
  rewrite (soft_update_value self t1 _ _ _ _ _ Hd). cbn [bind].
  rewrite (soft_update_value _ t2 _ _ _ _ _ (soft_update_dims self t1 _ _ _ _ _ Hd)).
  rewrite (soft_update_value self _ _ _ _ _ _ Hd).
  cbn [actor critic target_actor target_critic set_target_actor set_target_critic].
  now rewrite blend_actor_compose, blend_critic_compose.
Qed.

(** X15: a soft update with [tau = 0] changes nothing: on an agent whose
    networks have matching shapes, [_update_network_parameters(0)] succeeds
    and returns the agent as it was (a value of [None] for [tau] cannot be
    passed this way: it selects [self.tau]). *)
Theorem soft_update_tau0_noop (self : Agent) (n_obs n_crit f1 f2 na : nat) :
  agent_dims self n_obs n_crit f1 f2 na ->
  _update_network_parameters self (Some 0%R) = Ok self /\
  _update_network_parameters self None
  = _update_network_parameters self (Some (tau self)).
Proof.
  intros Hd. split; [exact (soft_update_zero self _ _ _ _ _ Hd) | reflexivity].
Qed.

(** X16: two soft updates in a row, with factors [t1] and then [t2] and
    online networks that do not change in between, are one soft update with
    factor [t1 + t2 - t1 * t2], i.e. [1 - (1 - t1) * (1 - t2)]. *)
Theorem soft_updates_compose (self : Agent) (t1 t2 : R) (n_obs n_crit f1 f2 na : nat) :
  agent_dims self n_obs n_crit f1 f2 na ->
  (let* s := _update_network_parameters self (Some t1) in
   _update_network_parameters s (Some t2))
  = _update_network_parameters self (Some (t1 + t2 - t1 * t2)%R) /\
  exists s', _update_network_parameters self (Some (t1 + t2 - t1 * t2)%R) = Ok s'.
Proof.
  intros Hd. split; [exact (soft_update_compose self t1 t2 _ _ _ _ _ Hd)|].
  eexists. exact (soft_update_value self _ _ _ _ _ _ Hd).
Qed.

Lemma soft_updates_value (k : nat) :
  forall (self : Agent) (t : R) (n_obs n_crit f1 f2 na : nat),
  agent_dims self n_obs n_crit f1 f2 na ->
  soft_updates self (Some t) k
  = _update_network_parameters self (Some (1 - (1 - t) ^ k)%R).
Proof.
  induction k as [|k IH]; intros self t n_obs n_crit f1 f2 na Hd.
  - simpl. replace (1 - 1)%R with 0%R by ring.
    symmetry. exact (soft_update_zero self _ _ _ _ _ Hd).
  - cbn [soft_updates].
    rewrite (soft_update_value self t _ _ _ _ _ Hd). cbn [bind].
    rewrite (IH _ t _ _ _ _ _ (soft_update_dims self t _ _ _ _ _ Hd)).
    pose proof (soft_update_compose self t (1 - (1 - t) ^ k) _ _ _ _ _ Hd) as Hc.
    rewrite (soft_update_value self t _ _ _ _ _ Hd) in Hc. cbn [bind] in Hc.
    rewrite Hc.
    assert (Et : (t + (1 - (1 - t) ^ k) - t * (1 - (1 - t) ^ k)
                  = 1 - (1 - t) ^ S k)%R) by (simpl; ring).
    rewrite Et. reflexivity.
Qed.

(** X17: [k] soft updates with factor [tau] and unchanged online networks
    are one soft update with factor [1 - (1 - tau)^k]: every target entry
    [t] with online entry [o] ends at [o + (1 - tau)^k * (t - o)], the
    online networks stay as they are. *)
Theorem soft_updates_closed_form (self : Agent) (t : R) (k : nat)
    (n_obs n_crit f1 f2 na : nat) :
  agent_dims self n_obs n_crit f1 f2 na ->
  exists self',
    soft_updates self (Some t) k = Ok self' /\
    target_actor self'
    = blend_actor (1 - (1 - t) ^ k) (actor self) (target_actor self) /\
    target_critic self'
    = blend_critic (1 - (1 - t) ^ k) (critic self) (target_critic self) /\
    actor self' = actor self /\ critic self' = critic self /\
    (forall o x, blend_scalar (1 - (1 - t) ^ k) o x = (o + (1 - t) ^ k * (x - o))%R).
Proof.
  intros Hd. eexists.
  split.
  - rewrite (soft_updates_value k self t _ _ _ _ _ Hd).
    exact (soft_update_value self _ _ _ _ _ _ Hd).
  - split; [reflexivity|]. split; [reflexivity|]. split; [reflexivity|].
    split; [reflexivity|]. intros o x. apply blend_scalar_closed.
Qed.

End SoftUpdateAlgebra.

Lemma toy_agent_dims (n_crit : nat) (mem : ReplayBuffer.t) (batch : nat) :
  agent_dims (toy_agent n_crit mem batch) 3 n_crit 2 2 1.
Proof.
  split; [apply toy_actor_dims|]. split; [apply toy_actor_dims|].
  split; apply toy_critic_dims.
Qed.

Lemma soft_update_tau0_noop_witness :
  _update_network_parameters (toy_agent 3 toy_memory 4) (Some 0%R)
  = Ok (toy_agent 3 toy_memory 4).
Proof.
  exact (proj1 (soft_update_tau0_noop (H := toy_optim) (toy_agent 3 toy_memory 4)
                  3 3 2 2 1 (toy_agent_dims 3 toy_memory 4))).
Defined.

Lemma soft_updates_compose_witness :
  (let* s := _update_network_parameters (toy_agent 3 toy_memory 4) (Some (1 / 2)%R) in
   _update_network_parameters s (Some (1 / 2)%R))
  = _update_network_parameters (toy_agent 3 toy_memory 4)
      (Some (1 / 2 + 1 / 2 - 1 / 2 * (1 / 2))%R).
Proof.
  exact (proj1 (soft_updates_compose (H := toy_optim) (toy_agent 3 toy_memory 4)
                  (1 / 2) (1 / 2) 3 3 2 2 1 (toy_agent_dims 3 toy_memory 4))).
Defined.

Lemma soft_updates_closed_form_witness :
  exists self',
    soft_updates (toy_agent 3 toy_memory 4) (Some (1 / 2)%R) 3 = Ok self' /\
    target_actor self'
    = blend_actor (1 - (1 - 1 / 2) ^ 3) (actor (toy_agent 3 toy_memory 4))
        (target_actor (toy_agent 3 toy_memory 4)).
Proof.
  destruct (soft_updates_closed_form (H := toy_optim) (toy_agent 3 toy_memory 4)
              (1 / 2) 3 3 3 2 2 1 (toy_agent_dims 3 toy_memory 4))
    as (self' & E & Ha & _).
  exists self'. split; [exact E | exact Ha].
Defined.
(** ** remember *)

Section Remember.
Context `{AG : Autograd}.

Lemma remember_value (self : Agent) (tr : Transition) (b' : ReplayBuffer.t) :
  store (memory self) tr = Ok b' ->
  remember self (t_obs tr) (t_action tr) (t_reward tr) (t_obs_next tr) (t_done tr)
  = Ok (set_counters (set_memory (add_scalar self "reward" (t_reward tr)) b')
          (global_step self + 1)
          (if t_done tr then episode_counter self + 1 else episode_counter self)).
Proof.
  intros E. unfold remember. cbn [memory add_scalar].
  unfold store in E. rewrite E. reflexivity.
Qed.

Lemma remember_all_value (trs : list Transition) :
  forall (self : Agent),
  buffer_wf (memory self) -> Forall (fits (memory self)) trs ->
  exists self' b',
    remember_all self trs = Ok self' /\
    store_all (memory self) trs = Ok b' /\
    memory self' = b' /\
    global_step self' = global_step self + length trs /\
    episode_counter self' = episode_counter self + episodes_ended trs /\
    writer self' = (writer self ++ reward_log (global_step self) trs)%list /\
    actor self' = actor self /\ critic self' = critic self /\
    target_actor self' = target_actor self /\
    target_critic self' = target_critic self /\
    noise self' = noise self /\ batch_size self' = batch_size self.
Proof.
  induction trs as [|tr trs IH]; intros self Hwf Hfit.
  - exists self, (memory self). cbn [remember_all store_all reward_log length].
    unfold episodes_ended. cbn [List.filter length].
    rewrite !Nat.add_0_r, app_nil_r. repeat split.
  - apply Forall_cons in Hfit as [Hf Hfs].
    destruct (store_spec _ tr Hwf Hf) as (b1 & E1 & Hwf1 & Hfit1 & _).
    cbn [remember_all store_all]. rewrite (remember_value self tr b1 E1), E1.
    cbn [bind].
    set (self1 := set_counters _ _ _).
    destruct (IH self1) as (self' & b' & E & Es & Hm & Hg & He & Hw & Ha & Hc & Hta & Htc & Hn & Hb).
    { exact Hwf1. }
    { eapply Forall_impl; [exact Hfs | exact Hfit1]. }
    exists self', b'. cbn [memory self1 set_counters] in Es.
    split; [exact E|]. split; [exact Es|]. split; [exact Hm|].
    cbn [global_step episode_counter writer self1 set_counters set_memory add_scalar
         actor critic target_actor target_critic noise batch_size]
      in Hg, He, Hw, Ha, Hc, Hta, Htc, Hn, Hb.
    split; [rewrite Hg; cbn [length]; lia|].
    split.
    { rewrite He. unfold episodes_ended. cbn [List.filter].
      destruct (t_done tr); cbn [length]; lia. }
    split.
    { rewrite Hw. cbn [reward_log]. now rewrite <- app_assoc. }
    repeat split; assumption.
Qed.

(** X18: a sequence of [remember] calls with transitions of the buffer's
    sizes succeeds; it stores the transitions as [store_transition] does,
    advances [global_step] by the number of calls and [episode_counter] by
    the number of terminal transitions, logs each reward under the step
    it had before the call, and touches neither the networks nor the
    noise. In particular [global_step] and the buffer's counter advance
    together. *)
Theorem remember_sequence (self : Agent) (trs : list Transition) :
  buffer_wf (memory self) -> Forall (fits (memory self)) trs ->
  exists self' b',
    remember_all self trs = Ok self' /\
    store_all (memory self) trs = Ok b' /\
    memory self' = b' /\
    ReplayBuffer.mem_cntr b' = ReplayBuffer.mem_cntr (memory self) + length trs /\
    global_step self' = global_step self + length trs /\
    episode_counter self' = episode_counter self + episodes_ended trs /\
    writer self' = (writer self ++ reward_log (global_step self) trs)%list /\
    actor self' = actor self /\ critic self' = critic self /\
    target_actor self' = target_actor self /\
    target_critic self' = target_critic self /\
    noise self' = noise self.
Proof.
  intros Hwf Hfit.
  destruct (remember_all_value trs self Hwf Hfit)
    as (self' & b' & E & Es & Hm & Hg & He & Hw & Ha & Hc & Hta & Htc & Hn & _).
  destruct (store_all_spec trs _ Hwf Hfit) as (b2 & Es2 & _ & _ & _ & Hcn & _).
  rewrite Es in Es2. injection Es2 as <-.
  exists self', b'. repeat split; assumption.
Qed.

End Remember.

Lemma remember_sequence_witness :
  exists self',
    remember_all (toy_agent 3 (ReplayBuffer.init 2 1 1) 4) c2_transitions = Ok self' /\
    global_step self' = 3 /\ episode_counter self' = 1 /\
    writer self' = [("reward", 1%R, 0); ("reward", 2%R, 1); ("reward", 3%R, 2)].
Proof.
  destruct (remember_sequence (H := toy_optim)
              (toy_agent 3 (ReplayBuffer.init 2 1 1) 4) c2_transitions)
    as (self' & b' & E & _ & _ & _ & Hg & He & Hw & _).
  - apply init_wf. lia.
  - unfold c2_transitions, fits. repeat constructor.
  - exists self'. split; [exact E|]. split; [exact Hg|]. split; [exact He | exact Hw].
Defined.

(** ** choose_action *)

Lemma map2_plus_zeros (v : Vec) (n : nat) :
  length v = n -> map2 Rplus v (np_zeros n) = v.
Proof.
  intros <-. unfold np_zeros. induction v as [|x v IH]; simpl; [reflexivity|].
  f_equal; [ring | exact IH].
Qed.

Lemma ou_sample_zero (n : OUActionNoise.t) (xi : Vec) (k : nat) :
  OUActionNoise.sigma n = 0%R ->
  OUActionNoise.mu n = np_zeros k -> OUActionNoise.x_prev n = np_zeros k ->
  length xi = k ->
  ou_sample n xi = np_zeros k.
Proof.
  intros Hs Hm Hx Hl. unfold ou_sample. rewrite Hs, Hm, Hx. subst k.
  clear Hm Hx. unfold np_zeros. induction xi as [|z xi IH]; simpl; [reflexivity|].
  f_equal; [ring | exact IH].
Qed.

Lemma ou_sample_from_zero (n : OUActionNoise.t) (xi : Vec) (k : nat) :
  OUActionNoise.mu n = np_zeros k -> OUActionNoise.x_prev n = np_zeros k ->
  length xi = k ->
  ou_sample n xi
  = np_scale (OUActionNoise.sigma n * sqrt (OUActionNoise.dt n)) xi.
Proof.
  intros Hm Hx Hl. unfold ou_sample, np_scale. rewrite Hm, Hx. subst k.
  clear Hm Hx. unfold np_zeros. induction xi as [|z xi IH]; simpl; [reflexivity|].
  f_equal; [ring | exact IH].
Qed.

Section ChooseActionMore.
Context `{AG : Autograd}.

Lemma action_ok_set_training (self : Agent) (n_obs f1 f2 na : nat) (b : bool) :
  action_ok self n_obs f1 f2 na ->
  action_ok (set_actor self (ActorNetwork_set_training (actor self) b)) n_obs f1 f2 na.
Proof. intros Hok. exact Hok. Qed.

(** X19: choosing an action without exploration is repeatable and leaves
    the agent alone but for the mode of the actor: the call returns
    [actor(obs) * scale + shift], does not touch the generator, the noise
    process, the buffer or any parameter, leaves the actor in training
    mode, and a second call on the resulting agent returns the same action
    and the same agent. *)
Theorem choose_action_quiet_repeatable (self : Agent) (g : RNG) (obs : Vec)
    (n_obs f1 f2 na : nat) :
  action_ok self n_obs f1 f2 na -> length obs = n_obs ->
  exists a self',
    choose_action self g obs false = Ok (a, self', g) /\
    choose_action self' g obs false = Ok (a, self', g) /\
    a = affine_action (ActorNetwork_row (actor self) obs) (scale self) (shift self) /\
    a_training (actor self') = true /\
    ActorNetwork_named_parameters (actor self')
    = ActorNetwork_named_parameters (actor self) /\
    noise self' = noise self /\ memory self' = memory self /\
    critic self' = critic self /\ target_actor self' = target_actor self /\
    target_critic self' = target_critic self.
Proof.
  intros Hok Hl.
  eexists _, _. split; [exact (choose_action_quiet self g obs _ _ _ _ Hok Hl)|].
  split.
  - rewrite (choose_action_quiet _ g obs _ _ _ _
               (action_ok_set_training self _ _ _ _ true Hok) Hl).
    reflexivity.
  - repeat split.
Qed.

(** X20: with [sigma = 0] on the noise process of the constructors (mean
    zero, started at zero) exploration adds nothing: [choose_action] with
    exploration returns the action it returns without, and the process
    stays at zero. *)
Theorem exploration_off_at_sigma0 (self : Agent) (g : RNG) (obs : Vec)
    (n_obs f1 f2 na : nat) :
  action_ok self n_obs f1 f2 na -> length obs = n_obs ->
  OUActionNoise.sigma (noise self) = 0%R ->
  OUActionNoise.mu (noise self) = np_zeros na ->
  OUActionNoise.x_prev (noise self) = np_zeros na ->
  exists a s1 s2 g',
    choose_action self g obs false = Ok (a, s1, g) /\
    choose_action self g obs true = Ok (a, s2, g') /\
    OUActionNoise.x_prev (noise s2) = np_zeros na /\
    OUActionNoise.sigma (noise s2) = 0%R /\
    OUActionNoise.mu (noise s2) = np_zeros na.
Proof.
  intros Hok Hl Hs Hm Hx.
  eexists _, _, _, _.
  split; [exact (choose_action_quiet self g obs _ _ _ _ Hok Hl)|].
  pose proof (choose_action_noisy self g obs _ _ _ _ Hok Hl) as E.
  cbv zeta in E.
  rewrite (ou_sample_zero (noise self) _ na Hs Hm Hx (length_np_random_normal g na)) in E.
  rewrite map2_plus_zeros in E.
  - split; [exact E|]. cbn [noise set_noise set_actor OUActionNoise.set_x_prev
                            OUActionNoise.x_prev OUActionNoise.sigma OUActionNoise.mu].
    split; [reflexivity|]. split; assumption.
  - destruct Hok as (Ha & _). exact (ActorNetwork_row_length _ _ _ _ _ _ Ha).
Qed.

(** X21: [reset_noise_source] makes the next exploration independent of
    the samples drawn before: on an agent with the noise process of the
    constructors (mean zero, no [x0]) the action chosen right after it is
    [(actor(obs) + sigma * sqrt(dt) * xi) * scale + shift] for the normal
    draws [xi], whatever [x_prev] was and whatever [theta] is. *)
Theorem first_action_after_reset (self : Agent) (g : RNG) (obs : Vec)
    (n_obs f1 f2 na : nat) :
  action_ok self n_obs f1 f2 na -> length obs = n_obs ->
  OUActionNoise.mu (noise self) = np_zeros na ->
  OUActionNoise.x0 (noise self) = None ->
  let xi := fst (np_random_normal g na) in
  let n := np_scale (OUActionNoise.sigma (noise self)
                     * sqrt (OUActionNoise.dt (noise self))) xi in
  exists self',
    choose_action (reset_noise_source self) g obs true
    = Ok (affine_action (map2 Rplus (ActorNetwork_row (actor self) obs) n)
            (scale self) (shift self),
          self', snd (np_random_normal g na)) /\
    OUActionNoise.x_prev (noise self') = n.
Proof.
  intros Hok Hl Hm Hx0 xi n.
  assert (Hxp : OUActionNoise.x_prev (noise (reset_noise_source self)) = np_zeros na).
  { unfold reset_noise_source, OUActionNoise.reset. cbn [noise set_noise].
    cbn [OUActionNoise.set_x_prev OUActionNoise.x_prev]. rewrite Hx0.
    unfold np_zeros_like. rewrite Hm. unfold np_zeros. now rewrite repeat_length. }
  assert (Hok' : action_ok (reset_noise_source self) n_obs f1 f2 na).
  { destruct Hok as (H1 & H2 & H3 & H4 & H5 & H6 & H7).
    refine (conj H1 (conj H2 (conj H3 (conj H4 (conj H5 (conj H6 _)))))).
    rewrite Hxp. unfold np_zeros. now rewrite repeat_length. }
  pose proof (choose_action_noisy _ g obs _ _ _ _ Hok' Hl) as E.
  cbv zeta in E.
  rewrite (ou_sample_from_zero (noise (reset_noise_source self)) _ na) in E.
  - eexists. split; [exact E | reflexivity].
  - exact Hm.
  - exact Hxp.
  - apply length_np_random_normal.
Qed.

End ChooseActionMore.

Lemma quiet_toy_action_ok : action_ok quiet_toy_agent 3 2 2 1.
Proof.
  destruct (toy_action_ok 3 4) as (H1 & H2 & H3 & H4 & H5 & _ & _).
  refine (conj H1 (conj H2 (conj H3 (conj H4 (conj H5 (conj eq_refl eq_refl)))))).
Qed.

Lemma choose_action_quiet_repeatable_witness :
  exists a self',
    choose_action (toy_agent 3 toy_memory 4) rng0 [0; 0; 0]%R false
    = Ok (a, self', rng0) /\
    choose_action self' rng0 [0; 0; 0]%R false = Ok (a, self', rng0).
Proof.
  destruct (choose_action_quiet_repeatable (H := toy_optim) (toy_agent 3 toy_memory 4)
              rng0 [0; 0; 0]%R 3 2 2 1 (toy_action_ok 3 4) eq_refl)
    as (a & self' & E1 & E2 & _).
  exists a, self'. split; [exact E1 | exact E2].
Defined.

Lemma exploration_off_at_sigma0_witness :
  exists a s1 s2 g',
    choose_action quiet_toy_agent rng0 [0; 0; 0]%R false = Ok (a, s1, rng0) /\
    choose_action quiet_toy_agent rng0 [0; 0; 0]%R true = Ok (a, s2, g').
Proof.
  destruct (exploration_off_at_sigma0 (H := toy_optim) quiet_toy_agent rng0
              [0; 0; 0]%R 3 2 2 1 quiet_toy_action_ok eq_refl eq_refl eq_refl eq_refl)
    as (a & s1 & s2 & g' & E1 & E2 & _).
  exists a, s1, s2, g'. split; [exact E1 | exact E2].
Defined.

Lemma first_action_after_reset_witness :
  exists a self' g',
    choose_action (reset_noise_source (toy_agent 3 toy_memory 4)) rng0 [0; 0; 0]%R true
    = Ok (a, self', g').
Proof.
  destruct (first_action_after_reset (H := toy_optim) (toy_agent 3 toy_memory 4) rng0
              [0; 0; 0]%R 3 2 2 1 (toy_action_ok 3 4) eq_refl eq_refl eq_refl)
    as (self' & E & _).
  eexists _, self', _. exact E.
Defined.
(** ** reduce_noise_sigma *)

Section NoiseParameters.
Context `{AG : Autograd}.

Lemma choose_action_noise_params (self : Agent) (sigma theta : R) (g : RNG)
    (obs : Vec) (explore : bool) :
  choose_action (set_noise_params self sigma theta) g obs explore
  = let* (a, s, g') := choose_action self g obs explore in
    Ok (a, set_noise_params s sigma theta, g').
Proof.
  unfold choose_action.
  cbn [set_noise_params set_actor set_noise actor noise scale shift].
  destruct (ActorNetwork_forward_1d _ obs) as [mu|e]; cbn [bind]; [|reflexivity].
  destruct explore.
  - destruct (OUActionNoise.call (noise self) g) as [[[n noise'] g']|e];
      cbn [bind]; [|reflexivity].
    destruct (np_add mu n) as [r|e]; cbn [bind]; [|reflexivity].
    cbn [set_noise_params set_actor set_noise actor noise scale shift].
    destruct (np_mul r (scale self)) as [sc|e]; cbn [bind]; [|reflexivity].
    destruct (np_add sc (shift self)) as [m|e]; cbn [bind]; reflexivity.
  - cbn [bind set_noise_params set_actor set_noise actor noise scale shift].
    destruct (np_mul mu (scale self)) as [sc|e]; cbn [bind]; [|reflexivity].
    destruct (np_add sc (shift self)) as [m|e]; cbn [bind]; reflexivity.
Qed.

(** X22: [reduce_noise_sigma] never changes the exploration. On an agent
    as the classes build it (no attribute [own_actions]) the call scales
    the stored [noise_sigma] and [noise_theta] and then raises
    [AttributeError]; the noise process is the one from before, and
    [choose_action] afterwards returns what it would have returned without
    the call. Only with an [own_actions] put on the instance from outside
    does the call install a fresh process with the scaled parameters. *)
Theorem reduce_noise_sigma_raises (self : Agent) (sigma_factor theta_factor : R)
    (g : RNG) (obs : Vec) (explore : bool) :
  let r := reduce_noise_sigma self None sigma_factor theta_factor in
  snd r = Some (mkAttributeError "own_actions") /\
  noise_sigma (fst r) = (noise_sigma self * sigma_factor)%R /\
  noise_theta (fst r) = (noise_theta self * theta_factor)%R /\
  noise (fst r) = noise self /\
  choose_action (fst r) g obs explore
  = (let* (a, s, g') := choose_action self g obs explore in
     Ok (a, set_noise_params s (noise_sigma self * sigma_factor)
              (noise_theta self * theta_factor), g')) /\
  (forall n,
     snd (reduce_noise_sigma self (Some n) sigma_factor theta_factor) = None /\
     noise (fst (reduce_noise_sigma self (Some n) sigma_factor theta_factor))
     = OUActionNoise.init (np_zeros n) (noise_sigma self * sigma_factor)
         (noise_theta self * theta_factor) (1 / 5) None).
Proof.
  intros r. unfold r, reduce_noise_sigma. cbn [fst snd].
  split; [reflexivity|]. split; [reflexivity|]. split; [reflexivity|].
  split; [reflexivity|]. split.
  - exact (choose_action_noise_params self _ _ g obs explore).
  - intros n. split; reflexivity.
Qed.

(** ** Capacity 0 *)

(** X23: an agent constructed with [max_size = 0] cannot store anything:
    the constructor succeeds, and every [remember] raises
    [ZeroDivisionError]. *)
Theorem remember_capacity_zero (g : RNG) (lr_actor lr_critic : R)
    (own_input_shape : nat) (space : Box) (tau0 : R)
    (other_input_shapes other_actions_shapes : list nat)
    (gamma0 : R) (layer1_size layer2_size batch : nat) (sigma0 theta0 : R) :
  length (low space) = length (high space) ->
  exists self g',
    Agent_Multi_init g lr_actor lr_critic own_input_shape space tau0
      other_input_shapes other_actions_shapes gamma0 0 layer1_size
      layer2_size batch sigma0 theta0 = Ok (self, g') /\
    forall obs action reward new_obs done,
      remember self obs action reward new_obs done = Err ZeroDivisionError.
Proof.
  intros Hl.
  destruct (Agent_Multi_init_ok g lr_actor lr_critic own_input_shape space tau0
              other_input_shapes other_actions_shapes gamma0 0 layer1_size
              layer2_size batch sigma0 theta0 Hl)
    as (self & g' & E & _ & _ & _ & _ & _ & _ & _ & Hm).
  exists self, g'. split; [exact E|].
  intros obs action reward new_obs done.
  unfold remember. cbn [memory add_scalar]. rewrite Hm. reflexivity.
Qed.

(** ** The two constructors *)

Lemma update_set_init_dict (self : Agent) (d : InitDict) (t : option R) :
  _update_network_parameters (set_init_dict self d) t
  = let* s := _update_network_parameters self t in Ok (set_init_dict s d).
Proof.
  unfold _update_network_parameters.
  cbn [set_init_dict tau critic actor target_critic target_actor].
  destruct (blend_dict _ (CriticNetwork_named_parameters (critic self)) _) as [cd|e];
    cbn [bind]; [|reflexivity].
  destruct (CriticNetwork_load_state_dict (target_critic self) cd) as [tc|e];
    cbn [bind]; [|reflexivity].
  cbn [set_target_critic set_init_dict target_actor actor].
  destruct (blend_dict _ (ActorNetwork_named_parameters (actor self)) _) as [ad|e];
    cbn [bind]; [|reflexivity].
  destruct (ActorNetwork_load_state_dict (target_actor self) ad) as [ta|e];
    cbn [bind]; reflexivity.
Qed.

(** X24: [Agent_Single.__init__] builds the agent that
    [Agent_Multi.__init__] builds with its default [other_input_shapes =
    [(0,)]] and [other_actions_shapes = [(0,)]]: the same networks from the
    same draws, the same buffer, noise, scaling and type ['DDPD']; only
    [init_dict] differs, by the two [other_*] entries. *)
Theorem single_is_multi_default (g : RNG) (lr_actor lr_critic : R)
    (own_input_shape : nat) (space : Box) (tau0 gamma0 : R)
    (max_size layer1_size layer2_size batch : nat) (sigma0 theta0 : R) :
  Agent_Multi_init g lr_actor lr_critic own_input_shape space tau0 [0] [0]
    gamma0 max_size layer1_size layer2_size batch sigma0 theta0
  = let* (s, g') :=
      Agent_Single_init g lr_actor lr_critic own_input_shape space tau0
        gamma0 max_size layer1_size layer2_size batch sigma0 theta0 in
    Ok (set_init_dict s
          (mkInitDict lr_actor lr_critic own_input_shape space tau0
             (Some [0]) (Some [0]) gamma0 max_size layer1_size layer2_size
             batch sigma0 theta0),
        g').
Proof.
  unfold Agent_Multi_init, Agent_Single_init.
  destruct (decide ([0] = [0])) as [_|Hne]; [|congruence].
  destruct (np_sub (high space) (low space)) as [d|e]; cbn [bind]; [|reflexivity].
  destruct (np_add (high space) (low space)) as [s|e]; cbn [bind]; [|reflexivity].
  cbn [list_sum_nat fold_right]. rewrite !Nat.add_0_r.
  destruct (ActorNetwork_init g _ _ _ _ _) as [a g1].
  destruct (CriticNetwork_init g1 _ _ _ _ _) as [c g2].
  destruct (ActorNetwork_init g2 _ _ _ _ _) as [ta g3].
  destruct (CriticNetwork_init g3 _ _ _ _ _) as [tc g4].
  match goal with
  | |- (let* _ := _update_network_parameters ?m _ in _) = _ =>
      match goal with
      | |- _ = (let* _ := (let* _ := _update_network_parameters ?s _ in _) in _) =>
          change m with (set_init_dict s (init_dict m))
      end
  end.
  rewrite update_set_init_dict.
  destruct (_update_network_parameters _ (Some 1%R)) as [s'|e]; cbn [bind]; reflexivity.
Qed.

End NoiseParameters.

Lemma remember_capacity_zero_witness :
  exists self g',
    Agent_Multi_init (H := toy_optim) rng0 (1 / 10) (1 / 10) 3 unit_box (1 / 1000)
      [0] [0] (99 / 100) 0 2 2 4 (3 / 20) (1 / 5) = Ok (self, g') /\
    remember self [0; 0; 0]%R [0%R] 1 [0; 0; 0]%R false = Err ZeroDivisionError.
Proof.
  destruct (remember_capacity_zero (H := toy_optim) rng0 (1 / 10) (1 / 10) 3 unit_box
              (1 / 1000) [0] [0] (99 / 100) 2 2 4 (3 / 20) (1 / 5) eq_refl)
    as (self & g' & E & Hr).
  exists self, g'. split; [exact E | apply Hr].
Defined.
(** ** learn: a full step *)


Section LearnStep.
Context `{AG : Autograd}.



Lemma eval_mode_frame (self : Agent) :
  calculate_grad_norms (eval_mode self) = calculate_grad_norms self /\
  writer (eval_mode self) = writer self /\ memory (eval_mode self) = memory self /\
  noise (eval_mode self) = noise self /\
  global_step (eval_mode self) = global_step self /\
  episode_counter (eval_mode self) = episode_counter self /\
  batch_size (eval_mode self) = batch_size self /\
  gamma (eval_mode self) = gamma self /\ tau (eval_mode self) = tau self /\
  a_training (target_actor (eval_mode self)) = false /\
  c_training (target_critic (eval_mode self)) = false.
Proof. repeat split. Qed.


End LearnStep.


(** ** learn with two agents *)

Section TwoAgentLearn.
Context `{AG : Autograd}.




End TwoAgentLearn.

(** ** The critic loss *)

Lemma bdim_sym (n m : nat) : bdim n m = bdim m n.
Proof.
  unfold bdim.
  destruct (Nat.eqb_spec n m) as [->|Hnm].
  - now rewrite Nat.eqb_refl.
  - destruct (Nat.eqb_spec m n) as [->|_]; [contradiction|].
    destruct (Nat.eqb_spec n 1) as [->|Hn], (Nat.eqb_spec m 1) as [->|Hm];
      reflexivity.
Qed.

Lemma sq_diff_rows_sym (A B : list Vec) :
  map (map (fun x => (x * x)%R)) (map2 (map2 Rminus) A B)
  = map (map (fun x => (x * x)%R)) (map2 (map2 Rminus) B A).
Proof.
  revert B. induction A as [|u A IH]; intros [|v B]; simpl; try reflexivity.
  f_equal; [|apply IH].
  clear. revert v. induction u as [|a u IHu]; intros [|b v]; simpl; try reflexivity.
  f_equal; [ring | apply IHu].
Qed.

(** X27: the critic loss does not depend on the order of its two
    arguments: [F.mse_loss(target_value, critic_value)], as both [learn]
    methods call it, is the value (or the error) of
    [F.mse_loss(critic_value, target_value)]. *)
Theorem mse_loss_symmetric (a b : Mat) : F_mse_loss a b = F_mse_loss b a.
Proof.
  unfold F_mse_loss, T_sub, T_binop.
  rewrite (bdim_sym (nrows b)), (bdim_sym (ncols b)).
  destruct (bdim (nrows a) (nrows b)) as [r|]; [|reflexivity].
  destruct (bdim (ncols a) (ncols b)) as [c|]; [|reflexivity].
  cbn [bind]. f_equal. unfold T_mean, mat_map, nrows. cbn [rows ncols].
  now rewrite sq_diff_rows_sym.
Qed.

(** ** Warm-up *)

Section WarmUp.
Context `{AG : Autograd}.

(** X28: while fewer transitions have been remembered than the batch
    size, learning does nothing: after any sequence of [remember] calls
    that leaves the buffer's counter below [batch_size], both [learn]
    methods return with the agent, the heap and the generator unchanged. *)
Theorem learn_warm_up (self : Agent) (trs : list Transition) (g : RNG) :
  buffer_wf (memory self) -> Forall (fits (memory self)) trs ->
  ReplayBuffer.mem_cntr (memory self) + length trs < batch_size self ->
  exists self',
    remember_all self trs = Ok self' /\
    ReplayBuffer.mem_cntr (memory self')
    = ReplayBuffer.mem_cntr (memory self) + length trs /\
    Agent_Single_learn self' g = Ok (self', g) /\
    (forall (h : Heap) (a : nat) (agents_list : list nat) (own_idx : nat),
       h a = self' -> Agent_Multi_learn h g a agents_list own_idx = Ok (h, g)).
Proof.
  intros Hwf Hfit Hlt.
  destruct (remember_all_value trs self Hwf Hfit)
    as (self' & b' & E & Es & Hm & _ & _ & _ & _ & _ & _ & _ & _ & Hb).
  destruct (store_all_spec trs _ Hwf Hfit) as (b2 & Es2 & _ & _ & _ & Hcn & _).
  rewrite Es in Es2. injection Es2 as <-.
  exists self'. split; [exact E|]. rewrite Hm. split; [exact Hcn|].
  assert (Hguard : (ReplayBuffer.mem_cntr (memory self') <? batch_size self') = true).
  { apply Nat.ltb_lt. rewrite Hm, Hcn, Hb. exact Hlt. }
  split.
  - unfold Agent_Single_learn. now rewrite Hguard.
  - intros h a agents_list own_idx Eh. unfold Agent_Multi_learn.
    rewrite Eh. now rewrite Hguard.
Qed.

End WarmUp.

Lemma learn_warm_up_witness :
  exists self',
    remember_all (toy_agent 3 (ReplayBuffer.init 2 1 1) 4) c2_transitions = Ok self' /\
    Agent_Single_learn (AG := toy_autograd) self' rng0 = Ok (self', rng0).
Proof.
  destruct (learn_warm_up (AG := toy_autograd)
              (toy_agent 3 (ReplayBuffer.init 2 1 1) 4) c2_transitions rng0)
    as (self' & E & _ & El & _).
  - apply init_wf. lia.
  - unfold c2_transitions, fits. repeat constructor.
  - simpl. lia.
  - exists self'. split; [exact E | exact El].
Defined.
(** ** What the constructor establishes *)

Section Constructed.
Context `{AG : Autograd}.

(** X29: the agent that [Agent_Multi.__init__] returns. For a box whose
    bounds have the length of its shape and a positive [max_size], the
    constructor succeeds and the agent has networks of the shapes used
    throughout (actor on the own observation, critic on the own and the
    other observations and the other actions), an empty buffer of the given
    capacity, scaling by [(high - low) / 2] and [(high + low) / 2], a noise
    process with mean zero, [dt = 1/5] and the given [sigma] and [theta],
    started at zero, counters at zero, nothing logged, and the type
    ['DDPD'] exactly when [other_input_shapes] is [[(0,)]]. *)
Theorem constructed_agent_ok (g : RNG) (lr_actor lr_critic : R)
    (own_input_shape : nat) (space : Box) (tau0 : R)
    (other_input_shapes other_actions_shapes : list nat)
    (gamma0 : R) (max_size layer1_size layer2_size batch : nat)
    (sigma0 theta0 : R) :
  length (low space) = box_shape space ->
  length (high space) = box_shape space ->
  0 < max_size ->
  exists self g',
    Agent_Multi_init g lr_actor lr_critic own_input_shape space tau0
      other_input_shapes other_actions_shapes gamma0 max_size layer1_size
      layer2_size batch sigma0 theta0 = Ok (self, g') /\
    agent_dims self own_input_shape
      (own_input_shape + list_sum_nat other_input_shapes
       + list_sum_nat other_actions_shapes)
      layer1_size layer2_size (box_shape space) /\
    action_ok self own_input_shape layer1_size layer2_size (box_shape space) /\
    memory_ok self own_input_shape (box_shape space) /\
    memory self = ReplayBuffer.init max_size own_input_shape (box_shape space) /\
    noise self
    = OUActionNoise.init (np_zeros (box_shape space)) sigma0 theta0 (1 / 5) None /\
    OUActionNoise.x_prev (noise self) = np_zeros (box_shape space) /\
    global_step self = 0 /\ episode_counter self = 0 /\ writer self = [] /\
    calculate_grad_norms self = false /\
    batch_size self = batch /\ gamma self = gamma0 /\ tau self = tau0 /\
    agent_type self
    = (if decide (other_input_shapes = [0]) then "DDPD" else "MADDPG").
Proof.
  intros Hlo Hhi Hms. unfold Agent_Multi_init.
  unfold np_sub, np_add. rewrite !np_binop_same by congruence.
  cbn [bind].
  destruct (ActorNetwork_init g _ _ _ _ _) as [a g1] eqn:Ea.
  destruct (CriticNetwork_init g1 _ _ _ _ _) as [c g2] eqn:Ec.
  destruct (ActorNetwork_init g2 _ _ _ _ _) as [ta g3] eqn:Eta.
  destruct (CriticNetwork_init g3 _ _ _ _ _) as [tc g4] eqn:Etc.
  apply ActorNetwork_init_dims in Ea, Eta.
  apply CriticNetwork_init_dims in Ec, Etc.
  match goal with
  | |- context [_update_network_parameters ?s ?t] =>
      assert (Hd : agent_dims s own_input_shape
                (own_input_shape + list_sum_nat other_input_shapes
                 + list_sum_nat other_actions_shapes)
                layer1_size layer2_size (box_shape space))
        by (unfold agent_dims; cbn [actor target_actor critic target_critic]; tauto);
      rewrite (update_network_parameters_ok s t _ _ _ _ _ Hd);
      clear Hd
  end.
  cbn [bind actor target_actor critic target_critic].
  eexists _, _. split; [reflexivity|].
  unfold set_target_actor, set_target_critic.
  cbn [actor target_actor critic target_critic scale shift action_space
       batch_size memory noise global_step episode_counter writer
       calculate_grad_norms gamma tau agent_type].
  assert (Hz : length (np_zeros (box_shape space)) = box_shape space)
    by (unfold np_zeros; apply repeat_length).
  split.
  { unfold agent_dims.
    cbn [actor target_actor critic target_critic].
    split; [assumption|]. split; [apply blend_actor_dims; assumption|].
    split; [assumption|]. apply blend_critic_dims; assumption. }
  split.
  { unfold action_ok.
    cbn [actor scale shift action_space noise].
    split; [assumption|]. split; [exact Hlo|]. split; [exact Hhi|].
    split; [reflexivity|]. split; [reflexivity|].
    split; [exact Hz|].
    unfold OUActionNoise.init, OUActionNoise.reset. cbn [OUActionNoise.x0
      OUActionNoise.set_x_prev OUActionNoise.x_prev OUActionNoise.mu].
    unfold np_zeros_like. now rewrite Hz. }
  split.
  { unfold memory_ok. cbn [memory].
    split; [apply init_wf; exact Hms|]. repeat split. }
  split; [reflexivity|]. split; [reflexivity|].
  split.
  { unfold OUActionNoise.init, OUActionNoise.reset. cbn [OUActionNoise.x0
      OUActionNoise.set_x_prev OUActionNoise.x_prev OUActionNoise.mu].
    unfold np_zeros_like. now rewrite Hz. }
  repeat split.
Qed.

End Constructed.

Lemma constructed_agent_ok_witness :
  exists self g',
    Agent_Multi_init (H := toy_optim) rng0 (1 / 10) (1 / 10) 3 unit_box (1 / 1000)
      [3] [1] (99 / 100) 10 2 2 4 (3 / 20) (1 / 5) = Ok (self, g') /\
    agent_dims self 3 7 2 2 1 /\ agent_type self = "MADDPG" /\ global_step self = 0.
Proof.
  destruct (constructed_agent_ok (H := toy_optim) rng0 (1 / 10) (1 / 10) 3 unit_box
              (1 / 1000) [3] [1] (99 / 100) 10 2 2 4 (3 / 20) (1 / 5)
              eq_refl eq_refl ltac:(lia))
    as (self & g' & E & Hd & _ & _ & _ & _ & _ & Hg & _ & _ & _ & _ & _ & _ & Ht).
  exists self, g'. split; [exact E|]. split; [exact Hd|]. split; [exact Ht | exact Hg].
Defined.
